(** * irctoslack: the IRC <-> Slack relay, embedded in Rocq

    The development follows the Go program function by function.  Go
    strings are byte strings: they are modelled by [string] (a list of
    8-bit [ascii] characters).  Go [int] values are modelled by [Z]; the
    only integers the program computes are string offsets, far below the
    64-bit range, so no wrap-around arises.  A run-time panic (a slice
    expression out of range) is the [Panic] result. *)

From Stdlib Require Import ZArith Ascii String Lia Bool List.
From stdpp Require Import base gmap strings.
Import ListNotations.
Open Scope string_scope.
Open Scope list_scope.
Open Scope Z_scope.

(* String concatenation computes by simplification again. *)
#[local] Arguments String.append !_ _ : simpl nomatch.

(** ** Results of code that may panic *)

Inductive Result (A : Type) : Type :=
| Ret (a : A)
| Panic.
Arguments Ret {A} a.
Arguments Panic {A}.

Definition bind {A B : Type} (r : Result A) (k : A -> Result B) : Result B :=
  match r with
  | Ret a => k a
  | Panic => Panic
  end.

Notation "'do' x <- r ; k" := (bind r (fun x => k))
  (at level 10, x name, r at level 100, k at level 200).

(** ** Byte strings: length, slices *)

Definition CR : ascii := "013"%char.
Definition LF : ascii := "010"%char.
Definition SOH : ascii := "001"%char.

(** The two-byte string ["\r\n"]. *)
Definition CRLF : string := String CR (String LF "").

Definition len (s : string) : Z := Z.of_nat (String.length s).

Fixpoint drop (n : nat) (s : string) : string :=
  match n, s with
  | O, _ => s
  | S n', String _ s' => drop n' s'
  | S _, EmptyString => EmptyString
  end.

Fixpoint take (n : nat) (s : string) : string :=
  match n, s with
  | O, _ => EmptyString
  | S n', String c s' => String c (take n' s')
  | S _, EmptyString => EmptyString
  end.

(** [s[lo:hi]]; Go panics unless [0 <= lo <= hi <= len(s)]. *)
Definition slice (s : string) (lo hi : Z) : Result string :=
  if (0 <=? lo) && (lo <=? hi) && (hi <=? len s)
  then Ret (take (Z.to_nat (hi - lo)) (drop (Z.to_nat lo) s))
  else Panic.

(** [s[lo:]] *)
Definition slice_from (s : string) (lo : Z) : Result string :=
  slice s lo (len s).

(** ** Package strings *)

(** Offset of the first occurrence of [sep] in [s], if any. *)
Fixpoint index_of (s sep : string) : option nat :=
  if String.prefix sep s then Some O
  else match s with
       | EmptyString => None
       | String _ s' => option_map S (index_of s' sep)
       end.

(** [strings.Index]: the offset of the first occurrence, or -1. *)
Definition Index (s sep : string) : Z :=
  match index_of s sep with
  | Some n => Z.of_nat n
  | None => -1
  end.

Definition HasPrefix (s pre : string) : bool := String.prefix pre s.

Definition Contains (s sub : string) : bool := 0 <=? Index s sub.

Fixpoint mem_byte (c : ascii) (cutset : string) : bool :=
  match cutset with
  | EmptyString => false
  | String d cutset' => Ascii.eqb c d || mem_byte c cutset'
  end.

(** [strings.TrimRight] for a cutset of ASCII characters: the longest
    prefix of [s] whose last byte is not in the cutset. *)
Fixpoint TrimRight (s cutset : string) : string :=
  match s with
  | EmptyString => EmptyString
  | String c s' =>
      match TrimRight s' cutset with
      | EmptyString => if mem_byte c cutset then EmptyString else String c EmptyString
      | t => String c t
      end
  end.

(** [strings.Replace(s, old, new, n)] for a non-empty [old] and [n >= 0]:
    the first [n] occurrences of [old] are replaced, left to right and
    without overlap. *)
Fixpoint Replace (s old new : string) (n : nat) : string :=
  match n with
  | O => s
  | S n' =>
      match index_of s old with
      | Some i =>
          take i s +:+ new +:+ Replace (drop (i + String.length old) s) old new n'
      | None => s
      end
  end.

(** ** Package fmt: a format string printed with no operands

    [fmt.Fprintf(w, format)] scans [format] for directives even when it is
    given no operand.  This is the scanner of [doPrintf] specialised to an
    empty operand list: the operand counter stays at 0, so every verb but
    [%%] is reported as missing (or as a bad index). *)

Definition byte (c : ascii) : N := N_of_ascii c.

Definition in_range (lo hi : N) (c : ascii) : bool :=
  ((lo <=? byte c) && (byte c <=? hi))%N.

Definition is_flag (c : ascii) : bool := mem_byte c "#0+- ".

Fixpoint skip_flags (s : string) : string :=
  match s with
  | String c s' => if is_flag c then skip_flags s' else s
  | EmptyString => EmptyString
  end.

Definition is_digit (c : ascii) : bool := in_range 48 57 c.

Definition tooLarge (x : Z) : bool := (1000000 <? x) || (x <? -1000000).

(** [parsenum(s, 0, len(s))]: the number read, whether one was read, and
    the text after it (nothing is left after an overflow). *)
Fixpoint parsenum_from (s : string) (num : Z) (isnum : bool) : Z * bool * string :=
  match s with
  | String c s' =>
      if is_digit c then
        if tooLarge num then (0, false, EmptyString)
        else parsenum_from s' (num * 10 + (Z.of_N (byte c) - 48)) true
      else (num, isnum, s)
  | EmptyString => (num, isnum, EmptyString)
  end.

Definition parsenum (s : string) : Z * bool * string := parsenum_from s 0 false.

(** [parseArgNumber] on text that starts with an opening bracket: the
    index, the number of bytes to skip, and whether [[n]] was well formed. *)
Definition parseArgNumber (format : string) : Z * nat * bool :=
  if (String.length format <? 3)%nat then (0, 1%nat, false)
  else
    match index_of (drop 1 format) "]" with
    | None => (0, 1%nat, false)
    | Some j =>
        match parsenum (take j (drop 1 format)) with
        | (width, true, EmptyString) => (width - 1, (j + 2)%nat, true)
        | _ => (0, (j + 2)%nat, false)
        end
    end.

(** [argNumber] with no operands: the text after an optional [[n]], whether
    an index was found, and whether [goodArgNum] survives (no index is in
    range when there are no operands). *)
Definition argNumber (s : string) : string * bool * bool :=
  match s with
  | String "[" _ =>
      let '(_, wid, ok) := parseArgNumber s in (drop wid s, ok, false)
  | _ => (s, false, true)
  end.

(** U+FFFD as UTF-8, what [writeRune] emits for an undecodable byte. *)
Definition RuneError : string := String "239" (String "191" (String "189" "")).

(** [utf8.DecodeRuneInString] followed by [writeRune]: the bytes written
    for the verb and the number of bytes of format it spans. *)
Definition decodeRune (s : string) : string * nat :=
  match s with
  | EmptyString => (RuneError, 0%nat)
  | String b0 s1 =>
      if (byte b0 <? 128)%N then (String b0 "", 1%nat)
      else if in_range 0xC2 0xDF b0 then
        match s1 with
        | String b1 _ =>
            if in_range 0x80 0xBF b1 then (String b0 (String b1 ""), 2%nat)
            else (RuneError, 1%nat)
        | _ => (RuneError, 1%nat)
        end
      else if in_range 0xE0 0xEF b0 then
        let lo := if (byte b0 =? 0xE0)%N then 0xA0%N else 0x80%N in
        let hi := if (byte b0 =? 0xED)%N then 0x9F%N else 0xBF%N in
        match s1 with
        | String b1 (String b2 _) =>
            if in_range lo hi b1 && in_range 0x80 0xBF b2
            then (String b0 (String b1 (String b2 "")), 3%nat)
            else (RuneError, 1%nat)
        | _ => (RuneError, 1%nat)
        end
      else if in_range 0xF0 0xF4 b0 then
        let lo := if (byte b0 =? 0xF0)%N then 0x90%N else 0x80%N in
        let hi := if (byte b0 =? 0xF4)%N then 0x8F%N else 0xBF%N in
        match s1 with
        | String b1 (String b2 (String b3 _)) =>
            if in_range lo hi b1 && in_range 0x80 0xBF b2 && in_range 0x80 0xBF b3
            then (String b0 (String b1 (String b2 (String b3 ""))), 4%nat)
            else (RuneError, 1%nat)
        | _ => (RuneError, 1%nat)
        end
      else (RuneError, 1%nat)
  end.

(** One directive, given the text after its [%]: the bytes printed and
    the format left to scan ([None] when the format ran out).  The steps
    are those of the library: flags, an argument index, a width, a
    precision (a dot that ends the format is a verb, not a precision), an
    argument index, the verb. *)
Definition directive (s : string) : string * option string :=
  let s := skip_flags s in
  let '(s, afterIndex, good) := argNumber s in
  let '(out, s, afterIndex, good) :=
    match s with
    | String "*" s' => ("%!(BADWIDTH)", s', false, good)
    | _ =>
        let '(_, widPresent, s') := parsenum s in
        (EmptyString, s', afterIndex, good && negb (afterIndex && widPresent))
    end in
  let '(out, s, afterIndex, good) :=
    match s with
    | String "." (String _ _ as s') =>
        let good := good && negb afterIndex in
        let '(s', afterIndex, g) := argNumber s' in
        match s' with
        | String "*" s'' => (out +:+ "%!(BADPREC)", s'', false, good && g)
        | _ =>
            let '(_, _, s'') := parsenum s' in (out, s'', afterIndex, good && g)
        end
    | _ => (out, s, afterIndex, good)
    end in
  let '(s, good) :=
    if afterIndex then (s, good)
    else let '(s', _, g) := argNumber s in (s', good && g) in
  match s with
  | EmptyString => (out +:+ "%!(NOVERB)", None)
  | String c _ =>
      let '(verb, size) := decodeRune s in
      let s' := drop size s in
      if Ascii.eqb c "%" then (out +:+ "%", Some s')
      else if good then (out +:+ "%!" +:+ verb +:+ "(MISSING)", Some s')
      else (out +:+ "%!" +:+ verb +:+ "(BADINDEX)", Some s')
  end.

Fixpoint doPrintf (fuel : nat) (format : string) : string :=
  match fuel with
  | O => EmptyString
  | S fuel' =>
      match format with
      | EmptyString => EmptyString
      | String c rest =>
          if Ascii.eqb c "%" then
            match directive rest with
            | (out, Some rest') => out +:+ doPrintf fuel' rest'
            | (out, None) => out
            end
          else String c (doPrintf fuel' rest)
      end
  end.

(** [fmt.Sprintf(format)]; every step of the scan consumes a byte, so the
    length of the format is fuel enough. *)
Definition Sprintf (format : string) : string :=
  doPrintf (String.length format) format.

(** ** The IRC line codec (extractNickname, extractIRCMessage,
    extractActionMessage) *)

Definition extractNickname (message : string) : Result string :=
  let prefixEnd := Index message "!" in
  if prefixEnd =? -1 then Ret ""
  else slice message 1 prefixEnd.

Definition extractIRCMessage (message : string) : Result string :=
  let idx := Index message " PRIVMSG " in
  if idx =? -1 then Ret ""
  else
    do rest <- slice_from message (idx + len " PRIVMSG ");
    let colonIdx := Index rest " :" in
    if colonIdx =? -1 then Ret ""
    else
      do tail <- slice_from rest (colonIdx + 2);
      Ret (TrimRight tail CRLF).

Definition extractActionMessage (message : string) : Result string :=
  let start := Index message "ACTION" + len "ACTION " in
  do tail <- slice_from message start;
  let end_ := Index tail (String SOH "") in
  if end_ =? -1 then Ret (TrimRight tail CRLF)
  else slice message start (start + end_).

(** ** Configuration, connections, effects *)

Record Config : Type := {
  IRC_Server : string;
  IRC_Channel : string;
  IRC_Nickname : string;
  Slack_WebhookURL : string;
  Slack_ListenAddress : string;
  Slack_APIToken : string;
  Slack_IgnoreBots : bool;
  Slack_IgnoreUsers : list string
}.

(** A [net.Conn]: the environment numbers the connections it hands out. *)
Definition Conn : Type := nat.

(** The struct [IRCConnection].  Its [mutex] field carries no data here:
    taking and releasing it are the effects [Lock] and [Unlock] on the
    struct's address, and the section on guarded writes gives the lock its
    state. *)
Record IRCConnection : Type := {
  conn : Conn;
  config : Config
}.

Arguments Build_IRCConnection conn%_nat config.

(** A [*IRCConnection] is an index into the heap of allocated structs.
    The program never mutates nor frees a struct once built, so allocation
    appends. *)
Definition Ptr : Type := nat.
Definition Heap : Type := list IRCConnection.

Definition deref (h : Heap) (p : Ptr) : Result IRCConnection :=
  match h !! p with
  | Some ic => Ret ic
  | None => Panic
  end.

(** What the process does to the outside world. *)
Inductive Effect : Type :=
| Print (s : string)                     (* fmt.Print / fmt.Println *)
| Log (s : string)                       (* log.Printf / log.Println *)
| Fatal (s : string)                     (* log.Fatalf: log and exit *)
| Dial (server : string)                 (* net.Dial("tcp", server) *)
| Sleep (d : Z)                          (* time.Sleep(d) *)
| Lock (p : Ptr)                         (* p.mutex.Lock() *)
| Unlock (p : Ptr)                       (* p.mutex.Unlock() *)
| ConnWrite (c : Conn) (bytes : string)  (* one Write on a net.Conn *)
| PostToSlack (message url : string)     (* postToSlack(message, url) *)
| HttpGet (url token : string)           (* the users.info request *)
| Ready (p : Ptr).                       (* a send on connectionReady *)
Arguments Lock p%_nat.
Arguments Unlock p%_nat.
Arguments ConnWrite c%_nat bytes%_string.
Arguments Ready p%_nat.

(** ** handleMessage *)

Definition handleMessage (h : Heap) (message : string) (ircConn : Ptr)
    (slackWebhookURL : string) : Result (list Effect) :=
  if HasPrefix message "PING" then
    let response := Replace message "PING" "PONG" 1 in
    do ic <- deref h ircConn;
    Ret [Print message;
         Lock ircConn; ConnWrite (conn ic) (Sprintf response); Unlock ircConn]
  else if Contains message "JOIN" then
    do nickname <- extractNickname message;
    let formattedMessage := "*" +:+ nickname +:+ " has joined the channel*" in
    Ret [Print message; PostToSlack formattedMessage slackWebhookURL]
  else if Contains message "PART" then
    do nickname <- extractNickname message;
    let formattedMessage := "*" +:+ nickname +:+ " has left the channel*" in
    Ret [Print message; PostToSlack formattedMessage slackWebhookURL]
  else if Contains message "PRIVMSG" && Contains message "ACTION" then
    do nickname <- extractNickname message;
    do actionMessage <- extractActionMessage message;
    let formattedMessage := "_" +:+ nickname +:+ " " +:+ actionMessage +:+ "_" in
    Ret [Print message; PostToSlack formattedMessage slackWebhookURL]
  else if Contains message "PRIVMSG" then
    do nickname <- extractNickname message;
    do ircMessage <- extractIRCMessage message;
    let formattedMessage := "<" +:+ nickname +:+ "> " +:+ ircMessage in
    Ret [Print message; PostToSlack formattedMessage slackWebhookURL]
  else Ret [Print message].

Arguments handleMessage h message%_string ircConn%_nat slackWebhookURL%_string.

(** ** The identity cache (getUserDisplayName, translateMentions) *)

(** A [time.Time] is a number of nanoseconds; so is a [time.Duration]. *)
Definition Hour : Z := 3600 * 1000000000.

Record UserCache : Type := {
  displayName : string;
  expiration : Z
}.

Definition cacheDuration : Z := 1 * Hour.

(** The decoded body of a users.info answer. *)
Record SlackUserInfo : Type := {
  Ok : bool;
  DisplayName : string;
  RealName : string
}.

(** How a users.info request ends. *)
Inductive Fetched : Type :=
| DoError                          (* http.DefaultClient.Do fails *)
| DecodeError                      (* the body is not the expected JSON *)
| Decoded (userInfo : SlackUserInfo).

(** The environment of the process: whether net/http accepts a URL,
    what a users.info request sent at a given time comes back with and how
    long it takes, and whether a write on a connection at a given time
    fails. *)
Record Env : Type := {
  NewRequest_ok : string -> bool;
  Do : Z -> string -> Z * Fetched;
  WriteFails : Z -> Conn -> bool
}.

(** The clock read by [time.Now()] and the global [userCache]. *)
Record CacheSt : Type := {
  clock : Z;
  userCache : gmap string UserCache
}.

(** The URL of the users.info request for a user ID. *)
Definition usersInfoURL (userID : string) : string :=
  "https://slack.com/api/users.info?user=" +:+ userID.

(** The guarded read at the top of getUserDisplayName. *)
Definition cached (st : CacheSt) (userID : string) : option string :=
  match userCache st !! userID with
  | Some cache =>
      if clock st <? expiration cache then Some (displayName cache) else None
  | None => None
  end.

Definition getUserDisplayName (env : Env) (userID : string) (config : Config)
    (st : CacheSt) : string * CacheSt * list Effect :=
  match cached st userID with
  | Some name => (name, st, [])
  | None =>
      let url := usersInfoURL userID in
      if negb (NewRequest_ok env url) then
        (userID, st, [Log "Error creating request: %v"])
      else
        let get := HttpGet url (Slack_APIToken config) in
        let '(elapsed, resp) := Do env (clock st) url in
        let st := {| clock := clock st + elapsed; userCache := userCache st |} in
        match resp with
        | DoError => (userID, st, [get; Log "Error fetching user info: %v"])
        | DecodeError => (userID, st, [get; Log "Error decoding user info: %v"])
        | Decoded userInfo =>
            if negb (Ok userInfo) then
              (userID, st, [get; Log ("Error from Slack API for user " +:+ userID)])
            else
              let name := DisplayName userInfo in
              let name := if String.eqb name "" then RealName userInfo else name in
              let name := if String.eqb name "" then userID else name in
              let entry := {| displayName := name;
                              expiration := clock st + cacheDuration |} in
              (name,
               {| clock := clock st; userCache := <[userID := entry]> (userCache st) |},
               [get])
        end
  end.

(** The number of users.info requests among some effects. *)
Definition lookups (effects : list Effect) : nat :=
  List.length (List.filter (fun e => match e with HttpGet _ _ => true | _ => false end) effects).

(** [mentionRegex], [<@(U[A-Z0-9]+)>]: a match at the head of [s], as the
    captured user ID and the text after the match.  The repetition is
    greedy and cannot give back a [>]. *)
Definition is_id_byte (c : ascii) : bool := in_range 65 90 c || in_range 48 57 c.

Fixpoint span_id (s : string) : string * string :=
  match s with
  | String c s' =>
      if is_id_byte c then let '(id, rest) := span_id s' in (String c id, rest)
      else (EmptyString, s)
  | EmptyString => (EmptyString, EmptyString)
  end.

Definition match_mention (s : string) : option (string * string) :=
  match s with
  | String "<" (String "@" (String "U" s')) =>
      match span_id s' with
      | (String c id, String ">" rest) => Some (String "U" (String c id), rest)
      | _ => None
      end
  | _ => None
  end.

(** [mentionRegex.ReplaceAllStringFunc]: matches are taken left to right
    without overlap and the callback runs once per match, in order. *)
Fixpoint replaceMentions (fuel : nat) (env : Env) (text : string)
    (config : Config) (st : CacheSt) : string * CacheSt * list Effect :=
  match fuel with
  | O => (text, st, [])
  | S fuel' =>
      match match_mention text with
      | Some (userID, rest) =>
          let '(name, st1, e1) := getUserDisplayName env userID config st in
          let '(out, st2, e2) := replaceMentions fuel' env rest config st1 in
          ("@" +:+ name +:+ out, st2, e1 ++ e2)
      | None =>
          match text with
          | EmptyString => (EmptyString, st, [])
          | String c text' =>
              let '(out, st2, e2) := replaceMentions fuel' env text' config st in
              (String c out, st2, e2)
          end
      end
  end.

Definition translateMentions (env : Env) (text : string) (config : Config)
    (st : CacheSt) : string * CacheSt * list Effect :=
  replaceMentions (String.length text) env text config st.

(** ** The inbound webhook (shouldProcessMessage, createWebhookHandler) *)

Record SlackEvent : Type := {
  Type_ : string;
  Challenge : string;
  Event_Type : string;
  Event_User : string;
  Event_Text : string;
  Event_Channel : string;
  Event_BotID : string;
  Event_Subtype : string
}.

Fixpoint ignored (user : string) (ignoreUsers : list string) : bool :=
  match ignoreUsers with
  | [] => false
  | ignoredUser :: ignoreUsers' =>
      if String.eqb user ignoredUser then true else ignored user ignoreUsers'
  end.

Definition shouldProcessMessage (event : SlackEvent) (config : Config) : bool :=
  if negb (String.eqb (Event_Subtype event) "") then false
  else if Slack_IgnoreBots config && negb (String.eqb (Event_BotID event) "") then false
  else if ignored (Event_User event) (Slack_IgnoreUsers config) then false
  else true.

(** An [http.ResponseWriter]: the status line once it is written, and the
    body written so far.  A first [Write] without a status writes 200, and
    so does a handler that returns without writing anything. *)
Record ResponseWriter : Type := {
  wroteHeader : option Z;
  written : string
}.

Definition newResponse : ResponseWriter := {| wroteHeader := None; written := "" |}.

Definition WriteHeader (code : Z) (w : ResponseWriter) : ResponseWriter :=
  match wroteHeader w with
  | Some _ => w
  | None => {| wroteHeader := Some code; written := written w |}
  end.

Definition Write (bytes : string) (w : ResponseWriter) : ResponseWriter :=
  let w := WriteHeader 200 w in
  {| wroteHeader := wroteHeader w; written := written w +:+ bytes |}.

(** [http.Error(w, error, code)]: the status, then the text and a newline. *)
Definition Error (w : ResponseWriter) (error : string) (code : Z) : ResponseWriter :=
  Write (error +:+ String LF "") (WriteHeader code w).

(** The status and body the client receives. *)
Definition StatusCode (w : ResponseWriter) : Z :=
  match wroteHeader w with
  | Some code => code
  | None => 200
  end.

Definition StatusOK : Z := 200.
Definition StatusBadRequest : Z := 400.
Definition StatusMethodNotAllowed : Z := 405.
Definition StatusInternalServerError : Z := 500.

(** A request as the handler sees it: its method, and what decoding its
    body as a [SlackEvent] gives ([None] when the decoder reports an
    error). *)
Record Request : Type := {
  Method : string;
  Body : option SlackEvent
}.

(** [createWebhookHandler(ircConn)] applied to a request: the closure it
    returns, run once. *)
Definition createWebhookHandler (env : Env) (h : Heap) (ircConn : Ptr) (r : Request)
    (st : CacheSt) : Result (ResponseWriter * CacheSt * list Effect) :=
  let w := newResponse in
  if negb (String.eqb (Method r) "POST") then
    Ret (Error w "Method not allowed" StatusMethodNotAllowed, st, [])
  else
    match Body r with
    | None =>
        Ret (Error w "Bad request" StatusBadRequest, st,
             [Log "Error decoding webhook payload: %v"])
    | Some event =>
        if String.eqb (Type_ event) "url_verification" then
          Ret (Write (Challenge event) w, st, [])
        else if String.eqb (Type_ event) "event_callback"
                && String.eqb (Event_Type event) "message" then
          do ic <- deref h ircConn;
          if negb (shouldProcessMessage event (config ic)) then
            Ret (WriteHeader StatusOK w, st, [])
          else
            let '(name, st1, e1) :=
              getUserDisplayName env (Event_User event) (config ic) st in
            let '(translatedText, st2, e2) :=
              translateMentions env (Event_Text event) (config ic) st1 in
            let ircMessage :=
              "PRIVMSG " +:+ IRC_Channel (config ic) +:+ " :<" +:+ name +:+ "> "
                +:+ translatedText +:+ CRLF in
            let write :=
              [Lock ircConn; ConnWrite (conn ic) (Sprintf ircMessage); Unlock ircConn] in
            if WriteFails env (clock st2) (conn ic) then
              Ret (Error w "Internal server error" StatusInternalServerError, st2,
                   e1 ++ e2 ++ write ++ [Log "Error sending message to IRC: %v"])
            else
              Ret (Write "ok" (WriteHeader StatusOK w), st2, e1 ++ e2 ++ write)
        else
          Ret (Write "ok" (WriteHeader StatusOK w), st, [])
    end.

Arguments createWebhookHandler env h ircConn%_nat r st.

(** ** The session manager (main, manageIRCConnection)

    The process is driven by what its blocking calls return: a dial, a
    line read, a webhook request handed over by the HTTP server, or time
    passing.  [World] holds the variables of [manageIRCConnection], the
    pointer [main] received on [connectionReady] and closed the handler
    over, the heap, the cache and the effects performed so far (oldest
    first). *)

Inductive Phase : Type :=
| Dialing                (* blocked in net.Dial *)
| Reading (c : Conn)     (* blocked in reader.ReadString on c *)
| Exited                 (* log.Fatalf ended the process *)
| Crashed.               (* an unrecovered panic ended the process *)

Record World : Type := {
  cache : CacheSt;
  heap : Heap;
  ircConn : option Ptr;        (* var ircConn *IRCConnection; None is nil *)
  firstConnection : bool;
  phase : Phase;
  handler : option Ptr;        (* the ircConn of createWebhookHandler(ircConn) *)
  trace : list Effect
}.

Inductive Event : Type :=
| Dialed (r : option Conn)     (* net.Dial returns a connection or an error *)
| Line (r : option string)     (* ReadString returns a line or an error *)
| Serve (r : Request)          (* a request to /webhook *)
| Tick (d : Z).                (* d nanoseconds pass *)

Definition start (config : Config) (t0 : Z) : World :=
  {| cache := {| clock := t0; userCache := ∅ |};
     heap := [];
     ircConn := None;
     firstConnection := true;
     phase := Dialing;
     handler := None;
     trace := [Dial (IRC_Server config)] |}.

(** The body of the outer loop from the return of [net.Dial] up to the
    next blocking call.  The first connection is sent on [connectionReady];
    [main], which was waiting for it, logs and registers the handler built
    from it. *)
Definition dialed (config : Config) (r : option Conn) (w : World) : World :=
  match r with
  | None =>
      if firstConnection w then
        {| cache := cache w; heap := heap w; ircConn := ircConn w;
           firstConnection := firstConnection w;
           phase := Exited;
           handler := handler w;
           trace := trace w ++ [Log "Failed to connect to IRC server: %v";
                                Fatal "Failed to establish initial IRC connection"] |}
      else
        {| cache := cache w; heap := heap w; ircConn := ircConn w;
           firstConnection := firstConnection w;
           phase := Dialing;
           handler := handler w;
           trace := trace w ++ [Log "Failed to connect to IRC server: %v";
                                Dial (IRC_Server config)] |}
  | Some c =>
      let p := List.length (heap w) in
      let nick := IRC_Nickname config in
      let register :=
        [ConnWrite c ("NICK " +:+ nick +:+ CRLF);
         ConnWrite c ("USER " +:+ nick +:+ " 8 * :" +:+ nick +:+ CRLF);
         ConnWrite c ("JOIN " +:+ IRC_Channel config +:+ CRLF)] in
      {| cache := cache w;
         heap := heap w ++ [{| conn := c; config := config |}];
         ircConn := Some p;
         firstConnection := false;
         phase := Reading c;
         handler := if firstConnection w then Some p else handler w;
         trace := trace w ++ register
                    ++ (if firstConnection w
                        then [Ready p; Log "Starting Slack webhook listener on %s"]
                        else []) |}
  end.

(** The body of the inner loop from the return of [ReadString]. *)
Definition readLine (config : Config) (r : option string) (w : World) : World :=
  match r with
  | Some message =>
      match ircConn w with
      | Some p =>
          match handleMessage (heap w) message p (Slack_WebhookURL config) with
          | Ret effects =>
              {| cache := cache w; heap := heap w; ircConn := ircConn w;
                 firstConnection := firstConnection w;
                 phase := phase w;
                 handler := handler w;
                 trace := trace w ++ effects |}
          | Panic =>
              {| cache := cache w; heap := heap w; ircConn := ircConn w;
                 firstConnection := firstConnection w;
                 phase := Crashed;
                 handler := handler w;
                 trace := trace w ++ [Print message] |}
          end
      | None => w
      end
  | None =>
      {| cache := cache w; heap := heap w; ircConn := ircConn w;
         firstConnection := firstConnection w;
         phase := Dialing;
         handler := handler w;
         trace := trace w ++ [Log "Error reading from IRC: %v";
                              Log "IRC connection lost, reconnecting...";
                              Dial (IRC_Server config)] |}
  end.

(** One request served by the registered handler. *)
Definition serve (env : Env) (r : Request) (w : World) : option (ResponseWriter * World) :=
  match handler w with
  | Some p =>
      match createWebhookHandler env (heap w) p r (cache w) with
      | Ret (resp, st, effects) =>
          Some (resp,
                {| cache := st; heap := heap w; ircConn := ircConn w;
                   firstConnection := firstConnection w;
                   phase := phase w;
                   handler := handler w;
                   trace := trace w ++ effects |})
      | Panic => None
      end
  | None => None
  end.

(** [manageIRCConnection] resumed by the return of the call it is blocked
    in; [None] when it is not blocked in that call. *)
Definition manageIRCConnection (config : Config) (e : Event) (w : World) : option World :=
  match e, phase w with
  | Dialed r, Dialing => Some (dialed config r w)
  | Line r, Reading _ => Some (readLine config r w)
  | _, _ => None
  end.

(** The clock moves on by [d]. *)
Definition tick (d : Z) (w : World) : World :=
  {| cache := {| clock := clock (cache w) + d; userCache := userCache (cache w) |};
     heap := heap w; ircConn := ircConn w;
     firstConnection := firstConnection w;
     phase := phase w;
     handler := handler w;
     trace := trace w |}.

(** One event; [None] when the process is not waiting for it. *)
Definition step (env : Env) (config : Config) (e : Event) (w : World) : option World :=
  match e, phase w with
  | (Dialed _ | Line _), _ => manageIRCConnection config e w
  | Serve r, (Dialing | Reading _) => option_map snd (serve env r w)
  | Tick d, (Dialing | Reading _) => if 0 <=? d then Some (tick d w) else None
  | _, _ => None
  end.

Fixpoint run (env : Env) (config : Config) (events : list Event) (w : World) : option World :=
  match events with
  | [] => Some w
  | e :: events' =>
      match step env config e w with
      | Some w' => run env config events' w'
      | None => None
      end
  end.

(** The connection a relayed line goes to, and the connection the session
    manager currently reads from and answers PING on. *)
Definition handlerConn (w : World) : option Conn :=
  match handler w with
  | Some p => option_map conn (heap w !! p)
  | None => None
  end.

Definition currentConn (w : World) : option Conn :=
  match ircConn w with
  | Some p => option_map conn (heap w !! p)
  | None => None
  end.

(** Whether every dial but the first directly follows a sleep of [d]. *)
Fixpoint delayedRetries (d : Z) (effects : list Effect) : bool :=
  match effects with
  | e :: ((Dial _ :: _) as rest) =>
      match e with
      | Sleep d' => (d' =? d) && delayedRetries d rest
      | _ => false
      end
  | _ :: rest => delayedRetries d rest
  | [] => true
  end.

(** The number of dial attempts among some effects. *)
Definition dials (effects : list Effect) : nat :=
  List.length (List.filter (fun e => match e with Dial _ => true | _ => false end) effects).

Definition sleeps (effects : list Effect) : nat :=
  List.length (List.filter (fun e => match e with Sleep _ => true | _ => false end) effects).

(** ** Guarded writes under interleaving

    Every webhook request runs [ircConn.mutex.Lock()], one [Fprintf] on
    [ircConn.conn] and [ircConn.mutex.Unlock()] on the one struct the
    handler closed over, and so does the read loop on its own struct when
    it answers a PING.  The writers below are those that share one struct;
    a scheduler picks which writer moves next.  A write is taken at its
    finest grain, a byte at a time, and may fail at any byte; once the
    connection has failed it accepts nothing more. *)

Inductive Pc : Type :=
| AtLock                    (* before mutex.Lock() *)
| InWrite (rest : string)   (* inside Fprintf, [rest] still to be written *)
| AtUnlock                  (* Fprintf has returned *)
| Finished.                 (* after mutex.Unlock() *)

Record Writer : Type := {
  line : string;            (* the bytes its Fprintf call emits *)
  pc : Pc
}.

(** The mutex records which writer holds it (Go's only records that it is
    held), the bytes the connection has accepted, and whether it failed. *)
Record Session : Type := {
  mutex : option nat;
  wire : string;
  broken : bool;
  writers : list Writer
}.

Definition spawn (ircMessage : string) : Writer :=
  {| line := Sprintf ircMessage; pc := AtLock |}.

Definition session (ircMessages : list string) : Session :=
  {| mutex := None; wire := ""; broken := false;
     writers := List.map spawn ircMessages |}.

(** Writer [i] moves, if it can; [fail] is whether the connection fails
    under it now. *)
Definition move (i : nat) (fail : bool) (s : Session) : Session :=
  match writers s !! i with
  | None => s
  | Some w =>
      match pc w with
      | AtLock =>
          match mutex s with
          | Some _ => s
          | None =>
              {| mutex := Some i; wire := wire s; broken := broken s;
                 writers := <[i := {| line := line w; pc := InWrite (line w) |}]> (writers s) |}
          end
      | InWrite rest =>
          if broken s || fail then
            {| mutex := mutex s; wire := wire s; broken := true;
               writers := <[i := {| line := line w; pc := AtUnlock |}]> (writers s) |}
          else
            match rest with
            | EmptyString =>
                {| mutex := mutex s; wire := wire s; broken := broken s;
                   writers := <[i := {| line := line w; pc := AtUnlock |}]> (writers s) |}
            | String c rest' =>
                {| mutex := mutex s; wire := wire s +:+ String c ""; broken := broken s;
                   writers := <[i := {| line := line w; pc := InWrite rest' |}]> (writers s) |}
            end
      | AtUnlock =>
          {| mutex := None; wire := wire s; broken := broken s;
             writers := <[i := {| line := line w; pc := Finished |}]> (writers s) |}
      | Finished => s
      end
  end.

Fixpoint schedule (moves : list (nat * bool)) (s : Session) : Session :=
  match moves with
  | [] => s
  | (i, fail) :: moves' => schedule moves' (move i fail s)
  end.

(** The bytes of some lines, one after the other. *)
Fixpoint flatten (lines : list string) : string :=
  match lines with
  | [] => ""
  | l :: lines' => l +:+ flatten lines'
  end.

(** ** Notions used to state the properties *)

(** The branch [handleMessage] takes on a line. *)
Inductive Category : Type :=
| IsPing | IsJoin | IsPart | IsAction | IsPrivmsg | IsIgnored.

Definition classify (message : string) : Category :=
  if HasPrefix message "PING" then IsPing
  else if Contains message "JOIN" then IsJoin
  else if Contains message "PART" then IsPart
  else if Contains message "PRIVMSG" && Contains message "ACTION" then IsAction
  else if Contains message "PRIVMSG" then IsPrivmsg
  else IsIgnored.

(** The messages handed to [postToSlack] among some effects. *)
Fixpoint forwarded (effects : list Effect) : list string :=
  match effects with
  | [] => []
  | PostToSlack message _ :: effects' => message :: forwarded effects'
  | _ :: effects' => forwarded effects'
  end.

(** The bytes written to connection [c] among some effects. *)
Fixpoint writtenTo (c : Conn) (effects : list Effect) : list string :=
  match effects with
  | [] => []
  | ConnWrite c' bytes :: effects' =>
      if Nat.eqb c c' then bytes :: writtenTo c effects' else writtenTo c effects'
  | _ :: effects' => writtenTo c effects'
  end.

Arguments writtenTo c%_nat effects.

(** Whether the last byte of a string is a carriage return or a line feed. *)
Fixpoint ends_with_eol (s : string) : bool :=
  match s with
  | EmptyString => false
  | String c EmptyString => mem_byte c CRLF
  | String _ s' => ends_with_eol s'
  end.

(** A line of the shape [:nick!user@host PRIVMSG #chan :text\r\n]. *)
Definition privmsgLine (nick user host chan text : string) : string :=
  ":" +:+ nick +:+ "!" +:+ user +:+ "@" +:+ host +:+ " PRIVMSG #" +:+ chan
    +:+ " :" +:+ text +:+ CRLF.

(** The command of an IRC line as the protocol has it, the word the
    spec's Line Codec classifies a line by: the word after the optional
    [:prefix] and its space.  It follows the protocol's grammar and is not
    taken from the source, whose tests it is compared with. *)
Definition spec_command (line : string) : string :=
  let afterPrefix :=
    match line with
    | String ":" _ =>
        match index_of line " " with
        | Some n => drop (S n) line
        | None => ""
        end
    | _ => line
    end in
  match index_of afterPrefix " " with
  | Some n => take n afterPrefix
  | None => TrimRight afterPrefix CRLF
  end.

(** The configuration printed by [printSampleConfig]. *)
Definition sampleConfig : Config :=
  {| IRC_Server := "irc.oftc.net:6667";
     IRC_Channel := "#yourchannel";
     IRC_Nickname := "slackbridge";
     Slack_WebhookURL := "https://hooks.slack.com/services/T/B/X";
     Slack_ListenAddress := ":3000";
     Slack_APIToken := "xoxb-token";
     Slack_IgnoreBots := true;
     Slack_IgnoreUsers := [] |}.

(** An environment in which requests can be built, users.info cannot be
    reached and writes succeed. *)
Definition offline : Env :=
  {| NewRequest_ok := fun _ => true;
     Do := fun _ _ => (0, DoError);
     WriteFails := fun _ _ => false |}.

(** An environment in which users.info answers after a quarter of a
    second with the profile of alice. *)
Definition online : Env :=
  {| NewRequest_ok := fun _ => true;
     Do := fun _ _ =>
             (250000000,
              Decoded {| Ok := true; DisplayName := "alice"; RealName := "Alice A" |});
     WriteFails := fun _ _ => false |}.

(** The status and body a handler run answers with. *)
Definition response (r : Result (ResponseWriter * CacheSt * list Effect)) : option (Z * string) :=
  match r with
  | Ret (w, _, _) => Some (StatusCode w, written w)
  | Panic => None
  end.

(** The envelope of a message event. *)
Definition messageEvent (user text subtype bot_id : string) : SlackEvent :=
  {| Type_ := "event_callback"; Challenge := "";
     Event_Type := "message"; Event_User := user; Event_Text := text;
     Event_Channel := "C0123"; Event_BotID := bot_id; Event_Subtype := subtype |}.

Definition post (event : SlackEvent) : Request :=
  {| Method := "POST"; Body := Some event |}.

(** What holds of the pointers in every world the process reaches: before
    the first connection there is no struct and no handler; from then on
    the handler holds the first struct and the session manager the last. *)
Definition pointers (w : World) : Prop :=
  (firstConnection w = true /\ heap w = [] /\ handler w = None /\ ircConn w = None)
  \/ (firstConnection w = false /\ heap w <> [] /\ handler w = Some 0%nat
      /\ ircConn w = Some (List.length (heap w) - 1)%nat).

(** The manager only reads from a connection once one has been made. *)
Definition connected (w : World) : Prop :=
  forall c, phase w = Reading c -> firstConnection w = false.

(** A writer is in its critical section from the return of [Lock] to
    its [Unlock]. *)
Definition inCritical (w : Writer) : bool :=
  match pc w with
  | InWrite _ | AtUnlock => true
  | AtLock | Finished => false
  end.

(** Only the holder of the mutex is in its critical section. *)
Definition exclusive (s : Session) : Prop :=
  forall i w, writers s !! i = Some w -> inCritical w = true -> mutex s = Some i.

(** The wire is a run of whole lines followed by [partial], which is
    empty when no write is under way, the part already written of the
    line of the writer inside [Fprintf], or the part of a line that got
    through before the connection failed. *)
Definition lineFramed (lines : list string) (s : Session)
    (whole : list string) (partial : string) : Prop :=
  wire s = flatten whole +:+ partial
  /\ List.Forall (fun l => List.In l lines) whole
  /\ ((broken s = false /\ partial = ""
       /\ forall i w rest, writers s !! i = Some w -> pc w <> InWrite rest)
      \/ (broken s = false
          /\ exists i w rest, writers s !! i = Some w /\ pc w = InWrite rest
                              /\ line w = partial +:+ rest)
      \/ (broken s = true
          /\ exists l rest, List.In l lines /\ l = partial +:+ rest)).

Definition framed (lines : list string) (s : Session) : Prop :=
  List.map line (writers s) = lines
  /\ exclusive s
  /\ exists whole partial, lineFramed lines s whole partial.

(** ** Further notions *)

(** Whether every write among some effects sits between a [Lock] and an
    [Unlock] of one struct of the heap, the struct whose connection is
    written to. *)
Fixpoint guardedBy (h : Heap) (effects : list Effect) : bool :=
  match effects with
  | [] => true
  | Lock p :: ConnWrite c _ :: Unlock q :: rest =>
      Nat.eqb p q
      && match h !! p with
         | Some ic => Nat.eqb (conn ic) c
         | None => false
         end
      && guardedBy h rest
  | ConnWrite _ _ :: _ => false
  | _ :: rest => guardedBy h rest
  end.

(** Effects that only talk to the users.info API or to the log. *)
Definition quiet (effects : list Effect) : bool :=
  List.forallb (fun e => match e with HttpGet _ _ | Log _ => true | _ => false end) effects.

(** The number of sends on [connectionReady] among some effects. *)
Definition readies (effects : list Effect) : nat :=
  List.length (List.filter (fun e => match e with Ready _ => true | _ => false end) effects).

(** The number of writes, on any connection, among some effects. *)
Definition writes (effects : list Effect) : nat :=
  List.length (List.filter (fun e => match e with ConnWrite _ _ => true | _ => false end) effects).

(** Every entry of the cache expires within [cacheDuration] of now. *)
Definition boundedExpiry (st : CacheSt) : Prop :=
  forall userID cache,
    userCache st !! userID = Some cache -> expiration cache <= clock st + cacheDuration.

(** No users.info request takes a negative time. *)
Definition punctual (env : Env) : Prop :=
  forall t url, 0 <= (Do env t url).1.

(** The manager reads from the connection of the struct it holds. *)
Definition readsCurrent (w : World) : Prop :=
  forall c, phase w = Reading c ->
    exists p ic, ircConn w = Some p /\ heap w !! p = Some ic /\ conn ic = c.

(** The argument list [daemonizeProcess] rebuilds from [os.Args]: the
    arguments after the program name, without any that is exactly [-d]. *)
Fixpoint withoutDaemonFlag (args : list string) : list string :=
  match args with
  | [] => []
  | arg :: args' =>
      if negb (String.eqb arg "-d") then arg :: withoutDaemonFlag args'
      else withoutDaemonFlag args'
  end.

Definition daemonArgs (osArgs : list string) : Result (list string) :=
  match osArgs with
  | [] => Panic                                  (* os.Args[1:] of an empty slice *)
  | _ :: args => Ret (withoutDaemonFlag args)
  end.

(** The lines of the writers that are past their [Fprintf]. *)
Definition pastWrite (w : Writer) : bool :=
  match pc w with
  | AtUnlock | Finished => true
  | AtLock | InWrite _ => false
  end.

Definition writtenLines (s : Session) : list string :=
  List.map line (List.filter pastWrite (writers s)).

(** Whether every byte of a string can stand in a user ID after its
    leading U: a capital letter or a digit. *)
Fixpoint idBytes (s : string) : bool :=
  match s with
  | EmptyString => true
  | String c s' => is_id_byte c && idBytes s'
  end.

(** How the identity cache may differ between two moments: time has not
    gone back, and each entry is either as it was or was stored in between,
    to expire [cacheDuration] after it was stored. *)
Definition refreshes (st st' : CacheSt) : Prop :=
  clock st <= clock st'
  /\ forall userID,
       userCache st' !! userID = userCache st !! userID
       \/ exists name t,
            clock st <= t <= clock st'
            /\ userCache st' !! userID
               = Some {| displayName := name; expiration := t + cacheDuration |}.

(** On a connection that has not failed, the wire holds the line of every
    writer that is past its [Fprintf], each once and in some order,
    followed by the part already written of the line of the writer inside
    [Fprintf], if there is one. *)
Definition delivered (s : Session) : Prop :=
  broken s = false ->
  exists whole partial,
    wire s = flatten whole +:+ partial
    /\ Permutation whole (writtenLines s)
    /\ ((partial = ""
         /\ forall i w rest, writers s !! i = Some w -> pc w <> InWrite rest)
        \/ exists i w rest, writers s !! i = Some w /\ pc w = InWrite rest
                            /\ line w = partial +:+ rest).

(** * Properties *)

(** ** Byte strings *)

Lemma length_append (a b : string) :
  String.length (a +:+ b) = (String.length a + String.length b)%nat.
Proof. induction a as [|c a IH]; cbn; [reflexivity | now rewrite IH]. Qed.

Lemma drop_append (a b : string) : drop (String.length a) (a +:+ b) = b.
Proof. induction a as [|c a IH]; cbn; auto. Qed.

Lemma take_append (a b : string) : take (String.length a) (a +:+ b) = a.
Proof. induction a as [|c a IH]; cbn; [reflexivity | now rewrite IH]. Qed.

Lemma drop_all (s : string) : drop (String.length s) s = "".
Proof. induction s; cbn; auto. Qed.

Lemma take_all (s : string) : take (String.length s) s = s.
Proof. induction s as [|c s IH]; cbn; [reflexivity | now rewrite IH]. Qed.

Lemma append_assoc (a b c : string) : (a +:+ b) +:+ c = a +:+ (b +:+ c).
Proof. induction a as [|x a IH]; cbn; [reflexivity | now rewrite IH]. Qed.

Lemma append_empty_r (a : string) : a +:+ "" = a.
Proof. induction a as [|x a IH]; cbn; [reflexivity | now rewrite IH]. Qed.

Lemma mem_byte_append (c : ascii) (a b : string) :
  mem_byte c (a +:+ b) = mem_byte c a || mem_byte c b.
Proof.
  induction a as [|x a IH]; cbn; [reflexivity|].
  rewrite IH. now rewrite orb_assoc.
Qed.

Lemma prefix_append (sep b : string) : String.prefix sep (sep +:+ b) = true.
Proof.
  induction sep as [|c sep IH]; cbn; [now destruct b|].
  destruct (ascii_dec c c) as [_|n]; [exact IH | contradiction].
Qed.

Lemma prefix_length (sep s : string) :
  String.prefix sep s = true -> (String.length sep <= String.length s)%nat.
Proof.
  revert s. induction sep as [|c sep IH]; intros s H; [simpl; lia|].
  destruct s as [|d s]; simpl in H; [discriminate|].
  destruct (ascii_dec c d); [|discriminate].
  apply IH in H. simpl. lia.
Qed.

(** An occurrence found by [index_of] lies inside the string. *)
Lemma index_of_eq (s sep : string) :
  index_of s sep =
  if String.prefix sep s then Some O
  else match s with
       | EmptyString => None
       | String _ s' => option_map S (index_of s' sep)
       end.
Proof. destruct s; reflexivity. Qed.

(** An occurrence found by [index_of] lies inside the string. *)
Lemma index_of_bound (s sep : string) (n : nat) :
  index_of s sep = Some n -> (n + String.length sep <= String.length s)%nat.
Proof.
  revert n. induction s as [|c s IH]; intros n; rewrite index_of_eq;
    destruct (String.prefix sep _) eqn:P.
  - intros [= <-]. apply prefix_length in P. lia.
  - discriminate.
  - intros [= <-]. apply prefix_length in P. lia.
  - destruct (index_of s sep) as [m|]; simpl; [|discriminate].
    intros [= <-]. specialize (IH m eq_refl). lia.
Qed.

(** The first occurrence of [sep] is right after any text that lacks the
    first byte of [sep]. *)
Lemma index_of_skip (a b sep' : string) (c : ascii) :
  mem_byte c a = false ->
  index_of (a +:+ String c sep' +:+ b) (String c sep') = Some (String.length a).
Proof.
  intros H. induction a as [|x a IH]; rewrite index_of_eq.
  - change ("" +:+ String c sep' +:+ b) with (String c sep' +:+ b).
    now rewrite prefix_append.
  - simpl in H. apply orb_false_elim in H as [Hx Ha].
    specialize (IH Ha). cbn [String.append String.prefix] in IH |- *.
    destruct (ascii_dec c x) as [->|_].
    + rewrite Ascii.eqb_refl in Hx. discriminate.
    + rewrite IH. reflexivity.
Qed.

Lemma Index_skip (a b sep' : string) (c : ascii) :
  mem_byte c a = false ->
  Index (a +:+ String c sep' +:+ b) (String c sep') = len a.
Proof. intros H. unfold Index. now rewrite index_of_skip. Qed.

Lemma slice_from_append (a b : string) : slice_from (a +:+ b) (len a) = Ret b.
Proof.
  unfold slice_from, slice, len. rewrite length_append.
  replace ((0 <=? Z.of_nat (String.length a))
           && (Z.of_nat (String.length a) <=? Z.of_nat (String.length a + String.length b))
           && (Z.of_nat (String.length a + String.length b)
               <=? Z.of_nat (String.length a + String.length b))) with true
    by (symmetry; rewrite !andb_true_iff, !Z.leb_le; lia).
  rewrite Nat2Z.id, drop_append.
  replace (Z.to_nat (Z.of_nat (String.length a + String.length b)
                     - Z.of_nat (String.length a))) with (String.length b) by lia.
  now rewrite take_all.
Qed.

Lemma slice_append (a b c : string) :
  slice (a +:+ b +:+ c) (len a) (len a + len b) = Ret b.
Proof.
  unfold slice, len. rewrite !length_append.
  replace ((0 <=? Z.of_nat (String.length a))
           && (Z.of_nat (String.length a)
               <=? Z.of_nat (String.length a) + Z.of_nat (String.length b))
           && (Z.of_nat (String.length a) + Z.of_nat (String.length b)
               <=? Z.of_nat (String.length a + (String.length b + String.length c))))
    with true by (symmetry; rewrite !andb_true_iff, !Z.leb_le; lia).
  rewrite Nat2Z.id, drop_append.
  replace (Z.to_nat (Z.of_nat (String.length a) + Z.of_nat (String.length b)
                     - Z.of_nat (String.length a))) with (String.length b) by lia.
  now rewrite take_append.
Qed.

Lemma TrimRight_eol (text : string) :
  TrimRight (text +:+ CRLF) CRLF = TrimRight text CRLF.
Proof.
  induction text as [|c text IH]; [reflexivity|].
  cbn [String.append TrimRight]. now rewrite IH.
Qed.

(** Text that does not end in a line terminator is left as it is. *)
Lemma TrimRight_id (s : string) : ends_with_eol s = false -> TrimRight s CRLF = s.
Proof.
  induction s as [|c s IH]; intros He; [reflexivity|].
  cbn [TrimRight]. destruct s as [|d s].
  - simpl in *. now rewrite He.
  - rewrite (IH He). reflexivity.
Qed.

Lemma len_append (a b : string) : len (a +:+ b) = len a + len b.
Proof. unfold len. rewrite length_append. lia. Qed.

Lemma len_nonneg (s : string) : 0 <= len s.
Proof. unfold len. lia. Qed.

Lemma Index_none (s sep : string) : Contains s sep = false -> Index s sep = -1.
Proof.
  unfold Contains, Index. destruct (index_of s sep); [|reflexivity].
  intros H. apply Z.leb_gt in H. lia.
Qed.

(** ** The line codec *)

Lemma extractNickname_shape (x : ascii) (nick rest : string) :
  x <> "!"%char -> mem_byte "!" nick = false ->
  extractNickname (String x nick +:+ "!" +:+ rest) = Ret nick.
Proof.
  intros Hx Hn. unfold extractNickname.
  assert (Hm : mem_byte "!" (String x nick) = false).
  { cbn [mem_byte]. rewrite Hn, orb_false_r. apply Ascii.eqb_neq. congruence. }
  rewrite (Index_skip (String x nick) rest "" "!" Hm).
  pose proof (len_nonneg (String x nick)) as Hl.
  destruct (len (String x nick) =? -1) eqn:E; [apply Z.eqb_eq in E; lia|].
  change (String x nick +:+ "!" +:+ rest)
    with (String x "" +:+ nick +:+ ("!" +:+ rest)).
  replace (len (String x nick)) with (len (String x "") + len nick)
    by (unfold len; simpl; lia).
  apply slice_append.
Qed.

Lemma extractIRCMessage_shape (a target text : string) :
  mem_byte " " a = false -> mem_byte " " target = false ->
  extractIRCMessage (a +:+ " PRIVMSG " +:+ target +:+ " :" +:+ text)
  = Ret (TrimRight text CRLF).
Proof.
  intros Ha Ht. unfold extractIRCMessage.
  rewrite (Index_skip a (target +:+ " :" +:+ text) "PRIVMSG " " " Ha).
  pose proof (len_nonneg a) as Hl.
  destruct (len a =? -1) eqn:E; [apply Z.eqb_eq in E; lia|].
  rewrite <- len_append, <- append_assoc, slice_from_append. cbn [bind].
  rewrite (Index_skip target text ":" " " Ht).
  pose proof (len_nonneg target) as Hl'.
  destruct (len target =? -1) eqn:E'; [apply Z.eqb_eq in E'; lia|].
  change 2 with (len " :"). rewrite <- len_append, <- append_assoc.
  rewrite slice_from_append. reflexivity.
Qed.

Lemma extractIRCMessage_no_command (message : string) :
  Contains message " PRIVMSG " = false -> extractIRCMessage message = Ret "".
Proof. intros H. unfold extractIRCMessage. now rewrite (Index_none _ _ H). Qed.

Lemma extractIRCMessage_no_trailing (a rest : string) :
  mem_byte " " a = false -> Contains rest " :" = false ->
  extractIRCMessage (a +:+ " PRIVMSG " +:+ rest) = Ret "".
Proof.
  intros Ha Hr. unfold extractIRCMessage.
  rewrite (Index_skip a rest "PRIVMSG " " " Ha).
  pose proof (len_nonneg a) as Hl.
  destruct (len a =? -1) eqn:E; [apply Z.eqb_eq in E; lia|].
  rewrite <- len_append, <- append_assoc, slice_from_append. cbn [bind].
  now rewrite (Index_none _ _ Hr).
Qed.

(** extractIRCMessage never panics: both slices start at an offset that
    [strings.Index] found inside the string. *)
Lemma extractIRCMessage_total (message : string) :
  exists text, extractIRCMessage message = Ret text.
Proof.
  unfold extractIRCMessage, Index.
  destruct (index_of message " PRIVMSG ") as [n|] eqn:E1; [|now exists ""].
  apply index_of_bound in E1. change (String.length " PRIVMSG ") with 9%nat in E1.
  destruct (Z.of_nat n =? -1) eqn:E; [now exists ""|].
  unfold slice_from at 1. unfold slice, len.
  change (Z.of_nat (String.length " PRIVMSG ")) with 9.
  replace ((0 <=? Z.of_nat n + 9) && (Z.of_nat n + 9 <=? Z.of_nat (String.length message))
           && (Z.of_nat (String.length message) <=? Z.of_nat (String.length message)))
    with true by (symmetry; rewrite !andb_true_iff, !Z.leb_le; lia).
  cbn [bind].
  set (rest := take _ _).
  destruct (index_of rest " :") as [m|] eqn:E2; [|now exists ""].
  apply index_of_bound in E2. change (String.length " :") with 2%nat in E2.
  destruct (Z.of_nat m =? -1); [now exists ""|].
  unfold slice_from, slice, len.
  replace ((0 <=? Z.of_nat m + 2) && (Z.of_nat m + 2 <=? Z.of_nat (String.length rest))
           && (Z.of_nat (String.length rest) <=? Z.of_nat (String.length rest)))
    with true by (symmetry; rewrite !andb_true_iff, !Z.leb_le; lia).
  cbn [bind]. eexists. reflexivity.
Qed.

(** C7: on a line [:nick!user@host PRIVMSG #chan :text] followed by the
    line terminator, where the nickname holds no exclamation mark, the
    prefix and the channel hold no space and the text does not itself end
    in a line terminator, extractNickname returns [nick] and
    extractIRCMessage returns [text]; colons in the prefix play no part.
    Without the token [ PRIVMSG ], or without a [ :] after it,
    extractIRCMessage returns the empty text. *)
Theorem privmsg_line_extraction (nick user host chan text : string) :
  mem_byte "!" nick = false ->
  mem_byte " " nick = false -> mem_byte " " user = false ->
  mem_byte " " host = false -> mem_byte " " chan = false ->
  ends_with_eol text = false ->
  extractNickname (privmsgLine nick user host chan text) = Ret nick
  /\ extractIRCMessage (privmsgLine nick user host chan text) = Ret text
  /\ (forall message, Contains message " PRIVMSG " = false ->
        extractIRCMessage message = Ret "")
  /\ (forall a rest, mem_byte " " a = false -> Contains rest " :" = false ->
        extractIRCMessage (a +:+ " PRIVMSG " +:+ rest) = Ret "").
Proof.
  intros Hbang Hn Hu Hh Hc He. unfold privmsgLine. repeat split.
  - apply (extractNickname_shape ":" nick); [discriminate | exact Hbang].
  - change (":" +:+ nick +:+ "!" +:+ user +:+ "@" +:+ host +:+ " PRIVMSG #" +:+ chan
              +:+ " :" +:+ text +:+ CRLF)
      with (":" +:+ nick +:+ "!" +:+ user +:+ "@" +:+ host +:+ " PRIVMSG "
              +:+ String "#" chan +:+ " :" +:+ text +:+ CRLF).
    replace (":" +:+ nick +:+ "!" +:+ user +:+ "@" +:+ host +:+ " PRIVMSG "
              +:+ String "#" chan +:+ " :" +:+ text +:+ CRLF)
      with ((":" +:+ nick +:+ "!" +:+ user +:+ "@" +:+ host) +:+ " PRIVMSG "
              +:+ String "#" chan +:+ " :" +:+ (text +:+ CRLF))
      by (now rewrite !append_assoc).
    rewrite extractIRCMessage_shape.
    + now rewrite TrimRight_eol, TrimRight_id.
    + rewrite !mem_byte_append, Hn, Hu, Hh. reflexivity.
    + cbn [mem_byte]. now rewrite Hc.
  - apply extractIRCMessage_no_command.
  - apply extractIRCMessage_no_trailing.
Qed.

Lemma privmsg_line_extraction_witness :
  extractNickname
    (privmsgLine "alice" "al" "2001:db8::1" "chan" "see: http://x y") = Ret "alice"
  /\ extractIRCMessage
    (privmsgLine "alice" "al" "2001:db8::1" "chan" "see: http://x y")
     = Ret "see: http://x y".
Proof.
  pose proof (privmsg_line_extraction "alice" "al" "2001:db8::1" "chan" "see: http://x y"
                eq_refl eq_refl eq_refl eq_refl eq_refl eq_refl) as (H1 & H2 & _).
  split; [exact H1 | exact H2].
Defined.

Lemma prefix_split (sep s : string) :
  String.prefix sep s = true -> s = sep +:+ drop (String.length sep) s.
Proof.
  revert s. induction sep as [|c sep IH]; intros s H; [reflexivity|].
  destruct s as [|d s]; simpl in H; [discriminate|].
  destruct (ascii_dec c d) as [->|]; [|discriminate].
  cbn. f_equal. exact (IH s H).
Qed.

(** What [index_of] finds is an occurrence. *)
Lemma index_of_split (s sep : string) (n : nat) :
  index_of s sep = Some n ->
  exists a b, s = a +:+ sep +:+ b /\ String.length a = n.
Proof.
  revert n. induction s as [|c s IH]; intros n; rewrite index_of_eq;
    destruct (String.prefix sep _) eqn:P.
  - intros [= <-]. exists "", (drop (String.length sep) ""). split; [|reflexivity].
    exact (prefix_split _ _ P).
  - discriminate.
  - intros [= <-]. exists "", (drop (String.length sep) (String c s)).
    split; [|reflexivity]. exact (prefix_split _ _ P).
  - destruct (index_of s sep) as [m|]; [|discriminate].
    intros [= <-]. destruct (IH m eq_refl) as (a & b & -> & <-).
    exists (String c a), b. split; reflexivity.
Qed.

Lemma ends_with_eol_append (a : string) (c : ascii) (b : string) :
  ends_with_eol (a +:+ String c b) = ends_with_eol (String c b).
Proof.
  induction a as [|x a IH]; [reflexivity|].
  cbn [String.append]. rewrite <- IH.
  cbn [ends_with_eol]. destruct a; reflexivity.
Qed.

Lemma drop_length_eq (n : nat) (s : string) :
  String.length (drop n s) = (String.length s - n)%nat.
Proof.
  revert s. induction n as [|n IH]; intros s; [cbn; lia|].
  destruct s as [|c s]; cbn; [lia|]. apply IH.
Qed.

(** A slice to the end that starts inside the string is its tail. *)
Lemma slice_from_inside (s : string) (lo : Z) :
  0 <= lo <= len s -> slice_from s lo = Ret (drop (Z.to_nat lo) s).
Proof.
  intros H. unfold slice_from, slice, len in *.
  replace ((0 <=? lo) && (lo <=? Z.of_nat (String.length s))
           && (Z.of_nat (String.length s) <=? Z.of_nat (String.length s)))
    with true by (symmetry; rewrite !andb_true_iff, !Z.leb_le; lia).
  replace (Z.to_nat (Z.of_nat (String.length s) - lo))
    with (String.length (drop (Z.to_nat lo) s)) by (rewrite drop_length_eq; lia).
  now rewrite take_all.
Qed.

(** On a line as [ReadString] returns it, ending in a line feed,
    extractActionMessage does not panic when the line holds the word
    ACTION: a byte always follows the word. *)
Lemma extractActionMessage_on_lines (line : string) :
  Contains (line +:+ String LF "") "ACTION" = true ->
  exists action, extractActionMessage (line +:+ String LF "") = Ret action.
Proof.
  set (message := line +:+ String LF ""). intros Hc.
  unfold Contains, Index in Hc. unfold extractActionMessage, Index.
  destruct (index_of message "ACTION") as [n|] eqn:E; [clear Hc|discriminate].
  assert (Hn : (n + 7 <= String.length message)%nat).
  { destruct (index_of_split _ _ _ E) as (a & b & Hs & <-).
    assert (He : ends_with_eol message = true).
    { unfold message. rewrite ends_with_eol_append. reflexivity. }
    rewrite Hs, !length_append.
    destruct b as [|d b]; [|cbn; lia].
    rewrite Hs in He. change ("ACTION" +:+ "") with "ACTION" in He.
    rewrite ends_with_eol_append in He. discriminate. }
  change (len "ACTION ") with 7.
  rewrite slice_from_inside by (unfold len; lia). cbn [bind].
  set (tail := drop _ _).
  assert (Htail : String.length tail = (String.length message - (n + 7))%nat).
  { subst tail. rewrite drop_length_eq. lia. }
  destruct (index_of tail (String SOH "")) as [e|] eqn:E2; [|eexists; reflexivity].
  destruct (Z.of_nat e =? -1); [eexists; reflexivity|].
  apply index_of_bound in E2. change (String.length (String SOH "")) with 1%nat in E2.
  unfold slice.
  replace ((0 <=? Z.of_nat n + 7) && (Z.of_nat n + 7 <=? Z.of_nat n + 7 + Z.of_nat e)
           && (Z.of_nat n + 7 + Z.of_nat e <=? len message))
    with true by (symmetry; unfold len; rewrite !andb_true_iff, !Z.leb_le; lia).
  eexists; reflexivity.
Qed.

(** ** handleMessage *)

(** The categories are tried in a fixed order, so a line falls in exactly
    one: the first whose test succeeds. *)
Lemma classify_spec (message : string) :
  match classify message with
  | IsPing => HasPrefix message "PING" = true
  | IsJoin => HasPrefix message "PING" = false /\ Contains message "JOIN" = true
  | IsPart =>
      HasPrefix message "PING" = false /\ Contains message "JOIN" = false
      /\ Contains message "PART" = true
  | IsAction =>
      HasPrefix message "PING" = false /\ Contains message "JOIN" = false
      /\ Contains message "PART" = false
      /\ Contains message "PRIVMSG" = true /\ Contains message "ACTION" = true
  | IsPrivmsg =>
      HasPrefix message "PING" = false /\ Contains message "JOIN" = false
      /\ Contains message "PART" = false
      /\ Contains message "PRIVMSG" = true /\ Contains message "ACTION" = false
  | IsIgnored =>
      HasPrefix message "PING" = false /\ Contains message "JOIN" = false
      /\ Contains message "PART" = false /\ Contains message "PRIVMSG" = false
  end.
Proof.
  unfold classify.
  destruct (HasPrefix message "PING"); [reflexivity|].
  destruct (Contains message "JOIN"); [easy|].
  destruct (Contains message "PART"); [easy|].
  destruct (Contains message "PRIVMSG"); cbn [andb]; [|easy].
  destruct (Contains message "ACTION"); easy.
Qed.

(** What handleMessage does in each category. *)
Lemma handleMessage_dispatch (h : Heap) (message : string) (p : Ptr) (url : string) :
  handleMessage h message p url =
  match classify message with
  | IsPing =>
      do ic <- deref h p;
      Ret [Print message; Lock p;
           ConnWrite (conn ic) (Sprintf (Replace message "PING" "PONG" 1)); Unlock p]
  | IsJoin =>
      do nickname <- extractNickname message;
      Ret [Print message; PostToSlack ("*" +:+ nickname +:+ " has joined the channel*") url]
  | IsPart =>
      do nickname <- extractNickname message;
      Ret [Print message; PostToSlack ("*" +:+ nickname +:+ " has left the channel*") url]
  | IsAction =>
      do nickname <- extractNickname message;
      do actionMessage <- extractActionMessage message;
      Ret [Print message; PostToSlack ("_" +:+ nickname +:+ " " +:+ actionMessage +:+ "_") url]
  | IsPrivmsg =>
      do nickname <- extractNickname message;
      do ircMessage <- extractIRCMessage message;
      Ret [Print message; PostToSlack ("<" +:+ nickname +:+ "> " +:+ ircMessage) url]
  | IsIgnored => Ret [Print message]
  end.
Proof.
  unfold handleMessage, classify.
  destruct (HasPrefix message "PING"); [reflexivity|].
  destruct (Contains message "JOIN"); [reflexivity|].
  destruct (Contains message "PART"); [reflexivity|].
  destruct (Contains message "PRIVMSG"); cbn [andb]; [|reflexivity].
  destruct (Contains message "ACTION"); reflexivity.
Qed.

(** The tests look for the words anywhere in the line, so chat text that
    holds the word JOIN puts a PRIVMSG line in the JOIN category. *)
Example classify_by_substring :
  classify (":alice!al@host PRIVMSG #chan :please JOIN us" +:+ CRLF) = IsJoin
  /\ classify (":alice!al@host PRIVMSG #chan :hello" +:+ CRLF) = IsPrivmsg
  /\ classify (":irc.example.net 001 slackbridge :Welcome" +:+ CRLF) = IsIgnored.
Proof. repeat split. Qed.

(** The categories as handleMessage decides them: a line is in exactly
    one, the first in the order PING, JOIN, PART, ACTION, PRIVMSG whose
    test succeeds, and ignored otherwise; on a line it files under plain
    PRIVMSG for which nickname extraction produces [nickname], chat-text
    extraction produces some [text] and the one message forwarded is
    [<nickname> text]. *)
Theorem plain_privmsg_forwarded (h : Heap) (message : string) (p : Ptr)
    (url nickname : string) :
  classify message = IsPrivmsg ->
  extractNickname message = Ret nickname ->
  (exists text,
      extractIRCMessage message = Ret text
      /\ handleMessage h message p url
         = Ret [Print message; PostToSlack ("<" +:+ nickname +:+ "> " +:+ text) url]
      /\ forwarded [Print message; PostToSlack ("<" +:+ nickname +:+ "> " +:+ text) url]
         = ["<" +:+ nickname +:+ "> " +:+ text])
  /\ (forall line,
        match classify line with
        | IsPing => HasPrefix line "PING" = true
        | IsJoin => HasPrefix line "PING" = false /\ Contains line "JOIN" = true
        | IsPart =>
            HasPrefix line "PING" = false /\ Contains line "JOIN" = false
            /\ Contains line "PART" = true
        | IsAction =>
            HasPrefix line "PING" = false /\ Contains line "JOIN" = false
            /\ Contains line "PART" = false
            /\ Contains line "PRIVMSG" = true /\ Contains line "ACTION" = true
        | IsPrivmsg =>
            HasPrefix line "PING" = false /\ Contains line "JOIN" = false
            /\ Contains line "PART" = false
            /\ Contains line "PRIVMSG" = true /\ Contains line "ACTION" = false
        | IsIgnored =>
            HasPrefix line "PING" = false /\ Contains line "JOIN" = false
            /\ Contains line "PART" = false /\ Contains line "PRIVMSG" = false
        end).
Proof.
  intros Hc Hn. split.
  - destruct (extractIRCMessage_total message) as [text Ht]. exists text.
    rewrite handleMessage_dispatch, Hc, Hn, Ht. repeat split.
  - exact classify_spec.
Qed.

Lemma plain_privmsg_forwarded_witness :
  handleMessage [] (privmsgLine "alice" "al" "host" "chan" "hello") 0 "url"
  = Ret [Print (privmsgLine "alice" "al" "host" "chan" "hello");
         PostToSlack "<alice> hello" "url"].
Proof.
  destruct (plain_privmsg_forwarded [] (privmsgLine "alice" "al" "host" "chan" "hello")
              0%nat "url" "alice" eq_refl eq_refl) as [(text & Ht & Hh & _) _].
  rewrite Hh. vm_compute in Ht. injection Ht as <-. reflexivity.
Defined.

(** C3: a plain PRIVMSG line is not always forwarded as
    [<nickname> text].  The line [:alice!al@host PRIVMSG #chan :please
    JOIN us] has the command PRIVMSG, is not framed as an ACTION, and
    nickname and chat-text extraction produce [alice] and [please JOIN us];
    handleMessage finds the word JOIN in it and forwards
    [*alice has joined the channel*].  In the same way a chat text that
    holds the word PART is forwarded as a departure. *)
Example plain_privmsg_announced_as_join :
  spec_command (privmsgLine "alice" "al" "host" "chan" "please JOIN us") = "PRIVMSG"
  /\ Contains (privmsgLine "alice" "al" "host" "chan" "please JOIN us") "ACTION" = false
  /\ extractNickname (privmsgLine "alice" "al" "host" "chan" "please JOIN us")
     = Ret "alice"
  /\ extractIRCMessage (privmsgLine "alice" "al" "host" "chan" "please JOIN us")
     = Ret "please JOIN us"
  /\ handleMessage [] (privmsgLine "alice" "al" "host" "chan" "please JOIN us") 0 "url"
     = Ret [Print (privmsgLine "alice" "al" "host" "chan" "please JOIN us");
            PostToSlack "*alice has joined the channel*" "url"]
  /\ forwarded [Print (privmsgLine "alice" "al" "host" "chan" "please JOIN us");
                PostToSlack "*alice has joined the channel*" "url"]
     <> ["<alice> please JOIN us"]
  /\ spec_command (privmsgLine "alice" "al" "host" "chan" "what a PARTY") = "PRIVMSG"
  /\ extractIRCMessage (privmsgLine "alice" "al" "host" "chan" "what a PARTY")
     = Ret "what a PARTY"
  /\ handleMessage [] (privmsgLine "alice" "al" "host" "chan" "what a PARTY") 0 "url"
     = Ret [Print (privmsgLine "alice" "al" "host" "chan" "what a PARTY");
            PostToSlack "*alice has left the channel*" "url"].
Proof. repeat split; try (vm_compute; reflexivity). discriminate. Qed.

(** The command of a line whose chat text holds no such word is the one
    handleMessage files it under. *)
Example spec_command_agrees :
  spec_command (privmsgLine "alice" "al" "host" "chan" "hello") = "PRIVMSG"
  /\ classify (privmsgLine "alice" "al" "host" "chan" "hello") = IsPrivmsg
  /\ spec_command (":alice!al@host JOIN :#chan" +:+ CRLF) = "JOIN"
  /\ classify (":alice!al@host JOIN :#chan" +:+ CRLF) = IsJoin
  /\ spec_command ("PING :irc.example.net" +:+ CRLF) = "PING"
  /\ classify ("PING :irc.example.net" +:+ CRLF) = IsPing.
Proof. repeat split; vm_compute; reflexivity. Qed.

(** C9: extractNickname panics on a line whose first exclamation mark is
    its first byte, and so does handleMessage on such a line, which ends
    the process; extractActionMessage panics when nothing follows the
    word ACTION. *)
Theorem extraction_panics :
  extractNickname ("!nick PRIVMSG #chan :hi" +:+ CRLF) = Panic
  /\ handleMessage [] ("!nick PRIVMSG #chan :hi" +:+ CRLF) 0 "url" = Panic
  /\ handleMessage [] ("!JOIN" +:+ CRLF) 0 "url" = Panic
  /\ extractActionMessage ":n!u@h PRIVMSG #chan :ACTION" = Panic.
Proof. repeat split; reflexivity. Qed.

(** The action text lies between [ACTION ] and the closing SOH byte. *)
Example extractActionMessage_framed :
  extractActionMessage
    (":nick!user@host PRIVMSG #chan :" +:+ String SOH "ACTION does a thing"
       +:+ String SOH CRLF)
  = Ret "does a thing".
Proof. reflexivity. Qed.

(** Without a closing SOH byte only the line terminator is removed. *)
Example extractActionMessage_unframed :
  extractActionMessage
    (":nick!user@host PRIVMSG #chan :" +:+ String SOH "ACTION waves" +:+ CRLF)
  = Ret "waves".
Proof. reflexivity. Qed.

(** A line without an exclamation mark has the empty nickname. *)
Example extractNickname_server_line :
  extractNickname (":irc.example.net NOTICE * :*** Looking up your hostname" +:+ CRLF)
  = Ret "".
Proof. reflexivity. Qed.

Example handleMessage_join :
  handleMessage [] (":alice!al@host JOIN :#chan" +:+ CRLF) 0 "url"
  = Ret [Print (":alice!al@host JOIN :#chan" +:+ CRLF);
         PostToSlack "*alice has joined the channel*" "url"].
Proof. reflexivity. Qed.

Example handleMessage_action :
  handleMessage []
    (":alice!al@host PRIVMSG #chan :" +:+ String SOH "ACTION waves" +:+ String SOH CRLF)
    0 "url"
  = Ret [Print (":alice!al@host PRIVMSG #chan :" +:+ String SOH "ACTION waves"
                  +:+ String SOH CRLF);
         PostToSlack "_alice waves_" "url"].
Proof. reflexivity. Qed.

(** ** Format strings without operands *)

Lemma doPrintf_plain (fuel : nat) (s : string) :
  (String.length s <= fuel)%nat -> mem_byte "%" s = false -> doPrintf fuel s = s.
Proof.
  revert s. induction fuel as [|fuel IH]; intros s Hl Hm.
  - destruct s; [reflexivity | simpl in Hl; lia].
  - destruct s as [|c s]; [reflexivity|].
    cbn [mem_byte] in Hm. apply orb_false_elim in Hm as [Hc Hs].
    cbn [doPrintf]. rewrite Ascii.eqb_sym, Hc.
    rewrite IH; [reflexivity | simpl in Hl; lia | exact Hs].
Qed.

(** A format without a percent sign is printed as it is. *)
Lemma Sprintf_plain (s : string) : mem_byte "%" s = false -> Sprintf s = s.
Proof. intros H. apply doPrintf_plain; [lia | exact H]. Qed.

Lemma mem_byte_drop (c : ascii) (n : nat) (s : string) :
  mem_byte c s = false -> mem_byte c (drop n s) = false.
Proof.
  revert s. induction n as [|n IH]; intros s H; [exact H|].
  destruct s as [|d s]; [reflexivity|].
  cbn [mem_byte] in H. apply orb_false_elim in H as [_ H]. now apply IH.
Qed.

Lemma Replace_prefix (s old new : string) :
  String.prefix old s = true ->
  Replace s old new 1 = new +:+ drop (String.length old) s.
Proof.
  intros H. cbn [Replace]. rewrite index_of_eq, H. reflexivity.
Qed.

(** A PING line without a percent sign is answered with the same line,
    PING replaced by PONG. *)
Lemma pong_verbatim (h : Heap) (message : string) (p : Ptr) (url : string)
    (ic : IRCConnection) :
  h !! p = Some ic ->
  HasPrefix message "PING" = true ->
  mem_byte "%" message = false ->
  handleMessage h message p url
  = Ret [Print message; Lock p;
         ConnWrite (conn ic) ("PONG" +:+ drop 4 message); Unlock p].
Proof.
  intros Hp Hping Hpc. unfold handleMessage, deref. rewrite Hping, Hp. cbn [bind].
  rewrite (Replace_prefix message "PING" "PONG" Hping).
  rewrite Sprintf_plain; [reflexivity|].
  rewrite mem_byte_append. now rewrite mem_byte_drop.
Qed.

(** C10: on the line [PING :a%%b], the reply written is [PONG :a%b],
    not the line with PING replaced by PONG; on [PING :100%] the reply
    ends in a formatting error text. *)
Theorem ping_percent_rewritten :
  handleMessage [{| conn := 7%nat; config := sampleConfig |}]
    ("PING :a%%b" +:+ CRLF) 0 "url"
  = Ret [Print ("PING :a%%b" +:+ CRLF); Lock 0;
         ConnWrite 7 ("PONG :a%b" +:+ CRLF); Unlock 0]
  /\ Replace ("PING :a%%b" +:+ CRLF) "PING" "PONG" 1 = "PONG :a%%b" +:+ CRLF
  /\ handleMessage [{| conn := 7%nat; config := sampleConfig |}]
       ("PING :100%" +:+ CRLF) 0 "url"
     = Ret [Print ("PING :100%" +:+ CRLF); Lock 0;
            ConnWrite 7 ("PONG :100%!" +:+ String CR "(MISSING)" +:+ String LF "");
            Unlock 0].
Proof. repeat split; reflexivity. Qed.

(** ** The identity cache *)

Lemma cached_Some (st : CacheSt) (userID name : string) :
  cached st userID = Some name <->
  exists cache, userCache st !! userID = Some cache
                /\ clock st < expiration cache /\ displayName cache = name.
Proof.
  unfold cached. split.
  - destruct (userCache st !! userID) as [cache|]; [|discriminate].
    destruct (clock st <? expiration cache) eqn:E; [|discriminate].
    intros [= <-]. exists cache. apply Z.ltb_lt in E. auto.
  - intros (cache & -> & Hlt & <-). apply Z.ltb_lt in Hlt. now rewrite Hlt.
Qed.

Lemma cached_None (st : CacheSt) (userID : string) :
  cached st userID = None <->
  forall cache, userCache st !! userID = Some cache -> expiration cache <= clock st.
Proof.
  unfold cached. split.
  - destruct (userCache st !! userID) as [cache|]; [|discriminate].
    destruct (clock st <? expiration cache) eqn:E; [discriminate|].
    intros _ cache' [= <-]. apply Z.ltb_ge in E. exact E.
  - intros H. destruct (userCache st !! userID) as [cache|]; [|reflexivity].
    specialize (H cache eq_refl). apply Z.ltb_ge in H. now rewrite H.
Qed.

(** A hit returns the entry and does nothing else. *)
Lemma getUserDisplayName_hit (env : Env) (userID : string) (config : Config)
    (st : CacheSt) (name : string) :
  cached st userID = Some name ->
  getUserDisplayName env userID config st = (name, st, []).
Proof. intros H. unfold getUserDisplayName. now rewrite H. Qed.

(** A miss sends one request whenever the request can be built. *)
Lemma getUserDisplayName_miss (env : Env) (userID : string) (config : Config)
    (st : CacheSt) :
  cached st userID = None ->
  NewRequest_ok env (usersInfoURL userID) = true ->
  lookups (snd (getUserDisplayName env userID config st)) = 1%nat.
Proof.
  intros Hc Hr. unfold getUserDisplayName. rewrite Hc, Hr. cbn [negb].
  destruct (Do env (clock st) (usersInfoURL userID)) as [elapsed [| |userInfo]];
    try reflexivity.
  destruct (Ok userInfo); reflexivity.
Qed.

(** No request is sent without a miss. *)
Lemma getUserDisplayName_lookups (env : Env) (userID : string) (config : Config)
    (st : CacheSt) :
  lookups (snd (getUserDisplayName env userID config st)) =
  match cached st userID with
  | Some _ => 0%nat
  | None => if NewRequest_ok env (usersInfoURL userID) then 1%nat else 0%nat
  end.
Proof.
  destruct (cached st userID) as [name|] eqn:Hc.
  - now rewrite (getUserDisplayName_hit _ _ _ _ _ Hc).
  - destruct (NewRequest_ok env (usersInfoURL userID)) eqn:Hr.
    + now apply getUserDisplayName_miss.
    + unfold getUserDisplayName. rewrite Hc, Hr. reflexivity.
Qed.

(** A miss answered by a profile the API accepts. *)
Lemma getUserDisplayName_fetched (env : Env) (userID : string) (config : Config)
    (st : CacheSt) (elapsed : Z) (userInfo : SlackUserInfo) :
  cached st userID = None ->
  NewRequest_ok env (usersInfoURL userID) = true ->
  Do env (clock st) (usersInfoURL userID) = (elapsed, Decoded userInfo) ->
  Ok userInfo = true ->
  let name :=
    if String.eqb (DisplayName userInfo) "" then
      if String.eqb (RealName userInfo) "" then userID else RealName userInfo
    else DisplayName userInfo in
  getUserDisplayName env userID config st
  = (name,
     {| clock := clock st + elapsed;
        userCache := <[userID := {| displayName := name;
                                    expiration := clock st + elapsed + cacheDuration |}]>
                       (userCache st) |},
     [HttpGet (usersInfoURL userID) (Slack_APIToken config)]).
Proof.
  intros Hc Hr Hd Hok. unfold getUserDisplayName.
  rewrite Hc, Hr, Hd, Hok. cbv zeta. cbn [negb clock userCache].
  destruct (String.eqb (DisplayName userInfo) "") eqn:E1; [|rewrite E1; reflexivity].
  destruct (String.eqb (RealName userInfo) ""); reflexivity.
Qed.

(** A miss that ends in a failure. *)
Lemma getUserDisplayName_failed (env : Env) (userID : string) (config : Config)
    (st : CacheSt) (elapsed : Z) (resp : Fetched) :
  cached st userID = None ->
  NewRequest_ok env (usersInfoURL userID) = true ->
  Do env (clock st) (usersInfoURL userID) = (elapsed, resp) ->
  match resp with Decoded userInfo => Ok userInfo = false | _ => True end ->
  exists effects,
    getUserDisplayName env userID config st
    = (userID, {| clock := clock st + elapsed; userCache := userCache st |}, effects).
Proof.
  intros Hc Hr Hd Hf. unfold getUserDisplayName. rewrite Hc, Hr, Hd. cbn [negb].
  destruct resp as [| |userInfo]; [eexists; reflexivity ..|].
  rewrite Hf. eexists; reflexivity.
Qed.

Lemma cacheDuration_hour : cacheDuration = 3600 * 1000000000.
Proof. vm_compute. reflexivity. Qed.

(** C6: a Resolve that misses the cache and gets a profile the API accepts
    returns the display name, or the real name when the display name is
    empty, or the user ID when both are empty, and stores it with an
    expiration one hour after the answer; a Resolve whose lookup fails (the
    request errors, the body does not decode, or the API rejects it)
    returns the user ID and leaves the cache as it was, and the next
    Resolve for that ID looks it up again. *)
Theorem resolve_outcomes (env : Env) (userID : string) (config : Config)
    (st : CacheSt) (elapsed : Z) (resp : Fetched) (name : string)
    (st' : CacheSt) (effects : list Effect) :
  cached st userID = None ->
  NewRequest_ok env (usersInfoURL userID) = true ->
  Do env (clock st) (usersInfoURL userID) = (elapsed, resp) ->
  getUserDisplayName env userID config st = (name, st', effects) ->
  match resp with
  | Decoded {| Ok := true; DisplayName := display; RealName := real |} =>
      name = (if String.eqb display "" then
                if String.eqb real "" then userID else real
              else display)
      /\ userCache st' !! userID
         = Some {| displayName := name; expiration := clock st' + 3600 * 1000000000 |}
  | _ =>
      name = userID
      /\ userCache st' = userCache st
      /\ forall st2 : CacheSt,
           userCache st2 !! userID = userCache st' !! userID ->
           clock st <= clock st2 ->
           lookups (snd (getUserDisplayName env userID config st2)) = 1%nat
  end.
Proof.
  intros Hc Hr Hd Hg.
  assert (Hretry : userCache st' = userCache st ->
                   forall st2 : CacheSt,
                     userCache st2 !! userID = userCache st' !! userID ->
                     clock st <= clock st2 ->
                     lookups (snd (getUserDisplayName env userID config st2)) = 1%nat).
  { intros Hsame st2 He Hle. apply getUserDisplayName_miss; [|exact Hr].
    apply cached_None. intros cache Hl. rewrite He, Hsame in Hl.
    pose proof (proj1 (cached_None st userID) Hc cache Hl). lia. }
  destruct resp as [| |[[|] display real]].
  - destruct (getUserDisplayName_failed env userID config st elapsed DoError Hc Hr Hd I)
      as [effects' Hf].
    rewrite Hf in Hg. injection Hg as <- <- <-. cbn [userCache] in *. auto.
  - destruct (getUserDisplayName_failed env userID config st elapsed DecodeError Hc Hr Hd I)
      as [effects' Hf].
    rewrite Hf in Hg. injection Hg as <- <- <-. cbn [userCache] in *. auto.
  - rewrite (getUserDisplayName_fetched env userID config st elapsed _ Hc Hr Hd eq_refl) in Hg.
    cbn [DisplayName RealName] in Hg. injection Hg as <- <- <-.
    cbn [userCache clock]. split; [reflexivity|].
    rewrite lookup_insert_eq, cacheDuration_hour. reflexivity.
  - destruct (getUserDisplayName_failed env userID config st elapsed _ Hc Hr Hd eq_refl)
      as [effects' Hf].
    rewrite Hf in Hg. injection Hg as <- <- <-. cbn [userCache] in *. auto.
Qed.

Lemma resolve_outcomes_witness :
  let st := {| clock := 0; userCache := ∅ |} in
  let r := getUserDisplayName online "U123" sampleConfig st in
  r.1.1 = "alice"
  /\ userCache r.1.2 !! "U123"
     = Some {| displayName := r.1.1; expiration := clock r.1.2 + 3600 * 1000000000 |}.
Proof.
  intros st r.
  exact (resolve_outcomes online "U123" sampleConfig st 250000000
           (Decoded {| Ok := true; DisplayName := "alice"; RealName := "Alice A" |})
           r.1.1 r.1.2 r.2 eq_refl eq_refl eq_refl eq_refl).
Defined.

(** An entry that has expired is treated as absent: the name returned and
    the requests sent are those of a cache without the entry. *)
Lemma getUserDisplayName_expired (env : Env) (userID : string) (config : Config)
    (st : CacheSt) (cache : UserCache) :
  userCache st !! userID = Some cache ->
  expiration cache <= clock st ->
  let r := getUserDisplayName env userID config st in
  let r' := getUserDisplayName env userID config
              {| clock := clock st; userCache := delete userID (userCache st) |} in
  r.1.1 = r'.1.1 /\ r.2 = r'.2.
Proof.
  intros Hl He. cbv zeta. unfold getUserDisplayName.
  assert (H1 : cached st userID = None).
  { apply cached_None. intros cache' Hl'. congruence. }
  assert (H2 : cached {| clock := clock st; userCache := delete userID (userCache st) |}
                 userID = None).
  { unfold cached. cbn [userCache]. now rewrite lookup_delete_eq. }
  rewrite H1, H2. cbn [clock].
  destruct (NewRequest_ok env (usersInfoURL userID)); cbn [negb]; [|easy].
  destruct (Do env (clock st) (usersInfoURL userID)) as [elapsed [| |userInfo]];
    [easy | easy |].
  destruct (Ok userInfo); easy.
Qed.

(** C5: after a Resolve that missed the cache and was answered with a
    profile (one lookup), a Resolve for the same user ID made before the
    stored expiration, one hour after that answer, returns the same name
    and sends nothing, and a Resolve made at or after it sends exactly one
    new lookup; in any state, an entry whose expiration is not after the
    current time is treated as absent. *)
Theorem cache_freshness (env : Env) (userID : string) (config : Config)
    (st0 : CacheSt) (elapsed : Z) (userInfo : SlackUserInfo) (name : string)
    (st1 : CacheSt) (effects1 : list Effect) :
  cached st0 userID = None ->
  NewRequest_ok env (usersInfoURL userID) = true ->
  Do env (clock st0) (usersInfoURL userID) = (elapsed, Decoded userInfo) ->
  Ok userInfo = true ->
  getUserDisplayName env userID config st0 = (name, st1, effects1) ->
  lookups effects1 = 1%nat
  /\ (forall st2 : CacheSt,
        userCache st2 !! userID = userCache st1 !! userID ->
        (clock st2 < clock st1 + 3600 * 1000000000 ->
         getUserDisplayName env userID config st2 = (name, st2, []))
        /\ (clock st1 + 3600 * 1000000000 <= clock st2 ->
            lookups (getUserDisplayName env userID config st2).2 = 1%nat))
  /\ (forall (st : CacheSt) (cache : UserCache),
        userCache st !! userID = Some cache ->
        expiration cache <= clock st ->
        (getUserDisplayName env userID config st).1.1
        = (getUserDisplayName env userID config
             {| clock := clock st; userCache := delete userID (userCache st) |}).1.1
        /\ lookups (getUserDisplayName env userID config st).2 = 1%nat).
Proof.
  intros Hc Hr Hd Hok Hg.
  rewrite (getUserDisplayName_fetched env userID config st0 elapsed userInfo Hc Hr Hd Hok)
    in Hg.
  cbv zeta in Hg. injection Hg as <- <- <-. cbn [clock userCache].
  rewrite <- cacheDuration_hour.
  split; [reflexivity|]. split.
  - intros st2 He. rewrite lookup_insert_eq in He. split; intros Ht.
    + apply getUserDisplayName_hit. apply cached_Some.
      eexists. split; [exact He|]. cbn [expiration displayName]. split; [lia | reflexivity].
    + apply getUserDisplayName_miss; [|exact Hr].
      apply cached_None. intros cache Hl. rewrite He in Hl. injection Hl as <-.
      cbn [expiration]. lia.
  - intros st cache Hl He. split.
    + apply (getUserDisplayName_expired env userID config st cache Hl He).
    + apply getUserDisplayName_miss; [|exact Hr].
      apply cached_None. intros cache' Hl'. congruence.
Qed.

Lemma cache_freshness_witness :
  let st0 := {| clock := 0; userCache := ∅ |} in
  let r := getUserDisplayName online "U123" sampleConfig st0 in
  let soon := {| clock := clock r.1.2 + 59 * 60 * 1000000000; userCache := userCache r.1.2 |} in
  let late := {| clock := clock r.1.2 + 60 * 60 * 1000000000; userCache := userCache r.1.2 |} in
  getUserDisplayName online "U123" sampleConfig soon = (r.1.1, soon, [])
  /\ lookups (getUserDisplayName online "U123" sampleConfig late).2 = 1%nat.
Proof.
  intros st0 r soon late.
  destruct (cache_freshness online "U123" sampleConfig st0 250000000
              {| Ok := true; DisplayName := "alice"; RealName := "Alice A" |}
              r.1.1 r.1.2 r.2 eq_refl eq_refl eq_refl eq_refl eq_refl) as (_ & H & _).
  split.
  - apply (H soon eq_refl). vm_compute. reflexivity.
  - apply (H late eq_refl). vm_compute. discriminate.
Defined.

(** ** Fuel *)

Lemma drop_length (n : nat) (s : string) :
  (String.length (drop n s) <= String.length s)%nat.
Proof.
  revert s. induction n as [|n IH]; intros s; [cbn; lia|].
  destruct s as [|c s]; cbn; [lia|]. specialize (IH s). lia.
Qed.

Lemma skip_flags_length (s : string) :
  (String.length (skip_flags s) <= String.length s)%nat.
Proof.
  induction s as [|c s IH]; cbn [skip_flags String.length]; [lia|].
  destruct (is_flag c); cbn [String.length]; lia.
Qed.

Lemma parsenum_from_length (s : string) (num : Z) (isnum : bool) :
  (String.length (parsenum_from s num isnum).2 <= String.length s)%nat.
Proof.
  revert num isnum. induction s as [|c s IH]; intros num isnum;
    cbn [parsenum_from String.length snd]; [lia|].
  destruct (is_digit c); [|cbn [String.length snd]; lia].
  destruct (tooLarge num); [cbn [String.length snd]; lia|].
  specialize (IH (num * 10 + (Z.of_N (byte c) - 48)) true). lia.
Qed.

Lemma argNumber_length (s : string) :
  (String.length (argNumber s).1.1 <= String.length s)%nat.
Proof.
  unfold argNumber. destruct s as [|c s]; [cbn; lia|].
  destruct (Ascii.eqb c "[") eqn:E.
  - apply Ascii.eqb_eq in E. subst c.
    destruct (parseArgNumber (String "[" s)) as [[index wid] ok]. cbn [fst].
    apply drop_length.
  - assert (argNumber (String c s) = (String c s, false, true)) as H.
    { unfold argNumber.
      destruct c as [[] [] [] [] [] [] [] []]; try reflexivity. discriminate. }
    unfold argNumber in H. rewrite H. cbn. lia.
Qed.

(** A directive leaves no more format than it was given. *)
Lemma directive_length (s out rest : string) :
  directive s = (out, Some rest) -> (String.length rest <= String.length s)%nat.
Proof.
  unfold directive.
  pose proof (skip_flags_length s) as H0. revert H0.
  generalize (skip_flags s). intros s0 H0.
  pose proof (argNumber_length s0) as H1.
  destruct (argNumber s0) as [[s1 afterIndex] good]. cbn [fst] in H1.
  assert (Hw : forall out1 s2 afterIndex1 good1,
             match s1 with
             | String "*" s' => ("%!(BADWIDTH)", s', false, good)
             | _ =>
                 let '(_, widPresent, s') := parsenum s1 in
                 (EmptyString, s', afterIndex, good && negb (afterIndex && widPresent))
             end = (out1, s2, afterIndex1, good1) ->
             (String.length s2 <= String.length s1)%nat).
  { intros out1 s2 a1 g1.
    pose proof (parsenum_from_length s1 0 false) as Hp. unfold parsenum.
    destruct (parsenum_from s1 0 false) as [[num isnum] r]. cbn [snd] in Hp.
    destruct s1 as [|c s1']; [intros [= _ <- _ _]; exact Hp|].
    destruct (Ascii.eqb c "*") eqn:E.
    - apply Ascii.eqb_eq in E. subst c. intros [= _ <- _ _]. cbn. lia.
    - destruct c as [[] [] [] [] [] [] [] []]; try discriminate;
        intros [= _ <- _ _]; exact Hp. }
  destruct (match s1 with
            | String "*" s' => ("%!(BADWIDTH)", s', false, good)
            | _ =>
                let '(_, widPresent, s') := parsenum s1 in
                (EmptyString, s', afterIndex, good && negb (afterIndex && widPresent))
            end) as [[[out1 s2] afterIndex1] good1] eqn:Ew.
  specialize (Hw _ _ _ _ eq_refl).
  assert (Hp : forall out2 s3 afterIndex2 good2,
             match s2 with
             | String "." (String _ _ as s') =>
                 let good := good1 && negb afterIndex1 in
                 let '(s', afterIndex, g) := argNumber s' in
                 match s' with
                 | String "*" s'' => (out1 +:+ "%!(BADPREC)", s'', false, good && g)
                 | _ => let '(_, _, s'') := parsenum s' in (out1, s'', afterIndex, good && g)
                 end
             | _ => (out1, s2, afterIndex1, good1)
             end = (out2, s3, afterIndex2, good2) ->
             (String.length s3 <= String.length s2)%nat).
  { intros out2 s3 a2 g2.
    destruct s2 as [|c s2']; [intros [= _ <- _ _]; cbn; lia|].
    destruct (Ascii.eqb c ".") eqn:E.
    2:{ destruct c as [[] [] [] [] [] [] [] []]; try discriminate;
          intros [= _ <- _ _]; cbn; lia. }
    apply Ascii.eqb_eq in E. subst c.
    destruct s2' as [|d s2'']; [intros [= _ <- _ _]; cbn; lia|].
    pose proof (argNumber_length (String d s2'')) as Ha.
    destruct (argNumber (String d s2'')) as [[s' a'] g']. cbn [fst] in Ha.
    pose proof (parsenum_from_length s' 0 false) as Hq. unfold parsenum.
    destruct (parsenum_from s' 0 false) as [[num isnum] r]. cbn [snd] in Hq.
    destruct s' as [|e s'']; [intros [= _ <- _ _]; cbn in *; lia|].
    destruct (Ascii.eqb e "*") eqn:E'.
    - apply Ascii.eqb_eq in E'. subst e. intros [= _ <- _ _]. cbn in *. lia.
    - destruct e as [[] [] [] [] [] [] [] []]; try discriminate;
        intros [= _ <- _ _]; cbn in *; lia. }
  destruct (match s2 with
            | String "." (String _ _ as s') =>
                let good := good1 && negb afterIndex1 in
                let '(s', afterIndex, g) := argNumber s' in
                match s' with
                | String "*" s'' => (out1 +:+ "%!(BADPREC)", s'', false, good && g)
                | _ => let '(_, _, s'') := parsenum s' in (out1, s'', afterIndex, good && g)
                end
            | _ => (out1, s2, afterIndex1, good1)
            end) as [[[out2 s3] afterIndex2] good2] eqn:Ep.
  specialize (Hp _ _ _ _ eq_refl).
  assert (Hi : forall s4 good3,
             (if afterIndex2 then (s3, good2)
              else let '(s', _, g) := argNumber s3 in (s', good2 && g)) = (s4, good3) ->
             (String.length s4 <= String.length s3)%nat).
  { intros s4 g3. destruct afterIndex2; [intros [= <- _]; lia|].
    pose proof (argNumber_length s3) as Ha.
    destruct (argNumber s3) as [[s' a'] g']. cbn [fst] in Ha.
    intros [= <- _]. exact Ha. }
  destruct (if afterIndex2 then (s3, good2)
            else let '(s', _, g) := argNumber s3 in (s', good2 && g)) as [s4 good3] eqn:Ei.
  specialize (Hi _ _ eq_refl).
  destruct s4 as [|c s4']; [discriminate|].
  destruct (decodeRune (String c s4')) as [verb size].
  pose proof (drop_length size (String c s4')) as Hd.
  destruct (Ascii.eqb c "%"); [|destruct good3]; intros [= _ <-]; lia.
Qed.

(** More fuel than the length of the format changes nothing. *)
Lemma doPrintf_fuel (n m : nat) (format : string) :
  (String.length format <= n)%nat -> (String.length format <= m)%nat ->
  doPrintf n format = doPrintf m format.
Proof.
  revert m format. induction n as [|n IH]; intros m format Hn Hm.
  - destruct format; [now destruct m | cbn in Hn; lia].
  - destruct m as [|m]; [destruct format; [reflexivity | cbn in Hm; lia]|].
    destruct format as [|c rest]; [reflexivity|]. cbn [doPrintf].
    cbn [String.length] in Hn, Hm.
    destruct (Ascii.eqb c "%").
    + destruct (directive rest) as [out [rest'|]] eqn:Ed; [|reflexivity].
      apply directive_length in Ed. f_equal. apply IH; lia.
    + f_equal. apply IH; lia.
Qed.

(** The scan of a format, without fuel. *)
Lemma Sprintf_eq (format : string) :
  Sprintf format =
  match format with
  | EmptyString => EmptyString
  | String c rest =>
      if Ascii.eqb c "%" then
        match directive rest with
        | (out, Some rest') => out +:+ Sprintf rest'
        | (out, None) => out
        end
      else String c (Sprintf rest)
  end.
Proof.
  unfold Sprintf. destruct format as [|c rest]; [reflexivity|].
  cbn [String.length doPrintf].
  destruct (Ascii.eqb c "%"); [|reflexivity].
  destruct (directive rest) as [out [rest'|]] eqn:Ed; [|reflexivity].
  apply directive_length in Ed. f_equal. apply doPrintf_fuel; lia.
Qed.

Lemma span_id_length (s : string) :
  (String.length (span_id s).2 <= String.length s)%nat.
Proof.
  induction s as [|c s IH]; cbn [span_id String.length snd]; [lia|].
  destruct (is_id_byte c); [|cbn [String.length snd]; lia].
  destruct (span_id s) as [id rest]. cbn [snd] in *. lia.
Qed.

(** A mention is at least one byte long. *)
Lemma match_mention_length (text userID rest : string) :
  match_mention text = Some (userID, rest) ->
  (String.length rest < String.length text)%nat.
Proof.
  unfold match_mention.
  destruct text as [|c0 [|c1 [|c2 s']]]; try discriminate;
    try (destruct c0 as [[] [] [] [] [] [] [] []]; discriminate);
    try (destruct c0 as [[] [] [] [] [] [] [] []]; try discriminate;
         destruct c1 as [[] [] [] [] [] [] [] []]; discriminate).
  pose proof (span_id_length s') as Hs.
  destruct (span_id s') as [id r]. cbn [snd] in Hs.
  destruct c0 as [[] [] [] [] [] [] [] []]; try discriminate.
  destruct c1 as [[] [] [] [] [] [] [] []]; try discriminate.
  destruct c2 as [[] [] [] [] [] [] [] []]; try discriminate.
  destruct id as [|c id]; [discriminate|].
  destruct r as [|d r]; [discriminate|].
  destruct d as [[] [] [] [] [] [] [] []]; try discriminate.
  intros [= _ <-]. cbn [String.length] in *. lia.
Qed.

Lemma replaceMentions_fuel (n m : nat) (env : Env) (text : string) (config : Config)
    (st : CacheSt) :
  (String.length text <= n)%nat -> (String.length text <= m)%nat ->
  replaceMentions n env text config st = replaceMentions m env text config st.
Proof.
  revert m text st. induction n as [|n IH]; intros m text st Hn Hm.
  - destruct text; [now destruct m | cbn in Hn; lia].
  - destruct m as [|m]; [destruct text; [reflexivity | cbn in Hm; lia]|].
    cbn [replaceMentions].
    destruct (match_mention text) as [[userID rest]|] eqn:E.
    + apply match_mention_length in E.
      destruct (getUserDisplayName env userID config st) as [[name st1] e1].
      rewrite (IH m rest st1); [reflexivity | lia | lia].
    + destruct text as [|c text']; [reflexivity|]. cbn [String.length] in Hn, Hm.
      rewrite (IH m text' st); [reflexivity | lia | lia].
Qed.

(** The scan for mentions, without fuel. *)
Lemma translateMentions_eq (env : Env) (text : string) (config : Config) (st : CacheSt) :
  translateMentions env text config st =
  match match_mention text with
  | Some (userID, rest) =>
      let '(name, st1, e1) := getUserDisplayName env userID config st in
      let '(out, st2, e2) := translateMentions env rest config st1 in
      ("@" +:+ name +:+ out, st2, e1 ++ e2)
  | None =>
      match text with
      | EmptyString => (EmptyString, st, [])
      | String c text' =>
          let '(out, st2, e2) := translateMentions env text' config st in
          (String c out, st2, e2)
      end
  end.
Proof.
  unfold translateMentions. destruct text as [|c text']; [reflexivity|].
  cbn [String.length replaceMentions].
  destruct (match_mention (String c text')) as [[userID rest]|] eqn:E; [|reflexivity].
  apply match_mention_length in E. cbn [String.length] in E.
  destruct (getUserDisplayName env userID config st) as [[name st1] e1].
  rewrite (replaceMentions_fuel (String.length text') (String.length rest));
    [reflexivity | lia | lia].
Qed.

(** Two mentions are resolved left to right; the second lookup starts when
    the first one has been answered. *)
Example translateMentions_two :
  (translateMentions online "hi <@U123> and <@U456>, not <@U>" sampleConfig
     {| clock := 0; userCache := ∅ |}).1.1
  = "hi @alice and @alice, not <@U>"
  /\ lookups (translateMentions online "hi <@U123> and <@U456>, not <@U>" sampleConfig
                {| clock := 0; userCache := ∅ |}).2 = 2%nat.
Proof. split; vm_compute; reflexivity. Qed.

(** ** The inbound webhook *)

(** C4, as the handler has it: a request that is not a POST is answered
    405; a POST whose body does not decode, 400; a url_verification
    envelope, 200 with the challenge as body; a message event that the
    filter drops, 200 with an empty body and nothing relayed; a message
    event that is relayed, 200 with body [ok] when the write succeeds and
    500 when it fails; any other envelope, 200 with body [ok]. *)
Theorem webhook_responses (env : Env) (h : Heap) (p : Ptr) (ic : IRCConnection)
    (r : Request) (st : CacheSt) :
  h !! p = Some ic ->
  exists w st' effects,
    createWebhookHandler env h p r st = Ret (w, st', effects)
    /\ (Method r <> "POST" -> StatusCode w = 405)
    /\ (Method r = "POST" -> Body r = None -> StatusCode w = 400)
    /\ (forall event, Method r = "POST" -> Body r = Some event ->
        (Type_ event = "url_verification" ->
           StatusCode w = 200 /\ written w = Challenge event)
        /\ (Type_ event = "event_callback" -> Event_Type event = "message" ->
            (shouldProcessMessage event (config ic) = false ->
               StatusCode w = 200 /\ written w = "" /\ effects = [])
            /\ (shouldProcessMessage event (config ic) = true ->
                (WriteFails env (clock st') (conn ic) = false ->
                   StatusCode w = 200 /\ written w = "ok")
                /\ (WriteFails env (clock st') (conn ic) = true ->
                    StatusCode w = 500)))
        /\ (Type_ event <> "url_verification" ->
            ~ (Type_ event = "event_callback" /\ Event_Type event = "message") ->
            StatusCode w = 200 /\ written w = "ok")).
Proof.
  intros Hp. unfold createWebhookHandler, deref. rewrite Hp. cbn [bind].
  destruct (String.eqb (Method r) "POST") eqn:Hm; cbn [negb].
  2:{ apply String.eqb_neq in Hm. do 3 eexists. split; [reflexivity|].
      repeat split; try (intros; congruence); reflexivity. }
  apply String.eqb_eq in Hm.
  destruct (Body r) as [event|] eqn:Hb.
  2:{ do 3 eexists. split; [reflexivity|].
      repeat split; try (intros; congruence); reflexivity. }
  destruct (String.eqb (Type_ event) "url_verification") eqn:Hv.
  { apply String.eqb_eq in Hv. do 3 eexists. split; [reflexivity|].
    split; [congruence|]. split; [congruence|].
    intros event' _ [= <-]. split; [intros _; split; reflexivity|].
    split; [intros Ht; rewrite Hv in Ht; discriminate | intros Hn; contradiction]. }
  apply String.eqb_neq in Hv.
  destruct (String.eqb (Type_ event) "event_callback"
            && String.eqb (Event_Type event) "message") eqn:He.
  2:{ do 3 eexists. split; [reflexivity|].
      split; [congruence|]. split; [congruence|].
      intros event' _ [= <-]. split; [intros Hv'; contradiction|].
      split; [|intros _ _; split; reflexivity].
      intros Ht Hty. apply String.eqb_eq in Ht, Hty. rewrite Ht, Hty in He. discriminate. }
  apply andb_true_iff in He as [Ht Hty]. apply String.eqb_eq in Ht, Hty.
  destruct (shouldProcessMessage event (config ic)) eqn:Hs; cbn [negb].
  2:{ do 3 eexists. split; [reflexivity|].
      split; [congruence|]. split; [congruence|].
      intros event' _ [= <-]. split; [intros Hv'; contradiction|].
      split; [|intros _ Hn; exfalso; apply Hn; split; assumption].
      intros _ _. split; [intros _; repeat split | rewrite Hs; discriminate]. }
  destruct (getUserDisplayName env (Event_User event) (config ic) st) as [[name st1] e1].
  destruct (translateMentions env (Event_Text event) (config ic) st1)
    as [[translatedText st2] e2].
  destruct (WriteFails env (clock st2) (conn ic)) eqn:Hw.
  - do 3 eexists. split; [reflexivity|].
    split; [congruence|]. split; [congruence|].
    intros event' _ [= <-]. split; [intros Hv'; contradiction|].
    split; [|intros _ Hn; exfalso; apply Hn; split; assumption].
    intros _ _. rewrite Hs. split; [discriminate|]. intros _.
    rewrite Hw. split; [discriminate | reflexivity].
  - do 3 eexists. split; [reflexivity|].
    split; [congruence|]. split; [congruence|].
    intros event' _ [= <-]. split; [intros Hv'; contradiction|].
    split; [|intros _ Hn; exfalso; apply Hn; split; assumption].
    intros _ _. rewrite Hs. split; [discriminate|]. intros _.
    rewrite Hw. split; [split; reflexivity | discriminate].
Qed.

Lemma webhook_responses_witness :
  response (createWebhookHandler offline [{| conn := 0; config := sampleConfig |}] 0
              (post (messageEvent "U123" "hello" "" ""))
              {| clock := 0; userCache := ∅ |})
  = Some (200, "ok").
Proof.
  destruct (webhook_responses offline [{| conn := 0; config := sampleConfig |}] 0%nat
              {| conn := 0; config := sampleConfig |}
              (post (messageEvent "U123" "hello" "" ""))
              {| clock := 0; userCache := ∅ |} eq_refl)
    as (w & st' & effects & -> & _ & _ & H).
  destruct (H (messageEvent "U123" "hello" "" "") eq_refl eq_refl) as (_ & Hmsg & _).
  destruct (Hmsg eq_refl eq_refl) as (_ & Hok).
  destruct (Hok eq_refl) as ((Hs & Hb) & _); [reflexivity|].
  cbn [response]. now rewrite Hs, Hb.
Defined.

(** C4, counterexample: a message event dropped by the filter (here one
    with a subtype) is answered 200 with an empty body, not [ok]. *)
Lemma filtered_event_empty_body :
  response (createWebhookHandler offline [{| conn := 0; config := sampleConfig |}] 0
              (post (messageEvent "U123" "edited" "message_changed" ""))
              {| clock := 0; userCache := ∅ |})
  = Some (200, "")
  /\ response (createWebhookHandler offline [{| conn := 0; config := sampleConfig |}] 0
                 (post (messageEvent "U123" "edited" "message_changed" ""))
                 {| clock := 0; userCache := ∅ |})
     <> Some (200, "ok").
Proof. split; [reflexivity | discriminate]. Qed.

(** The filter: a subtype, a bot when bots are ignored, or an ignored
    sender drop the event. *)
Example shouldProcessMessage_cases :
  shouldProcessMessage (messageEvent "U123" "hi" "" "") sampleConfig = true
  /\ shouldProcessMessage (messageEvent "U123" "hi" "message_changed" "") sampleConfig
     = false
  /\ shouldProcessMessage (messageEvent "U123" "hi" "" "B042") sampleConfig = false
  /\ shouldProcessMessage (messageEvent "U123" "hi" "" "")
       {| IRC_Server := ""; IRC_Channel := ""; IRC_Nickname := "";
          Slack_WebhookURL := ""; Slack_ListenAddress := ""; Slack_APIToken := "";
          Slack_IgnoreBots := false; Slack_IgnoreUsers := ["U999"; "U123"] |}
     = false.
Proof. repeat split. Qed.

(** The registration handshake: the challenge comes back as the body. *)
Example url_verification_challenge :
  response (createWebhookHandler offline [] 0
              (post {| Type_ := "url_verification"; Challenge := "abc123";
                       Event_Type := ""; Event_User := ""; Event_Text := "";
                       Event_Channel := ""; Event_BotID := ""; Event_Subtype := "" |})
              {| clock := 0; userCache := ∅ |})
  = Some (200, "abc123").
Proof. reflexivity. Qed.

(** ** The session manager *)

Lemma sleeps_app (a b : list Effect) : sleeps (a ++ b) = (sleeps a + sleeps b)%nat.
Proof. unfold sleeps. now rewrite List.filter_app, List.length_app. Qed.

Lemma dials_app (a b : list Effect) : dials (a ++ b) = (dials a + dials b)%nat.
Proof. unfold dials. now rewrite List.filter_app, List.length_app. Qed.

Lemma getUserDisplayName_no_sleep (env : Env) (userID : string) (config : Config)
    (st : CacheSt) :
  sleeps (getUserDisplayName env userID config st).2 = 0%nat.
Proof.
  unfold getUserDisplayName.
  destruct (cached st userID); [reflexivity|].
  destruct (NewRequest_ok env (usersInfoURL userID)); [|reflexivity]. cbn [negb].
  destruct (Do env (clock st) (usersInfoURL userID)) as [elapsed [| |userInfo]];
    try reflexivity.
  destruct (Ok userInfo); reflexivity.
Qed.

Lemma replaceMentions_no_sleep (fuel : nat) (env : Env) (text : string)
    (config : Config) (st : CacheSt) :
  sleeps (replaceMentions fuel env text config st).2 = 0%nat.
Proof.
  revert text st. induction fuel as [|fuel IH]; intros text st; [reflexivity|].
  cbn [replaceMentions].
  destruct (match_mention text) as [[userID rest]|].
  - pose proof (getUserDisplayName_no_sleep env userID config st) as H1.
    destruct (getUserDisplayName env userID config st) as [[name st1] e1].
    specialize (IH rest st1).
    destruct (replaceMentions fuel env rest config st1) as [[out st2] e2].
    cbn [snd] in *. now rewrite sleeps_app, H1, IH.
  - destruct text as [|c text']; [reflexivity|].
    specialize (IH text' st).
    destruct (replaceMentions fuel env text' config st) as [[out st2] e2].
    exact IH.
Qed.

Lemma createWebhookHandler_no_sleep (env : Env) (h : Heap) (p : Ptr) (r : Request)
    (st : CacheSt) (w : ResponseWriter) (st' : CacheSt) (effects : list Effect) :
  createWebhookHandler env h p r st = Ret (w, st', effects) -> sleeps effects = 0%nat.
Proof.
  unfold createWebhookHandler.
  destruct (negb (String.eqb (Method r) "POST")); [now intros [= <- <- <-]|].
  destruct (Body r) as [event|]; [|now intros [= <- <- <-]].
  destruct (String.eqb (Type_ event) "url_verification"); [now intros [= <- <- <-]|].
  destruct (String.eqb (Type_ event) "event_callback"
            && String.eqb (Event_Type event) "message"); [|now intros [= <- <- <-]].
  destruct (deref h p) as [ic|]; [|discriminate]. cbn [bind].
  destruct (negb (shouldProcessMessage event (config ic))); [now intros [= <- <- <-]|].
  pose proof (getUserDisplayName_no_sleep env (Event_User event) (config ic) st) as H1.
  destruct (getUserDisplayName env (Event_User event) (config ic) st) as [[name st1] e1].
  pose proof (replaceMentions_no_sleep (String.length (Event_Text event)) env
                (Event_Text event) (config ic) st1) as H2.
  unfold translateMentions.
  destruct (replaceMentions (String.length (Event_Text event)) env
              (Event_Text event) (config ic) st1) as [[translatedText st2] e2].
  cbn [snd] in *.
  destruct (WriteFails env (clock st2) (conn ic)); intros [= <- <- <-];
    rewrite !sleeps_app, H1, H2; reflexivity.
Qed.

Lemma handleMessage_no_sleep (h : Heap) (message : string) (p : Ptr) (url : string)
    (effects : list Effect) :
  handleMessage h message p url = Ret effects -> sleeps effects = 0%nat.
Proof.
  rewrite handleMessage_dispatch.
  destruct (classify message);
    try destruct (deref h p); try destruct (extractNickname message);
    try destruct (extractActionMessage message);
    try destruct (extractIRCMessage message);
    cbn [bind]; intros [= <-] || discriminate; reflexivity.
Qed.

Section Manager.

Variables (env : Env) (config : Config).

(** The four ways the process moves. *)
Lemma step_cases (e : Event) (w w' : World) :
  step env config e w = Some w' ->
  (exists r, e = Dialed r /\ phase w = Dialing /\ w' = dialed config r w)
  \/ (exists r c, e = Line r /\ phase w = Reading c /\ w' = readLine config r w)
  \/ (exists r resp st effects p,
        e = Serve r /\ handler w = Some p
        /\ createWebhookHandler env (heap w) p r (cache w) = Ret (resp, st, effects)
        /\ w' = {| cache := st; heap := heap w; ircConn := ircConn w;
                   firstConnection := firstConnection w; phase := phase w;
                   handler := handler w; trace := trace w ++ effects |})
  \/ (exists d, e = Tick d /\ 0 <= d /\ w' = tick d w).
Proof.
  unfold step, manageIRCConnection, serve. intros H.
  destruct e as [r|r|r|d]; destruct (phase w) eqn:Hp; try discriminate.
  - left. exists r. now injection H as <-.
  - right; left. exists r, c. now injection H as <-.
  - right; right; left.
    destruct (handler w) as [p|] eqn:Hh; [|discriminate].
    destruct (createWebhookHandler env (heap w) p r (cache w))
      as [[[resp st] effects]|] eqn:Hw; [|discriminate].
    injection H as <-. exists r, resp, st, effects, p. auto.
  - right; right; left.
    destruct (handler w) as [p|] eqn:Hh; [|discriminate].
    destruct (createWebhookHandler env (heap w) p r (cache w))
      as [[[resp st] effects]|] eqn:Hw; [|discriminate].
    injection H as <-. exists r, resp, st, effects, p. auto.
  - right; right; right. destruct (0 <=? d) eqn:Hd; [|discriminate].
    injection H as <-. exists d. apply Z.leb_le in Hd. auto.
  - right; right; right. destruct (0 <=? d) eqn:Hd; [|discriminate].
    injection H as <-. exists d. apply Z.leb_le in Hd. auto.
Qed.

(** What every step keeps, every run keeps. *)
Lemma run_invariant (P : World -> Prop) :
  (forall e w w', step env config e w = Some w' -> P w -> P w') ->
  forall events w w', run env config events w = Some w' -> P w -> P w'.
Proof.
  intros Hstep events. induction events as [|e events IH]; intros w w' Hr Hw.
  - now injection Hr as <-.
  - cbn [run] in Hr. destruct (step env config e w) as [w1|] eqn:Hs; [|discriminate].
    exact (IH w1 w' Hr (Hstep e w w1 Hs Hw)).
Qed.

(** The process never calls [time.Sleep]. *)
Lemma step_no_sleep (e : Event) (w w' : World) :
  step env config e w = Some w' -> sleeps (trace w) = 0%nat -> sleeps (trace w') = 0%nat.
Proof.
  intros Hs H0.
  destruct (step_cases e w w' Hs)
    as [(r & _ & _ & ->)|[(r & c & _ & _ & ->)
        |[(r & resp & st & effects & p & _ & _ & Hw & ->)|(d & _ & _ & ->)]]].
  - unfold dialed. destruct r; destruct (firstConnection w); cbn [trace];
      rewrite ?sleeps_app, H0; reflexivity.
  - unfold readLine. destruct r as [message|].
    + destruct (ircConn w) as [p|]; [|exact H0].
      destruct (handleMessage (heap w) message p (Slack_WebhookURL config)) eqn:Hh;
        cbn [trace]; rewrite sleeps_app, H0; [|reflexivity].
      now rewrite (handleMessage_no_sleep _ _ _ _ _ Hh).
    + cbn [trace]. now rewrite sleeps_app, H0.
  - cbn [trace]. now rewrite sleeps_app, H0, (createWebhookHandler_no_sleep _ _ _ _ _ _ _ _ Hw).
  - exact H0.
Qed.

Lemma step_pointers (e : Event) (w w' : World) :
  step env config e w = Some w' -> pointers w -> pointers w'.
Proof.
  intros Hs Hi.
  destruct (step_cases e w w' Hs)
    as [(r & _ & _ & ->)|[(r & c & _ & _ & ->)
        |[(r & resp & st & effects & p & _ & _ & _ & ->)|(d & _ & _ & ->)]]];
    [| |exact Hi|exact Hi].
  - unfold dialed. destruct r as [c|].
    + right. cbn [firstConnection heap handler ircConn].
      rewrite List.length_app. cbn [List.length].
      destruct Hi as [(Hf & Hh & Hd & Hc)|(Hf & Hh & Hd & Hc)]; rewrite Hf.
      * rewrite Hh. cbn. repeat split; congruence.
      * repeat split; [now destruct (heap w) | exact Hd | f_equal; lia].
    + destruct (firstConnection w) eqn:Hf; unfold pointers in *;
        cbn [firstConnection heap handler ircConn]; rewrite Hf in Hi; exact Hi.
  - unfold readLine. destruct r as [message|]; [|exact Hi].
    destruct (ircConn w) as [p|] eqn:Hc; [|exact Hi].
    destruct (handleMessage (heap w) message p (Slack_WebhookURL config));
      unfold pointers; cbn [firstConnection heap handler ircConn];
      rewrite <- Hc; exact Hi.
Qed.

Lemma step_connected (e : Event) (w w' : World) :
  step env config e w = Some w' -> connected w -> connected w'.
Proof.
  intros Hs Hi.
  destruct (step_cases e w w' Hs)
    as [(r & _ & _ & ->)|[(r & c & _ & Hp & ->)
        |[(r & resp & st & effects & p & _ & _ & _ & ->)|(d & _ & _ & ->)]]];
    [| |exact Hi|exact Hi].
  - unfold dialed. destruct r as [c|]; [now intros c'|].
    destruct (firstConnection w); intros c'; discriminate.
  - unfold readLine. destruct r as [message|]; [|intros c'; discriminate].
    destruct (ircConn w) as [p|]; [|exact Hi].
    destruct (handleMessage (heap w) message p (Slack_WebhookURL config));
      intros c'; cbn [phase firstConnection]; [|discriminate].
    intros _. exact (Hi c Hp).
Qed.

Lemma start_pointers (t0 : Z) : pointers (start config t0).
Proof. left. repeat split. Qed.

Lemma start_connected (t0 : Z) : connected (start config t0).
Proof. intros c. discriminate. Qed.

(** The handler only ever holds the first struct, whatever happens, while
    the session manager holds the last one. *)
Lemma handler_holds_first_struct (t0 : Z) (events : list Event) (w : World) (p : Ptr) :
  run env config events (start config t0) = Some w ->
  handler w = Some p ->
  p = 0%nat /\ ircConn w = Some (List.length (heap w) - 1)%nat.
Proof.
  intros Hr Hh.
  destruct (run_invariant pointers step_pointers _ _ _ Hr (start_pointers t0))
    as [(_ & _ & Hd & _)|(_ & _ & Hd & Hc)]; [congruence|].
  split; [congruence | exact Hc].
Qed.

(** Any number of failed dials in a row leaves the manager dialing. *)
Lemma redial_forever (n : nat) (w : World) :
  phase w = Dialing -> firstConnection w = false ->
  exists w',
    run env config (List.repeat (Dialed None) n) w = Some w'
    /\ phase w' = Dialing /\ firstConnection w' = false
    /\ dials (trace w') = (dials (trace w) + n)%nat
    /\ sleeps (trace w') = sleeps (trace w).
Proof.
  revert w. induction n as [|n IH]; intros w Hp Hf.
  - exists w. cbn [List.repeat run]. repeat split; auto; lia.
  - cbn [List.repeat run]. unfold step, manageIRCConnection. rewrite Hp.
    unfold dialed. rewrite Hf.
    set (w1 := {| cache := cache w; heap := heap w; ircConn := ircConn w;
                  firstConnection := false; phase := Dialing; handler := handler w;
                  trace := trace w ++ [Log "Failed to connect to IRC server: %v";
                                       Dial (IRC_Server config)] |}).
    destruct (IH w1 eq_refl eq_refl) as (w' & Hr & Hp' & Hf' & Hd & Hs).
    exists w'. repeat split; auto.
    + rewrite Hd. subst w1. cbn [trace]. rewrite dials_app. cbn. lia.
    + rewrite Hs. subst w1. cbn [trace]. rewrite sleeps_app. cbn. lia.
Qed.

(** What the manager does on a failure: a failed dial while no connection
    has been made yet ends the process; once a connection has been made, a failed
    dial is logged and followed at once by the next dial, a read error is
    logged and followed at once by a dial, any number of failed dials in a
    row leaves the manager dialing, and no run of the process ever
    sleeps. *)
Theorem reconnect_policy :
  (forall w, phase w = Dialing -> firstConnection w = true ->
     exists w', step env config (Dialed None) w = Some w'
                /\ phase w' = Exited
                /\ trace w' = trace w ++ [Log "Failed to connect to IRC server: %v";
                                          Fatal "Failed to establish initial IRC connection"]
                /\ forall e, step env config e w' = None)
  /\ (forall w, phase w = Dialing -> firstConnection w = false ->
        exists w', step env config (Dialed None) w = Some w'
                   /\ phase w' = Dialing /\ firstConnection w' = false
                   /\ trace w' = trace w ++ [Log "Failed to connect to IRC server: %v";
                                             Dial (IRC_Server config)])
  /\ (forall w c, phase w = Reading c ->
        exists w', step env config (Line None) w = Some w'
                   /\ phase w' = Dialing /\ firstConnection w' = firstConnection w
                   /\ trace w' = trace w ++ [Log "Error reading from IRC: %v";
                                             Log "IRC connection lost, reconnecting...";
                                             Dial (IRC_Server config)])
  /\ (forall n w, phase w = Dialing -> firstConnection w = false ->
        exists w', run env config (List.repeat (Dialed None) n) w = Some w'
                   /\ phase w' = Dialing
                   /\ dials (trace w') = (dials (trace w) + n)%nat
                   /\ sleeps (trace w') = sleeps (trace w))
  /\ (forall t0 events w, run env config events (start config t0) = Some w ->
        sleeps (trace w) = 0%nat
        /\ forall c, phase w = Reading c -> firstConnection w = false).
Proof.
  split; [|split; [|split; [|split]]].
  - intros w Hp Hf. eexists. unfold step, manageIRCConnection. rewrite Hp.
    unfold dialed. rewrite Hf.
    split; [reflexivity|]. cbn [phase trace]. repeat split.
    intros e. unfold step, manageIRCConnection. cbn [phase]. now destruct e.
  - intros w Hp Hf. eexists. unfold step, manageIRCConnection. rewrite Hp.
    unfold dialed. rewrite Hf.
    split; [reflexivity|]. cbn [phase trace firstConnection]. auto.
  - intros w c Hp. eexists. unfold step, manageIRCConnection. rewrite Hp.
    unfold readLine.
    split; [reflexivity|]. cbn [phase trace firstConnection]. auto.
  - intros n w Hp Hf.
    destruct (redial_forever n w Hp Hf) as (w' & Hr & Hp' & _ & Hd & Hs).
    exists w'. auto.
  - intros t0 events w Hr. split.
    + exact (run_invariant (fun w => sleeps (trace w) = 0%nat) step_no_sleep
               _ _ _ Hr eq_refl).
    + exact (run_invariant connected step_connected _ _ _ Hr (start_connected t0)).
Qed.

End Manager.

(** C1: after the first connection is lost and a second one is made, the
    session manager reads from connection 1 while the handler still holds
    the struct of connection 0, and the line relayed for a webhook message
    is written to connection 0; connection 1 only ever gets the
    registration lines. *)
Theorem relay_goes_to_superseded_connection :
  let events := [Dialed (Some 0%nat); Line None; Dialed (Some 1%nat)] in
  let request := Serve (post (messageEvent "U123" "hello" "" "")) in
  option_map (fun w => (handlerConn w, currentConn w))
    (run offline sampleConfig events (start sampleConfig 0))
  = Some (Some 0%nat, Some 1%nat)
  /\ option_map (fun w => writtenTo 0 (trace w))
       (run offline sampleConfig (events ++ [request]) (start sampleConfig 0))
     = Some ["NICK slackbridge" +:+ CRLF;
             "USER slackbridge 8 * :slackbridge" +:+ CRLF;
             "JOIN #yourchannel" +:+ CRLF;
             "PRIVMSG #yourchannel :<U123> hello" +:+ CRLF]
  /\ option_map (fun w => writtenTo 1 (trace w))
       (run offline sampleConfig (events ++ [request]) (start sampleConfig 0))
     = Some ["NICK slackbridge" +:+ CRLF;
             "USER slackbridge 8 * :slackbridge" +:+ CRLF;
             "JOIN #yourchannel" +:+ CRLF].
Proof. repeat split; vm_compute; reflexivity. Qed.

Lemma reconnect_policy_witness :
  let w := {| cache := {| clock := 0; userCache := ∅ |};
              heap := [{| conn := 0; config := sampleConfig |}];
              ircConn := Some 0%nat; firstConnection := false; phase := Dialing;
              handler := Some 0%nat;
              trace := [Dial "irc.oftc.net:6667"] |} in
  exists w', run offline sampleConfig (List.repeat (Dialed None) 3) w = Some w'
             /\ phase w' = Dialing
             /\ dials (trace w') = 4%nat
             /\ sleeps (trace w') = 0%nat.
Proof.
  intros w.
  destruct (reconnect_policy offline sampleConfig) as (_ & _ & _ & H & _).
  exact (H 3%nat w eq_refl eq_refl).
Defined.

(** C2: the retry is not delayed.  The first connection is made and
    lost, a dial fails and the next succeeds: the effects of this run hold
    no sleep at all, each dial follows the log of the failure directly,
    where the claim has a fixed delay before each retry (five seconds in
    the earlier revisions of main). *)
Lemma retry_without_delay :
  option_map trace
    (run offline sampleConfig
       [Dialed (Some 0%nat); Line None; Dialed None; Dialed (Some 1%nat)]
       (start sampleConfig 0))
  = Some [Dial "irc.oftc.net:6667";
          ConnWrite 0 ("NICK slackbridge" +:+ CRLF);
          ConnWrite 0 ("USER slackbridge 8 * :slackbridge" +:+ CRLF);
          ConnWrite 0 ("JOIN #yourchannel" +:+ CRLF);
          Ready 0;
          Log "Starting Slack webhook listener on %s";
          Log "Error reading from IRC: %v";
          Log "IRC connection lost, reconnecting...";
          Dial "irc.oftc.net:6667";
          Log "Failed to connect to IRC server: %v";
          Dial "irc.oftc.net:6667";
          ConnWrite 1 ("NICK slackbridge" +:+ CRLF);
          ConnWrite 1 ("USER slackbridge 8 * :slackbridge" +:+ CRLF);
          ConnWrite 1 ("JOIN #yourchannel" +:+ CRLF)]
  /\ option_map (fun w => delayedRetries (5 * 1000000000) (trace w))
       (run offline sampleConfig
          [Dialed (Some 0%nat); Line None; Dialed None; Dialed (Some 1%nat)]
          (start sampleConfig 0))
     = Some false.
Proof. split; vm_compute; reflexivity. Qed.


(** ** Guarded writes under interleaving *)

Lemma flatten_app (a b : list string) : flatten (a ++ b) = flatten a +:+ flatten b.
Proof.
  induction a as [|l a IH]; [reflexivity|].
  cbn [app flatten]. now rewrite IH, append_assoc.
Qed.

Lemma map_line_insert (ws : list Writer) (i : nat) (w w' : Writer) :
  ws !! i = Some w -> line w' = line w ->
  List.map line (<[i := w']> ws) = List.map line ws.
Proof.
  revert i. induction ws as [|x ws IH]; intros i Hl Hline; [reflexivity|].
  destruct i as [|i]; simpl in *.
  - injection Hl as ->. now rewrite Hline.
  - f_equal. exact (IH i Hl Hline).
Qed.

Lemma line_in_lines (ws : list Writer) (i : nat) (w : Writer) :
  ws !! i = Some w -> List.In (line w) (List.map line ws).
Proof.
  revert i. induction ws as [|x ws IH]; intros i Hl; [discriminate|].
  destruct i as [|i]; cbn in *.
  - injection Hl as ->. now left.
  - right. exact (IH i Hl).
Qed.

(** What a lookup finds after writer [i] has been replaced. *)
Lemma lookup_replaced (ws : list Writer) (i j : nat) (w w' x : Writer) :
  ws !! i = Some w ->
  <[i := w']> ws !! j = Some x ->
  (j = i /\ x = w') \/ (j <> i /\ ws !! j = Some x).
Proof.
  intros Hi Hj. destruct (decide (j = i)) as [->|Hne].
  - left. split; [reflexivity|].
    rewrite list_lookup_insert_eq in Hj by (eapply lookup_lt_Some; exact Hi).
    congruence.
  - right. split; [exact Hne|].
    rewrite list_lookup_insert_ne in Hj by congruence. exact Hj.
Qed.

(** A move that changes nothing keeps what held. *)
Ltac stays whole partial :=
  split; [|split; [|exists whole, partial; split; [|split]]]; assumption.

(** One move keeps the wire framed. *)
Lemma move_framed (lines : list string) (i : nat) (fail : bool) (s : Session) :
  framed lines s -> framed lines (move i fail s).
Proof.
  intros (Hlines & Hex & whole & partial & Hwire & Hall & Hcase).
  unfold move.
  destruct (writers s !! i) as [w|] eqn:Hi;
    [|stays whole partial].
  assert (Hlt : (i < List.length (writers s))%nat) by (eapply lookup_lt_Some; exact Hi).
  destruct (pc w) as [|rest| |] eqn:Hpc.
  - (* Lock *)
    destruct (mutex s) as [holder|] eqn:Hm;
      [stays whole partial|].
    split; [|split].
    + cbn [writers]. rewrite <- Hlines. now apply map_line_insert with (w := w).
    + intros j x Hj Hc. cbn [writers mutex] in *.
      destruct (lookup_replaced _ _ _ _ _ _ Hi Hj) as [[-> _]|[_ Hj']]; [reflexivity|].
      specialize (Hex j x Hj' Hc). congruence.
    + exists whole, partial. split; [exact Hwire|]. split; [exact Hall|].
      cbn [broken writers].
      destruct Hcase as [(Hb & Hp & Hno)|[(Hb & j & x & r & Hj & Hx & _)|Hbroken]].
      * right. left. split; [exact Hb|].
        exists i, {| line := line w; pc := InWrite (line w) |}, (line w).
        split; [now apply list_lookup_insert_eq|]. split; [reflexivity|].
        now rewrite Hp.
      * assert (Hc : inCritical x = true) by (unfold inCritical; now rewrite Hx).
        specialize (Hex j x Hj Hc). congruence.
      * right. right. exact Hbroken.
  - (* inside Fprintf *)
    assert (Hcw : inCritical w = true) by (unfold inCritical; now rewrite Hpc).
    pose proof (Hex i w Hi Hcw) as Hm.
    assert (Hsame : forall j x r, writers s !! j = Some x -> pc x = InWrite r ->
                                  j = i /\ x = w /\ r = rest).
    { intros j x r Hj Hx.
      assert (Hc : inCritical x = true) by (unfold inCritical; now rewrite Hx).
      specialize (Hex j x Hj Hc). rewrite Hm in Hex. injection Hex as <-.
      rewrite Hi in Hj. injection Hj as <-. rewrite Hpc in Hx. injection Hx as <-.
      auto. }
    destruct (broken s || fail) eqn:Hbf.
    + (* the write fails *)
      split; [|split].
      * cbn [writers]. rewrite <- Hlines. now apply map_line_insert with (w := w).
      * intros j x Hj Hc. cbn [writers mutex] in *.
        destruct (lookup_replaced _ _ _ _ _ _ Hi Hj) as [[-> _]|[_ Hj']]; [exact Hm|].
        exact (Hex j x Hj' Hc).
      * exists whole, partial. split; [exact Hwire|]. split; [exact Hall|].
        cbn [broken]. right. right. split; [reflexivity|].
        destruct Hcase as [(_ & _ & Hno)|[(_ & j & x & r & Hj & Hx & Hl)|(_ & Hbroken)]].
        -- exfalso. exact (Hno i w rest Hi Hpc).
        -- exists (line x), r. split; [|exact Hl].
           rewrite <- Hlines. exact (line_in_lines _ _ _ Hj).
        -- exact Hbroken.
    + apply orb_false_elim in Hbf as [Hb _].
      destruct Hcase as [(_ & _ & Hno)|[(_ & j & x & r & Hj & Hx & Hl)|(Hb' & _)]];
        [exfalso; exact (Hno i w rest Hi Hpc) | | congruence].
      destruct (Hsame j x r Hj Hx) as (-> & -> & ->).
      destruct rest as [|c rest'].
      * (* the whole line is out *)
        split; [|split].
        -- cbn [writers]. rewrite <- Hlines. now apply map_line_insert with (w := w).
        -- intros j x Hj' Hc. cbn [writers mutex] in *.
           destruct (lookup_replaced _ _ _ _ _ _ Hi Hj') as [[-> _]|[_ Hj'']]; [exact Hm|].
           exact (Hex j x Hj'' Hc).
        -- exists (whole ++ [line w]), "". split; [|split].
           ++ cbn [wire]. rewrite Hwire, flatten_app. cbn [flatten].
              rewrite Hl, !append_empty_r. reflexivity.
           ++ apply List.Forall_app. split; [exact Hall|].
              constructor; [|constructor].
              rewrite <- Hlines. exact (line_in_lines _ _ _ Hi).
           ++ left. cbn [broken writers]. split; [exact Hb|]. split; [reflexivity|].
              intros j x r Hj' Hx'.
              destruct (lookup_replaced _ _ _ _ _ _ Hi Hj') as [[_ ->]|[Hne Hj'']];
                [discriminate|].
              destruct (Hsame j x r Hj'' Hx') as (-> & _). contradiction.
      * (* one more byte *)
        split; [|split].
        -- cbn [writers]. rewrite <- Hlines. now apply map_line_insert with (w := w).
        -- intros j x Hj' Hc. cbn [writers mutex] in *.
           destruct (lookup_replaced _ _ _ _ _ _ Hi Hj') as [[-> _]|[_ Hj'']]; [exact Hm|].
           exact (Hex j x Hj'' Hc).
        -- exists whole, (partial +:+ String c ""). split; [|split].
           ++ cbn [wire]. now rewrite Hwire, append_assoc.
           ++ exact Hall.
           ++ right. left. cbn [broken writers]. split; [exact Hb|].
              exists i, {| line := line w; pc := InWrite rest' |}, rest'.
              split; [now apply list_lookup_insert_eq|]. split; [reflexivity|].
              cbn [line]. rewrite Hl, append_assoc. reflexivity.
  - (* Unlock *)
    assert (Hcw : inCritical w = true) by (unfold inCritical; now rewrite Hpc).
    pose proof (Hex i w Hi Hcw) as Hm.
    assert (Hother : forall j x, j <> i -> writers s !! j = Some x -> inCritical x = false).
    { intros j x Hne Hj. destruct (inCritical x) eqn:Hc; [|reflexivity].
      specialize (Hex j x Hj Hc). congruence. }
    split; [|split].
    + cbn [writers]. rewrite <- Hlines. now apply map_line_insert with (w := w).
    + intros j x Hj Hc. cbn [writers mutex] in *.
      destruct (lookup_replaced _ _ _ _ _ _ Hi Hj) as [[_ ->]|[Hne Hj']]; [discriminate|].
      rewrite (Hother j x Hne Hj') in Hc. discriminate.
    + exists whole, partial. split; [exact Hwire|]. split; [exact Hall|].
      cbn [broken writers].
      destruct Hcase as [(Hb & Hp & Hno)|[(Hb & j & x & r & Hj & Hx & _)|Hbroken]].
      * left. split; [exact Hb|]. split; [exact Hp|].
        intros j x r Hj Hx.
        destruct (lookup_replaced _ _ _ _ _ _ Hi Hj) as [[_ ->]|[_ Hj']]; [discriminate|].
        exact (Hno j x r Hj' Hx).
      * exfalso. destruct (decide (j = i)) as [->|Hne].
        -- rewrite Hi in Hj. injection Hj as <-. congruence.
        -- pose proof (Hother j x Hne Hj) as Hc. unfold inCritical in Hc.
           rewrite Hx in Hc. discriminate.
      * right. right. exact Hbroken.
  - (* done *)
    stays whole partial.
Qed.

Lemma schedule_framed (lines : list string) (moves : list (nat * bool)) (s : Session) :
  framed lines s -> framed lines (schedule moves s).
Proof.
  revert s. induction moves as [|[i fail] moves IH]; intros s H; [exact H|].
  cbn [schedule]. apply IH. now apply move_framed.
Qed.

Lemma session_framed (ircMessages : list string) :
  framed (List.map Sprintf ircMessages) (session ircMessages).
Proof.
  split; [|split].
  - cbn [session writers]. rewrite List.map_map. reflexivity.
  - intros i w Hi Hc. cbn [session writers] in Hi.
    assert (Hpc : pc w = AtLock).
    { revert i Hi. induction ircMessages as [|m ms IH]; intros i Hi; [discriminate|].
      destruct i as [|i]; cbn in Hi; [now injection Hi as <- | exact (IH i Hi)]. }
    unfold inCritical in Hc. rewrite Hpc in Hc. discriminate.
  - exists [], "". split; [reflexivity|]. split; [constructor|].
    left. split; [reflexivity|]. split; [reflexivity|].
    intros i w rest Hi. cbn [session writers] in Hi.
    assert (Hpc : pc w = AtLock).
    { revert i Hi. induction ircMessages as [|m ms IH]; intros i Hi; [discriminate|].
      destruct i as [|i]; cbn in Hi; [now injection Hi as <- | exact (IH i Hi)]. }
    rewrite Hpc. discriminate.
Qed.


(** Two requests scheduled in turn: the second waits at the mutex until
    the first has released it. *)
Example two_requests_in_turn :
  let moves := List.flat_map (fun _ => [(0%nat, false); (1%nat, false)])
                 (List.seq 0 13) in
  wire (schedule moves (session ["ab" +:+ CRLF; "cd" +:+ CRLF]))
  = "ab" +:+ CRLF +:+ "cd" +:+ CRLF
  /\ mutex (schedule moves (session ["ab" +:+ CRLF; "cd" +:+ CRLF])) = None.
Proof. split; vm_compute; reflexivity. Qed.

(** A connection that fails under the first request takes nothing from
    the second. *)
Example failure_cuts_one_line :
  let moves := [(0%nat, false); (0%nat, false); (0%nat, true); (0%nat, false);
                (1%nat, false); (1%nat, false); (1%nat, false)] in
  wire (schedule moves (session ["ab" +:+ CRLF; "cd" +:+ CRLF])) = "a"
  /\ broken (schedule moves (session ["ab" +:+ CRLF; "cd" +:+ CRLF])) = true.
Proof. split; vm_compute; reflexivity. Qed.



(** * Further properties *)

(** ** The line codec and handleMessage *)

Lemma index_of_head (s sep : string) :
  index_of s sep = Some 0%nat <-> String.prefix sep s = true.
Proof.
  rewrite index_of_eq. destruct (String.prefix sep s); split; try easy.
  destruct s; [discriminate|]. destruct (index_of s sep); discriminate.
Qed.

(** extractNickname panics exactly on the lines that begin with an
    exclamation mark. *)
Lemma extractNickname_panics_iff (message : string) :
  extractNickname message = Panic <-> HasPrefix message "!" = true.
Proof.
  unfold extractNickname, HasPrefix, Index.
  destruct (index_of message "!") as [n|] eqn:E.
  - destruct n as [|n].
    + apply index_of_head in E. rewrite E. split; reflexivity.
    + assert (Hp : String.prefix "!" message = false).
      { destruct (String.prefix "!" message) eqn:P; [|reflexivity].
        apply index_of_head in P. congruence. }
      rewrite Hp. apply index_of_bound in E. change (String.length "!") with 1%nat in E.
      destruct (Z.of_nat (S n) =? -1); [split; discriminate|].
      unfold slice, len.
      replace ((0 <=? 1) && (1 <=? Z.of_nat (S n))
               && (Z.of_nat (S n) <=? Z.of_nat (String.length message)))
        with true by (symmetry; rewrite !andb_true_iff, !Z.leb_le; lia).
      split; discriminate.
  - assert (Hp : String.prefix "!" message = false).
    { destruct (String.prefix "!" message) eqn:P; [|reflexivity].
      apply index_of_head in P. congruence. }
    rewrite Hp. split; discriminate.
Qed.

Lemma bang_is_not_ping (s : string) :
  HasPrefix s "!" = true -> HasPrefix s "PING" = false.
Proof.
  unfold HasPrefix. destruct s as [|c m]; [discriminate|].
  change (String.prefix "!" (String c m))
    with (if ascii_dec "!" c then String.prefix "" m else false).
  change (String.prefix "PING" (String c m))
    with (if ascii_dec "P" c then String.prefix "ING" m else false).
  destruct (ascii_dec "!" c) as [<-|]; intros H; [|discriminate].
  destruct (ascii_dec "P" "!") as [E|]; [discriminate E | reflexivity].
Qed.

(** X1: on a line as it is read, ending in a line feed, handleMessage
    panics exactly when the line begins with an exclamation mark and holds
    one of the words JOIN, PART, PRIVMSG; on every other line it returns. *)
Theorem handleMessage_panics_iff (h : Heap) (line : string) (p : Ptr) (url : string)
    (ic : IRCConnection) :
  h !! p = Some ic ->
  handleMessage h (line +:+ String LF "") p url = Panic <->
  HasPrefix (line +:+ String LF "") "!" = true
  /\ (Contains (line +:+ String LF "") "JOIN"
      || Contains (line +:+ String LF "") "PART"
      || Contains (line +:+ String LF "") "PRIVMSG") = true.
Proof.
  intros Hp. set (message := line +:+ String LF "").
  rewrite handleMessage_dispatch. pose proof (classify_spec message) as Hc.
  pose proof (extractNickname_panics_iff message) as Hn.
  pose proof (bang_is_not_ping message) as Hbang.
  destruct (classify message).
  - unfold deref. rewrite Hp. cbn [bind]. split; [discriminate|].
    intros [Hb _]. apply Hbang in Hb. congruence.
  - destruct Hc as (_ & Hj). rewrite Hj. cbn [orb].
    destruct (extractNickname message); cbn [bind].
    + split; [discriminate|]. intros [Hb _]. apply (proj2 Hn) in Hb. discriminate.
    + split; [intros _; split; [now apply Hn | reflexivity] | reflexivity].
  - destruct Hc as (_ & Hj & Hpa). rewrite Hj, Hpa. cbn [orb].
    destruct (extractNickname message); cbn [bind].
    + split; [discriminate|]. intros [Hb _]. apply (proj2 Hn) in Hb. discriminate.
    + split; [intros _; split; [now apply Hn | reflexivity] | reflexivity].
  - destruct Hc as (_ & Hj & Hpa & Hpr & Ha). rewrite Hj, Hpa, Hpr. cbn [orb].
    destruct (extractNickname message); cbn [bind].
    + destruct (extractActionMessage_on_lines line) as [action Hact];
        [exact Ha|]. fold message in Hact. rewrite Hact. cbn [bind].
      split; [discriminate|]. intros [Hb _]. apply (proj2 Hn) in Hb. discriminate.
    + split; [intros _; split; [now apply Hn | reflexivity] | reflexivity].
  - destruct Hc as (_ & Hj & Hpa & Hpr & Ha). rewrite Hj, Hpa, Hpr. cbn [orb].
    destruct (extractNickname message); cbn [bind].
    + destruct (extractIRCMessage_total message) as [text Ht]. rewrite Ht. cbn [bind].
      split; [discriminate|]. intros [Hb _]. apply (proj2 Hn) in Hb. discriminate.
    + split; [intros _; split; [now apply Hn | reflexivity] | reflexivity].
  - destruct Hc as (_ & Hj & Hpa & Hpr). rewrite Hj, Hpa, Hpr. cbn [orb].
    split; [discriminate | intros [_ H]; discriminate].
Qed.

Lemma handleMessage_panics_iff_witness :
  handleMessage [{| conn := 0; config := sampleConfig |}]
    ("!x JOIN #c" +:+ String CR "" +:+ String LF "") 0 "url" = Panic.
Proof.
  apply (handleMessage_panics_iff [{| conn := 0; config := sampleConfig |}]
           ("!x JOIN #c" +:+ String CR "") 0%nat "url"
           {| conn := 0; config := sampleConfig |} eq_refl).
  split; reflexivity.
Defined.



Lemma prefix_within (sep a b : string) :
  String.prefix sep (a +:+ b) = true ->
  (String.length sep <= String.length a)%nat ->
  String.prefix sep a = true.
Proof.
  revert a. induction sep as [|c sep IH]; intros a H Hl; [now destruct a|].
  destruct a as [|x a]; [simpl in Hl; lia|].
  simpl in H |- *. destruct (ascii_dec c x); [|discriminate].
  apply IH; [exact H | simpl in Hl; lia].
Qed.

(** The first occurrence of a word is where it is written, when it starts
    nowhere before. *)
Lemma index_of_first (a body b : string) (l : ascii) :
  index_of (a +:+ body) (body +:+ String l "") = None ->
  index_of (a +:+ (body +:+ String l "") +:+ b) (body +:+ String l "")
  = Some (String.length a).
Proof.
  induction a as [|x a IH]; intros H.
  - rewrite index_of_eq.
    change ("" +:+ (body +:+ String l "") +:+ b) with ((body +:+ String l "") +:+ b).
    now rewrite prefix_append.
  - rewrite index_of_eq in H. cbn [String.append] in H.
    destruct (String.prefix (body +:+ String l "") (String x (a +:+ body))) eqn:P;
      [discriminate|].
    destruct (index_of (a +:+ body) (body +:+ String l "")) eqn:E; [discriminate|].
    rewrite index_of_eq. cbn [String.append].
    destruct (String.prefix (body +:+ String l "")
                (String x (a +:+ (body +:+ String l "") +:+ b))) eqn:P'.
    + exfalso.
      assert (Heq : String x (a +:+ (body +:+ String l "") +:+ b)
                    = String x (a +:+ body) +:+ (String l "" +:+ b)).
      { cbn [String.append]. f_equal. now rewrite !append_assoc. }
      rewrite Heq in P'. apply prefix_within in P'; [congruence|].
      cbn [String.length]. rewrite !length_append. cbn [String.length]. lia.
    + rewrite (IH eq_refl). reflexivity.
Qed.

Lemma index_of_absent_byte (c : ascii) (s : string) :
  mem_byte c s = false -> index_of s (String c "") = None.
Proof.
  induction s as [|x s IH]; intros H; rewrite index_of_eq; [reflexivity|].
  cbn [mem_byte] in H. apply orb_false_elim in H as [Hx Hs].
  simpl String.prefix. destruct (ascii_dec c x) as [->|].
  - rewrite Ascii.eqb_refl in Hx. discriminate.
  - now rewrite (IH Hs).
Qed.

(** X3: the action text is what lies between [ACTION ] and the next SOH
    byte, when the word ACTION starts nowhere before. *)
Theorem action_text_framed (pre text post : string) :
  Contains (pre +:+ "ACTIO") "ACTION" = false ->
  mem_byte SOH text = false ->
  extractActionMessage (pre +:+ "ACTION " +:+ text +:+ String SOH post) = Ret text.
Proof.
  intros Hpre Htext. unfold extractActionMessage.
  assert (Hi : Index (pre +:+ "ACTION " +:+ text +:+ String SOH post) "ACTION" = len pre).
  { unfold Index, Contains, Index in *.
    destruct (index_of (pre +:+ "ACTIO") "ACTION") eqn:E;
      [apply Z.leb_gt in Hpre; lia|].
    change (pre +:+ "ACTION " +:+ text +:+ String SOH post)
      with (pre +:+ ("ACTIO" +:+ String "N" "") +:+ (" " +:+ text +:+ String SOH post)).
    change "ACTION" with ("ACTIO" +:+ String "N" "").
    now rewrite (index_of_first pre "ACTIO" _ "N" E). }
  rewrite Hi.
  replace (len pre + len "ACTION ") with (len (pre +:+ "ACTION "))
    by apply len_append.
  replace (pre +:+ "ACTION " +:+ text +:+ String SOH post)
    with ((pre +:+ "ACTION ") +:+ text +:+ String SOH post)
    by apply append_assoc.
  rewrite slice_from_append. cbn [bind].
  change (text +:+ String SOH post) with (text +:+ String SOH "" +:+ post).
  rewrite (Index_skip text post "" SOH Htext).
  pose proof (len_nonneg text) as Hl.
  destruct (len text =? -1) eqn:E; [apply Z.eqb_eq in E; lia|].
  apply slice_append.
Qed.

Lemma action_text_framed_witness :
  extractActionMessage
    (":Alice!al@host PRIVMSG #chan :" +:+ String SOH "" +:+ "ACTION "
       +:+ "does a thing" +:+ String SOH CRLF)
  = Ret "does a thing".
Proof.
  exact (action_text_framed (":Alice!al@host PRIVMSG #chan :" +:+ String SOH "")
           "does a thing" CRLF eq_refl eq_refl).
Defined.

(** X4: without a closing SOH byte the action text is everything after
    [ACTION ], less the trailing carriage returns and line feeds. *)
Theorem action_text_unframed (pre text : string) :
  Contains (pre +:+ "ACTIO") "ACTION" = false ->
  mem_byte SOH text = false ->
  extractActionMessage (pre +:+ "ACTION " +:+ text) = Ret (TrimRight text CRLF).
Proof.
  intros Hpre Htext. unfold extractActionMessage.
  assert (Hi : Index (pre +:+ "ACTION " +:+ text) "ACTION" = len pre).
  { unfold Index, Contains, Index in *.
    destruct (index_of (pre +:+ "ACTIO") "ACTION") eqn:E;
      [apply Z.leb_gt in Hpre; lia|].
    change (pre +:+ "ACTION " +:+ text)
      with (pre +:+ ("ACTIO" +:+ String "N" "") +:+ (" " +:+ text)).
    change "ACTION" with ("ACTIO" +:+ String "N" "").
    now rewrite (index_of_first pre "ACTIO" _ "N" E). }
  rewrite Hi.
  replace (len pre + len "ACTION ") with (len (pre +:+ "ACTION "))
    by apply len_append.
  replace (pre +:+ "ACTION " +:+ text) with ((pre +:+ "ACTION ") +:+ text)
    by apply append_assoc.
  rewrite slice_from_append. cbn [bind].
  unfold Index. rewrite (index_of_absent_byte SOH text Htext). reflexivity.
Qed.

Lemma action_text_unframed_witness :
  extractActionMessage (":alice!al@host PRIVMSG #chan :ACTION " +:+ ("waves" +:+ CRLF))
  = Ret "waves".
Proof.
  exact (action_text_unframed ":alice!al@host PRIVMSG #chan :" ("waves" +:+ CRLF)
           eq_refl eq_refl).
Defined.

(** X5: a PING line is answered on IRC and never forwarded to Slack; any
    other line is never answered on IRC and is forwarded at most once. *)
Theorem handleMessage_one_direction (h : Heap) (message : string) (p : Ptr)
    (url : string) (effects : list Effect) :
  handleMessage h message p url = Ret effects ->
  (HasPrefix message "PING" = true ->
   forwarded effects = [] /\ writes effects = 1%nat)
  /\ (HasPrefix message "PING" = false ->
      writes effects = 0%nat /\ (List.length (forwarded effects) <= 1)%nat).
Proof.
  rewrite handleMessage_dispatch. pose proof (classify_spec message) as Hc.
  destruct (classify message).
  - destruct (deref h p); cbn [bind]; intros [= <-].
    split; [intros _; split; reflexivity | congruence].
  - destruct Hc as [Hf _].
    destruct (extractNickname message); cbn [bind]; intros [= <-].
    split; [congruence | intros _; split; cbn; lia].
  - destruct Hc as [Hf _].
    destruct (extractNickname message); cbn [bind]; intros [= <-].
    split; [congruence | intros _; split; cbn; lia].
  - destruct Hc as [Hf _].
    destruct (extractNickname message); cbn [bind]; [|discriminate].
    destruct (extractActionMessage message); cbn [bind]; intros [= <-].
    split; [congruence | intros _; split; cbn; lia].
  - destruct Hc as [Hf _].
    destruct (extractNickname message); cbn [bind]; [|discriminate].
    destruct (extractIRCMessage message); cbn [bind]; intros [= <-].
    split; [congruence | intros _; split; cbn; lia].
  - destruct Hc as [Hf _]. intros [= <-].
    split; [congruence | intros _; split; cbn; lia].
Qed.

Lemma handleMessage_one_direction_witness :
  forwarded [Print ("PING :irc.example.net" +:+ CRLF); Lock 0;
             ConnWrite 7 ("PONG :irc.example.net" +:+ CRLF); Unlock 0] = []
  /\ writes [Print ("PING :irc.example.net" +:+ CRLF); Lock 0;
             ConnWrite 7 ("PONG :irc.example.net" +:+ CRLF); Unlock 0] = 1%nat.
Proof.
  exact (proj1 (handleMessage_one_direction
                  [{| conn := 7; config := sampleConfig |}]
                  ("PING :irc.example.net" +:+ CRLF) 0%nat "url" _ eq_refl) eq_refl).
Defined.

Lemma guardedBy_quiet (h : Heap) (e rest : list Effect) :
  quiet e = true -> guardedBy h (e ++ rest) = guardedBy h rest.
Proof.
  induction e as [|x e IH]; intros H; [reflexivity|].
  cbn [quiet List.forallb] in H. apply andb_true_iff in H as [Hx He].
  destruct x; try discriminate; cbn [app guardedBy]; exact (IH He).
Qed.

Lemma quiet_app (a b : list Effect) : quiet (a ++ b) = quiet a && quiet b.
Proof. apply List.forallb_app. Qed.

Lemma getUserDisplayName_quiet (env : Env) (userID : string) (config : Config)
    (st : CacheSt) :
  quiet (getUserDisplayName env userID config st).2 = true.
Proof.
  unfold getUserDisplayName.
  destruct (cached st userID); [reflexivity|].
  destruct (NewRequest_ok env (usersInfoURL userID)); [|reflexivity]. cbn [negb].
  destruct (Do env (clock st) (usersInfoURL userID)) as [elapsed [| |userInfo]];
    try reflexivity.
  destruct (Ok userInfo); reflexivity.
Qed.

Lemma replaceMentions_quiet (fuel : nat) (env : Env) (text : string)
    (config : Config) (st : CacheSt) :
  quiet (replaceMentions fuel env text config st).2 = true.
Proof.
  revert text st. induction fuel as [|fuel IH]; intros text st; [reflexivity|].
  cbn [replaceMentions].
  destruct (match_mention text) as [[userID rest]|].
  - pose proof (getUserDisplayName_quiet env userID config st) as H1.
    destruct (getUserDisplayName env userID config st) as [[name st1] e1].
    specialize (IH rest st1).
    destruct (replaceMentions fuel env rest config st1) as [[out st2] e2].
    cbn [snd] in *. now rewrite quiet_app, H1, IH.
  - destruct text as [|c text']; [reflexivity|].
    specialize (IH text' st).
    destruct (replaceMentions fuel env text' config st) as [[out st2] e2].
    exact IH.
Qed.

Lemma writes_quiet (e : list Effect) : quiet e = true -> writes e = 0%nat.
Proof.
  induction e as [|x e IH]; intros H; [reflexivity|].
  cbn [quiet List.forallb] in H. apply andb_true_iff in H as [Hx He].
  destruct x; try discriminate; exact (IH He).
Qed.

Lemma writes_app (a b : list Effect) : writes (a ++ b) = (writes a + writes b)%nat.
Proof. unfold writes. now rewrite List.filter_app, List.length_app. Qed.

(** X6: whatever handleMessage and the webhook handler write to a
    connection, they write between a Lock and an Unlock of the struct that
    holds the connection; the handler writes at most once per request. *)
Theorem writes_are_guarded (env : Env) (h : Heap) (p : Ptr) :
  (forall message url effects,
     handleMessage h message p url = Ret effects -> guardedBy h effects = true)
  /\ (forall r st w st' effects,
        createWebhookHandler env h p r st = Ret (w, st', effects) ->
        guardedBy h effects = true /\ (writes effects <= 1)%nat).
Proof.
  split.
  - intros message url effects. rewrite handleMessage_dispatch.
    destruct (classify message).
    + unfold deref. destruct (h !! p) as [ic|] eqn:Hp; cbn [bind]; intros [= <-].
      cbn [guardedBy]. now rewrite Hp, !Nat.eqb_refl.
    + destruct (extractNickname message); cbn [bind]; now intros [= <-].
    + destruct (extractNickname message); cbn [bind]; now intros [= <-].
    + destruct (extractNickname message); cbn [bind]; [|discriminate].
      destruct (extractActionMessage message); cbn [bind]; now intros [= <-].
    + destruct (extractNickname message); cbn [bind]; [|discriminate].
      destruct (extractIRCMessage message); cbn [bind]; now intros [= <-].
    + now intros [= <-].
  - intros r st w st' effects. unfold createWebhookHandler.
    destruct (negb (String.eqb (Method r) "POST")); [intros [= <- <- <-]; cbn; auto|].
    destruct (Body r) as [event|]; [|intros [= <- <- <-]; cbn; auto].
    destruct (String.eqb (Type_ event) "url_verification");
      [intros [= <- <- <-]; cbn; auto|].
    destruct (String.eqb (Type_ event) "event_callback"
              && String.eqb (Event_Type event) "message");
      [|intros [= <- <- <-]; cbn; auto].
    unfold deref. destruct (h !! p) as [ic|] eqn:Hp; [|discriminate]. cbn [bind].
    destruct (negb (shouldProcessMessage event (config ic)));
      [intros [= <- <- <-]; cbn; auto|].
    pose proof (getUserDisplayName_quiet env (Event_User event) (config ic) st) as H1.
    destruct (getUserDisplayName env (Event_User event) (config ic) st) as [[name st1] e1].
    pose proof (replaceMentions_quiet (String.length (Event_Text event)) env
                  (Event_Text event) (config ic) st1) as H2.
    unfold translateMentions.
    destruct (replaceMentions (String.length (Event_Text event)) env
                (Event_Text event) (config ic) st1) as [[translatedText st2] e2].
    cbn [snd] in *.
    destruct (WriteFails env (clock st2) (conn ic)); intros [= <- <- <-];
      rewrite !guardedBy_quiet by assumption;
      rewrite !writes_app, (writes_quiet _ H1), (writes_quiet _ H2);
      cbn [guardedBy app]; rewrite Hp, !Nat.eqb_refl; cbn; auto.
Qed.

Lemma writes_are_guarded_witness :
  guardedBy [{| conn := 7; config := sampleConfig |}]
    [Print ("PING :irc.example.net" +:+ CRLF); Lock 0;
     ConnWrite 7 ("PONG :irc.example.net" +:+ CRLF); Unlock 0] = true.
Proof.
  exact (proj1 (writes_are_guarded offline [{| conn := 7; config := sampleConfig |}] 0%nat)
           ("PING :irc.example.net" +:+ CRLF) "url" _ eq_refl).
Defined.

(** ** The filter and the identity cache *)

Lemma ignored_In (user : string) (ignoreUsers : list string) :
  ignored user ignoreUsers = true <-> List.In user ignoreUsers.
Proof.
  induction ignoreUsers as [|u us IH]; cbn [ignored List.In]; [easy|].
  destruct (String.eqb user u) eqn:E.
  - apply String.eqb_eq in E. subst. tauto.
  - apply String.eqb_neq in E. rewrite IH. split; [tauto|].
    intros [H|H]; [congruence | exact H].
Qed.

(** X7: an event is relayed exactly when it has no subtype, does not come
    from a bot while bots are ignored, and its sender is not on the ignore
    list. *)
Theorem shouldProcessMessage_iff (event : SlackEvent) (config : Config) :
  shouldProcessMessage event config = true <->
  Event_Subtype event = ""
  /\ (Slack_IgnoreBots config = false \/ Event_BotID event = "")
  /\ ~ List.In (Event_User event) (Slack_IgnoreUsers config).
Proof.
  unfold shouldProcessMessage. rewrite <- ignored_In.
  destruct (String.eqb (Event_Subtype event) "") eqn:Es; cbn [negb];
    [apply String.eqb_eq in Es | apply String.eqb_neq in Es];
    destruct (Slack_IgnoreBots config); cbn [andb];
    destruct (String.eqb (Event_BotID event) "") eqn:Eb; cbn [negb];
    [apply String.eqb_eq in Eb | apply String.eqb_neq in Eb
     | apply String.eqb_eq in Eb | apply String.eqb_neq in Eb
     | apply String.eqb_eq in Eb | apply String.eqb_neq in Eb
     | apply String.eqb_eq in Eb | apply String.eqb_neq in Eb];
    destruct (ignored (Event_User event) (Slack_IgnoreUsers config));
    intuition congruence.
Qed.

Lemma match_mention_head (c : ascii) (s : string) :
  c <> "<"%char -> match_mention (String c s) = None.
Proof.
  intros H. unfold match_mention.
  destruct c as [[] [] [] [] [] [] [] []]; try reflexivity. contradiction H. reflexivity.
Qed.

(** X8: a text without an opening angle bracket has no mention: it comes
    back as it is, nothing is looked up and the cache is not touched. *)
Theorem translateMentions_plain (env : Env) (text : string) (config : Config)
    (st : CacheSt) :
  mem_byte "<" text = false ->
  translateMentions env text config st = (text, st, []).
Proof.
  induction text as [|c text IH]; intros H; [reflexivity|].
  cbn [mem_byte] in H. apply orb_false_elim in H as [Hc Ht].
  rewrite translateMentions_eq, match_mention_head, (IH Ht); [reflexivity|].
  intros ->. discriminate.
Qed.

Lemma translateMentions_plain_witness :
  translateMentions offline "no mention here > at all" sampleConfig
    {| clock := 0; userCache := ∅ |}
  = ("no mention here > at all", {| clock := 0; userCache := ∅ |}, []).
Proof.
  exact (translateMentions_plain offline "no mention here > at all" sampleConfig
           {| clock := 0; userCache := ∅ |} eq_refl).
Defined.

Lemma span_id_stop (id rest : string) (c : ascii) :
  idBytes id = true -> is_id_byte c = false ->
  span_id (id +:+ String c rest) = (id, String c rest).
Proof.
  intros Hid Hc. induction id as [|x id IH].
  - cbn [String.append span_id]. now rewrite Hc.
  - cbn [idBytes] in Hid. apply andb_true_iff in Hid as [Hx Hid].
    cbn [String.append span_id]. now rewrite Hx, (IH Hid).
Qed.

(** X9: the first mention of a text, [<@U] followed by capitals and digits
    and a closing bracket, is replaced by [@] and the name the cache
    resolves the user ID to; the text before it is kept and the text after
    it is translated in turn, with the cache as the lookup left it. *)
Theorem translateMentions_mention (env : Env) (pre : string) (c : ascii)
    (id post : string) (config : Config) (st : CacheSt) :
  mem_byte "<" pre = false ->
  idBytes (String c id) = true ->
  translateMentions env (pre +:+ "<@U" +:+ String c id +:+ ">" +:+ post) config st
  = let '(name, st1, e1) :=
      getUserDisplayName env (String "U" (String c id)) config st in
    let '(out, st2, e2) := translateMentions env post config st1 in
    (pre +:+ "@" +:+ name +:+ out, st2, e1 ++ e2).
Proof.
  intros Hpre Hid. induction pre as [|x pre IH].
  - rewrite translateMentions_eq.
    assert (Hm : match_mention ("" +:+ "<@U" +:+ String c id +:+ ">" +:+ post)
                 = Some (String "U" (String c id), post)).
    { cbn [String.append]. unfold match_mention.
      change (String c (id +:+ String ">" post))
        with (String c id +:+ String ">" post).
      rewrite (span_id_stop (String c id) post ">" Hid eq_refl). reflexivity. }
    rewrite Hm. reflexivity.
  - cbn [mem_byte] in Hpre. apply orb_false_elim in Hpre as [Hx Hpre].
    cbn [String.append]. rewrite translateMentions_eq, match_mention_head.
    2:{ intros ->. discriminate. }
    cbn [String.append] in IH. rewrite (IH Hpre).
    destruct (getUserDisplayName env (String "U" (String c id)) config st)
      as [[name st1] e1].
    destruct (translateMentions env post config st1) as [[out st2] e2].
    reflexivity.
Qed.

Lemma translateMentions_mention_witness :
  (translateMentions online "hi <@U123> and <@U456>" sampleConfig
     {| clock := 0; userCache := ∅ |}).1.1
  = "hi @alice and @alice".
Proof.
  rewrite (translateMentions_mention online "hi " "1" "23" " and <@U456>" sampleConfig
             {| clock := 0; userCache := ∅ |} eq_refl eq_refl).
  vm_compute. reflexivity.
Defined.

Lemma refreshes_refl (st : CacheSt) : refreshes st st.
Proof. split; [lia | now left]. Qed.

Lemma refreshes_trans (st1 st2 st3 : CacheSt) :
  refreshes st1 st2 -> refreshes st2 st3 -> refreshes st1 st3.
Proof.
  intros [H12 E12] [H23 E23]. split; [lia|]. intros userID.
  destruct (E23 userID) as [->|(name & t & Ht & ->)].
  - destruct (E12 userID) as [->|(name & t & Ht & ->)]; [now left|].
    right. exists name, t. split; [lia | reflexivity].
  - right. exists name, t. split; [lia | reflexivity].
Qed.

Lemma getUserDisplayName_refreshes (env : Env) (userID : string) (config : Config)
    (st : CacheSt) :
  punctual env -> refreshes st (getUserDisplayName env userID config st).1.2.
Proof.
  intros Hp. unfold getUserDisplayName.
  destruct (cached st userID); [apply refreshes_refl|].
  destruct (NewRequest_ok env (usersInfoURL userID)); [|apply refreshes_refl].
  cbn [negb]. specialize (Hp (clock st) (usersInfoURL userID)).
  destruct (Do env (clock st) (usersInfoURL userID)) as [elapsed resp].
  cbn [fst] in Hp.
  assert (Hsame : refreshes st {| clock := clock st + elapsed; userCache := userCache st |}).
  { split; cbn [clock userCache]; [lia | now left]. }
  destruct resp as [| |userInfo]; [exact Hsame | exact Hsame |].
  destruct (Ok userInfo); [|exact Hsame]. cbn [negb fst snd clock userCache].
  split; cbn [clock userCache]; [lia|]. intros k.
  destruct (decide (userID = k)) as [->|Hne].
  - right. rewrite lookup_insert_eq. eexists _, (clock st + elapsed).
    split; [lia | reflexivity].
  - left. now rewrite lookup_insert_ne.
Qed.

Lemma replaceMentions_refreshes (fuel : nat) (env : Env) (text : string)
    (config : Config) (st : CacheSt) :
  punctual env -> refreshes st (replaceMentions fuel env text config st).1.2.
Proof.
  intros Hp. revert text st. induction fuel as [|fuel IH]; intros text st;
    [apply refreshes_refl|].
  cbn [replaceMentions].
  destruct (match_mention text) as [[userID rest]|].
  - pose proof (getUserDisplayName_refreshes env userID config st Hp) as H1.
    destruct (getUserDisplayName env userID config st) as [[name st1] e1].
    specialize (IH rest st1).
    destruct (replaceMentions fuel env rest config st1) as [[out st2] e2].
    cbn [fst snd] in *. exact (refreshes_trans _ _ _ H1 IH).
  - destruct text as [|c text']; [apply refreshes_refl|].
    specialize (IH text' st).
    destruct (replaceMentions fuel env text' config st) as [[out st2] e2].
    exact IH.
Qed.

Lemma createWebhookHandler_refreshes (env : Env) (h : Heap) (p : Ptr) (r : Request)
    (st : CacheSt) (w : ResponseWriter) (st' : CacheSt) (effects : list Effect) :
  punctual env ->
  createWebhookHandler env h p r st = Ret (w, st', effects) -> refreshes st st'.
Proof.
  intros Hp. unfold createWebhookHandler.
  destruct (negb (String.eqb (Method r) "POST"));
    [intros [= _ <- _]; apply refreshes_refl|].
  destruct (Body r) as [event|]; [|intros [= _ <- _]; apply refreshes_refl].
  destruct (String.eqb (Type_ event) "url_verification");
    [intros [= _ <- _]; apply refreshes_refl|].
  destruct (String.eqb (Type_ event) "event_callback"
            && String.eqb (Event_Type event) "message");
    [|intros [= _ <- _]; apply refreshes_refl].
  destruct (deref h p) as [ic|]; [|discriminate]. cbn [bind].
  destruct (negb (shouldProcessMessage event (config ic)));
    [intros [= _ <- _]; apply refreshes_refl|].
  pose proof (getUserDisplayName_refreshes env (Event_User event) (config ic) st Hp) as H1.
  destruct (getUserDisplayName env (Event_User event) (config ic) st) as [[name st1] e1].
  pose proof (replaceMentions_refreshes (String.length (Event_Text event)) env
                (Event_Text event) (config ic) st1 Hp) as H2.
  unfold translateMentions.
  destruct (replaceMentions (String.length (Event_Text event)) env
              (Event_Text event) (config ic) st1) as [[translatedText st2] e2].
  cbn [fst snd] in *.
  destruct (WriteFails env (clock st2) (conn ic)); intros [= _ <- _];
    exact (refreshes_trans _ _ _ H1 H2).
Qed.

Lemma refreshes_bounded (st st' : CacheSt) :
  refreshes st st' -> boundedExpiry st -> boundedExpiry st'.
Proof.
  intros [Hc He] Hb userID cache Hl.
  destruct (He userID) as [Heq|(name & t & Ht & Heq)]; rewrite Heq in Hl.
  - specialize (Hb userID cache Hl). lia.
  - injection Hl as <-. cbn [expiration]. lia.
Qed.

(** X10: when no lookup takes a negative time, serving a webhook request,
    with the Resolve of the sender and of every mention it makes, only
    refreshes the identity cache: the clock does not go back, no entry is
    removed, every entry that changed was stored during the request to
    expire one hour after it was stored, and if every entry expired within
    the hour before the request, so it does after. *)
Theorem cache_only_refreshed (env : Env) (h : Heap) (p : Ptr) (r : Request)
    (st : CacheSt) (w : ResponseWriter) (st' : CacheSt) (effects : list Effect) :
  punctual env ->
  createWebhookHandler env h p r st = Ret (w, st', effects) ->
  refreshes st st'
  /\ (forall userID, is_Some (userCache st !! userID) -> is_Some (userCache st' !! userID))
  /\ (boundedExpiry st -> boundedExpiry st').
Proof.
  intros Hp Hh. pose proof (createWebhookHandler_refreshes _ _ _ _ _ _ _ _ Hp Hh) as Hr.
  split; [exact Hr|]. split; [|exact (refreshes_bounded _ _ Hr)].
  intros userID Hs. destruct Hr as [_ He].
  destruct (He userID) as [->|(name & t & _ & ->)]; [exact Hs | eauto].
Qed.

Lemma online_punctual : punctual online.
Proof. intros t url. cbn. lia. Qed.

Lemma cache_only_refreshed_witness :
  exists w st' effects,
    createWebhookHandler online [{| conn := 0; config := sampleConfig |}] 0
      (post (messageEvent "U123" "hello <@U456>" "" ""))
      {| clock := 0; userCache := ∅ |} = Ret (w, st', effects)
    /\ refreshes {| clock := 0; userCache := ∅ |} st'
    /\ boundedExpiry st'.
Proof.
  destruct (createWebhookHandler online [{| conn := 0; config := sampleConfig |}] 0
              (post (messageEvent "U123" "hello <@U456>" "" ""))
              {| clock := 0; userCache := ∅ |}) as [[[w st'] effects]|] eqn:H;
    [|vm_compute in H; discriminate].
  exists w, st', effects. split; [reflexivity|].
  destruct (cache_only_refreshed online _ _ _ _ _ _ _ online_punctual H) as (Hr & _ & Hb).
  split; [exact Hr|]. apply Hb. intros userID entry Hl. discriminate.
Defined.

Lemma writtenTo_app (c : Conn) (a b : list Effect) :
  writtenTo c (a ++ b) = writtenTo c a ++ writtenTo c b.
Proof.
  induction a as [|x a IH]; [reflexivity|].
  destruct x; cbn [writtenTo List.app]; try exact IH.
  destruct (Nat.eqb c c0); [cbn [List.app]; now rewrite IH | exact IH].
Qed.

Lemma forwarded_app (a b : list Effect) :
  forwarded (a ++ b) = forwarded a ++ forwarded b.
Proof.
  induction a as [|x a IH]; [reflexivity|].
  destruct x; cbn [forwarded List.app]; try exact IH. now rewrite IH.
Qed.

Lemma quiet_silent (c : Conn) (e : list Effect) :
  quiet e = true -> writtenTo c e = [] /\ forwarded e = [].
Proof.
  induction e as [|x e IH]; intros H; [now split|].
  cbn [quiet List.forallb] in H. apply andb_true_iff in H as [Hx He].
  destruct x; try discriminate; exact (IH He).
Qed.

(** X11: a message event that passes the filter and whose text has no
    opening angle bracket is relayed as the one line
    [PRIVMSG <channel> :<name> text] ended by CR LF, written to the
    connection of the struct the handler holds, with the sender's resolved
    name, provided channel, name and text hold no percent sign; nothing is
    posted to Slack. *)
Theorem relayed_line_format (env : Env) (h : Heap) (p : Ptr) (ic : IRCConnection)
    (event : SlackEvent) (st : CacheSt) :
  h !! p = Some ic ->
  Type_ event = "event_callback" -> Event_Type event = "message" ->
  shouldProcessMessage event (config ic) = true ->
  mem_byte "<" (Event_Text event) = false ->
  let '(name, st1, _) := getUserDisplayName env (Event_User event) (config ic) st in
  mem_byte "%" (IRC_Channel (config ic) +:+ name +:+ Event_Text event) = false ->
  exists w effects,
    createWebhookHandler env h p (post event) st = Ret (w, st1, effects)
    /\ writtenTo (conn ic) effects
       = ["PRIVMSG " +:+ IRC_Channel (config ic) +:+ " :<" +:+ name +:+ "> "
            +:+ Event_Text event +:+ CRLF]
    /\ forwarded effects = [].
Proof.
  intros Hp Ht Hm Hs Hb.
  pose proof (getUserDisplayName_quiet env (Event_User event) (config ic) st) as Hq.
  unfold createWebhookHandler, post, deref. cbn [Method Body].
  rewrite Ht, Hm, Hp. cbn [String.eqb Ascii.eqb Bool.eqb negb andb bind].
  rewrite Hs. cbn [negb].
  destruct (getUserDisplayName env (Event_User event) (config ic) st) as [[name st1] e1].
  cbn [snd] in Hq. intros Hpc.
  assert (Hplain : forall text st,
             mem_byte "<" text = false ->
             translateMentions env text (config ic) st = (text, st, [])).
  { clear. induction text as [|c text IH]; intros st H; [reflexivity|].
    cbn [mem_byte] in H. apply orb_false_elim in H as [Hc Ht].
    rewrite translateMentions_eq, match_mention_head, (IH _ Ht); [reflexivity|].
    intros ->. discriminate. }
  rewrite (Hplain _ st1 Hb).
  rewrite !mem_byte_append in Hpc.
  apply orb_false_elim in Hpc as [Hc Hpc]. apply orb_false_elim in Hpc as [Hn Hx].
  rewrite Sprintf_plain.
  2:{ rewrite !mem_byte_append, Hc, Hn, Hx. reflexivity. }
  destruct (quiet_silent (conn ic) e1 Hq) as [Hw Hf].
  destruct (WriteFails env (clock st1) (conn ic)); eexists _, _;
    (split; [reflexivity|]);
    rewrite !writtenTo_app, !forwarded_app, Hw, Hf; cbn [List.app writtenTo forwarded];
    rewrite Nat.eqb_refl; split; reflexivity.
Qed.

Lemma relayed_line_format_witness :
  exists w effects,
    createWebhookHandler online [{| conn := 7; config := sampleConfig |}] 0
      (post (messageEvent "U123" "2 > 1, is it not?" "" ""))
      {| clock := 0; userCache := ∅ |}
    = Ret (w, {| clock := 250000000;
                 userCache := {[ "U123" := {| displayName := "alice";
                                              expiration := 250000000 + cacheDuration |} ]} |},
           effects)
    /\ writtenTo 7 effects = ["PRIVMSG #yourchannel :<alice> 2 > 1, is it not?" +:+ CRLF]
    /\ forwarded effects = [].
Proof.
  exact (relayed_line_format online [{| conn := 7; config := sampleConfig |}] 0%nat
           {| conn := 7; config := sampleConfig |}
           (messageEvent "U123" "2 > 1, is it not?" "" "")
           {| clock := 0; userCache := ∅ |} eq_refl eq_refl eq_refl eq_refl eq_refl eq_refl).
Defined.

Lemma readies_app (a b : list Effect) : readies (a ++ b) = (readies a + readies b)%nat.
Proof. unfold readies. now rewrite List.filter_app, List.length_app. Qed.

Lemma readies_quiet (e : list Effect) : quiet e = true -> readies e = 0%nat.
Proof.
  induction e as [|x e IH]; intros H; [reflexivity|].
  cbn [quiet List.forallb] in H. apply andb_true_iff in H as [Hx He].
  destruct x; try discriminate; exact (IH He).
Qed.

Lemma handleMessage_no_ready (h : Heap) (message : string) (p : Ptr) (url : string)
    (effects : list Effect) :
  handleMessage h message p url = Ret effects -> readies effects = 0%nat.
Proof.
  rewrite handleMessage_dispatch.
  destruct (classify message).
  - destruct (deref h p); cbn [bind]; intros [= <-]; reflexivity.
  - destruct (extractNickname message); cbn [bind]; intros [= <-]; reflexivity.
  - destruct (extractNickname message); cbn [bind]; intros [= <-]; reflexivity.
  - destruct (extractNickname message); cbn [bind]; [|discriminate].
    destruct (extractActionMessage message); cbn [bind]; intros [= <-]; reflexivity.
  - destruct (extractNickname message); cbn [bind]; [|discriminate].
    destruct (extractIRCMessage message); cbn [bind]; intros [= <-]; reflexivity.
  - intros [= <-]; reflexivity.
Qed.

Lemma createWebhookHandler_no_ready (env : Env) (h : Heap) (p : Ptr) (r : Request)
    (st : CacheSt) (w : ResponseWriter) (st' : CacheSt) (effects : list Effect) :
  createWebhookHandler env h p r st = Ret (w, st', effects) -> readies effects = 0%nat.
Proof.
  unfold createWebhookHandler.
  destruct (negb (String.eqb (Method r) "POST")); [intros [= _ _ <-]; reflexivity|].
  destruct (Body r) as [event|]; [|intros [= _ _ <-]; reflexivity].
  destruct (String.eqb (Type_ event) "url_verification");
    [intros [= _ _ <-]; reflexivity|].
  destruct (String.eqb (Type_ event) "event_callback"
            && String.eqb (Event_Type event) "message");
    [|intros [= _ _ <-]; reflexivity].
  destruct (deref h p) as [ic|]; [|discriminate]. cbn [bind].
  destruct (negb (shouldProcessMessage event (config ic)));
    [intros [= _ _ <-]; reflexivity|].
  pose proof (getUserDisplayName_quiet env (Event_User event) (config ic) st) as H1.
  destruct (getUserDisplayName env (Event_User event) (config ic) st) as [[name st1] e1].
  pose proof (replaceMentions_quiet (String.length (Event_Text event)) env
                (Event_Text event) (config ic) st1) as H2.
  unfold translateMentions.
  destruct (replaceMentions (String.length (Event_Text event)) env
              (Event_Text event) (config ic) st1) as [[translatedText st2] e2].
  cbn [fst snd] in *.
  destruct (WriteFails env (clock st2) (conn ic)); intros [= _ _ <-];
    rewrite !readies_app, (readies_quiet _ H1), (readies_quiet _ H2); reflexivity.
Qed.

(** What holds of the trace before and after the first connection. *)
Lemma step_readiness (env : Env) (config : Config) (e : Event) (w w' : World) :
  step env config e w = Some w' ->
  pointers w /\ connected w
  /\ readies (trace w) = (if firstConnection w then 0 else 1)%nat
  /\ (firstConnection w = true -> writes (trace w) = 0%nat) ->
  pointers w' /\ connected w'
  /\ readies (trace w') = (if firstConnection w' then 0 else 1)%nat
  /\ (firstConnection w' = true -> writes (trace w') = 0%nat).
Proof.
  intros Hs (Hpt & Hcn & Hr & Hw).
  split; [exact (step_pointers env config e w w' Hs Hpt)|].
  split; [exact (step_connected env config e w w' Hs Hcn)|].
  destruct (step_cases env config e w w' Hs)
    as [(r & _ & _ & ->)|[(r & c & _ & Hp & ->)
        |[(r & resp & st & effects & p & _ & Hh & Hc & ->)|(d & _ & _ & ->)]]].
  - unfold dialed. destruct r as [c|].
    + cbn [firstConnection trace]. split; [|discriminate].
      rewrite !readies_app, Hr. destruct (firstConnection w); reflexivity.
    + destruct (firstConnection w) eqn:Hf; cbn [firstConnection trace]; rewrite ?Hf.
      * split; [rewrite readies_app, Hr, ?Hf; reflexivity|].
        intros _. rewrite writes_app, (Hw eq_refl). reflexivity.
      * split; [rewrite readies_app, Hr, ?Hf; reflexivity | discriminate].
  - pose proof (Hcn c Hp) as Hf. unfold readLine.
    destruct r as [message|].
    + destruct (ircConn w) as [p|]; [|split; [exact Hr | exact Hw]].
      destruct (handleMessage (heap w) message p (Slack_WebhookURL config))
        as [effects|] eqn:Hm; cbn [firstConnection trace]; rewrite Hf;
        (split; [|discriminate]); rewrite readies_app, Hr, Hf.
      * now rewrite (handleMessage_no_ready _ _ _ _ _ Hm).
      * reflexivity.
    + cbn [firstConnection trace]. rewrite Hf. split; [|discriminate].
      rewrite readies_app, Hr, Hf. reflexivity.
  - cbn [firstConnection trace].
    assert (Hf : firstConnection w = false).
    { destruct Hpt as [(_ & _ & Hn & _)|(Hf & _)]; [congruence | exact Hf]. }
    rewrite Hf. split; [|discriminate].
    rewrite readies_app, Hr, Hf, (createWebhookHandler_no_ready _ _ _ _ _ _ _ _ Hc).
    reflexivity.
  - cbn [firstConnection trace]. split; [exact Hr | exact Hw].
Qed.

(** X12: in every world the process reaches, the connection has been sent
    on connectionReady exactly once if a connection has been made and not
    at all before; until the first connection is made no webhook request
    is served, nothing has been written to any connection and no line is
    read; from then on the handler is registered. *)
Theorem ready_once (env : Env) (config : Config) (t0 : Z) (events : list Event)
    (w : World) :
  run env config events (start config t0) = Some w ->
  readies (trace w) = (if firstConnection w then 0 else 1)%nat
  /\ (firstConnection w = true ->
      writes (trace w) = 0%nat
      /\ forall e, (exists r, e = Serve r) \/ (exists r, e = Line r) ->
                   step env config e w = None)
  /\ (firstConnection w = false -> handler w = Some 0%nat).
Proof.
  intros Hr.
  destruct (run_invariant env config _ (step_readiness env config) _ _ _ Hr)
    as (Hpt & Hcn & Hrd & Hw).
  { split; [apply start_pointers|]. split; [apply start_connected|].
    split; [reflexivity | intros _; reflexivity]. }
  split; [exact Hrd|]. split.
  - intros Hf. split; [exact (Hw Hf)|].
    destruct Hpt as [(_ & _ & Hn & _)|(Hf' & _)]; [|congruence].
    intros e [[r ->]|[r ->]].
    + unfold step, serve. rewrite Hn. now destruct (phase w).
    + unfold step, manageIRCConnection. destruct (phase w) as [|c| |] eqn:Hp;
        try reflexivity.
      specialize (Hcn c Hp). congruence.
  - intros Hf. destruct Hpt as [(Hf' & _)|(_ & _ & Hh & _)]; [congruence | exact Hh].
Qed.

Lemma ready_once_witness :
  readies (trace (dialed sampleConfig (Some 4%nat)
                    (readLine sampleConfig None
                       (dialed sampleConfig (Some 3%nat)
                          (tick 5 (start sampleConfig 0)))))) = 1%nat.
Proof.
  exact (proj1 (ready_once online sampleConfig 0
                  [Tick 5; Dialed (Some 3%nat); Line None; Dialed (Some 4%nat)] _
                  eq_refl)).
Defined.

Lemma step_readsCurrent (env : Env) (config : Config) (e : Event) (w w' : World) :
  step env config e w = Some w' -> readsCurrent w -> readsCurrent w'.
Proof.
  intros Hs Hi.
  destruct (step_cases env config e w w' Hs)
    as [(r & _ & _ & ->)|[(r & c & _ & Hp & ->)
        |[(r & resp & st & effects & p & _ & _ & _ & ->)|(d & _ & _ & ->)]]];
    [| |exact Hi|exact Hi].
  - unfold dialed. destruct r as [c|].
    + intros c' [= <-]. cbn [ircConn heap].
      exists (List.length (heap w)), {| conn := c; config := config |}.
      split; [reflexivity|]. split; [|reflexivity].
      apply list_lookup_middle. reflexivity.
    + destruct (firstConnection w); intros c'; discriminate.
  - unfold readLine. destruct r as [message|]; [|intros c'; discriminate].
    destruct (ircConn w) as [p|] eqn:Hc; [|exact Hi].
    destruct (handleMessage (heap w) message p (Slack_WebhookURL config));
      intros c'; cbn [phase ircConn heap]; [|discriminate].
    intros Hp'. rewrite <- Hc. exact (Hi c' Hp').
Qed.

(** X13: in every world the process reaches while it reads from a
    connection, a PING line is accepted and its answer is written to that
    very connection, between Lock and Unlock of the struct the manager
    holds; the manager goes on reading from the same connection. *)
Theorem ping_answered_on_current (env : Env) (config : Config) (t0 : Z)
    (events : list Event) (w : World) (c : Conn) (message : string) :
  run env config events (start config t0) = Some w ->
  phase w = Reading c ->
  HasPrefix message "PING" = true ->
  exists p w',
    ircConn w = Some p
    /\ step env config (Line (Some message)) w = Some w'
    /\ trace w' = trace w ++ [Print message; Lock p;
                              ConnWrite c (Sprintf (Replace message "PING" "PONG" 1));
                              Unlock p]
    /\ phase w' = Reading c /\ ircConn w' = Some p.
Proof.
  intros Hr Hp Hping.
  assert (Hi : readsCurrent w).
  { apply (run_invariant env config _ (step_readsCurrent env config) _ _ _ Hr).
    intros c'. discriminate. }
  destruct (Hi c Hp) as (p & ic & Hc & Hl & <-).
  exists p. unfold step, manageIRCConnection, readLine, handleMessage, deref.
  rewrite Hp, Hc, Hping, Hl. cbn [bind].
  eexists. split; [reflexivity|]. split; [reflexivity|].
  cbn [trace phase ircConn]. auto.
Qed.

Lemma ping_answered_on_current_witness :
  exists p w',
    ircConn
      (dialed sampleConfig (Some 4%nat)
         (readLine sampleConfig None
            (dialed sampleConfig (Some 3%nat) (start sampleConfig 0)))) = Some p
    /\ step online sampleConfig (Line (Some ("PING :x" +:+ CRLF)))
      (dialed sampleConfig (Some 4%nat)
         (readLine sampleConfig None
            (dialed sampleConfig (Some 3%nat) (start sampleConfig 0)))) = Some w'
    /\ trace w'
       = trace
      (dialed sampleConfig (Some 4%nat)
         (readLine sampleConfig None
            (dialed sampleConfig (Some 3%nat) (start sampleConfig 0))))
         ++ [Print ("PING :x" +:+ CRLF); Lock p;
             ConnWrite 4 (Sprintf (Replace ("PING :x" +:+ CRLF) "PING" "PONG" 1));
             Unlock p]
    /\ phase w' = Reading 4%nat /\ ircConn w' = Some p.
Proof.
  exact (ping_answered_on_current online sampleConfig 0
           [Dialed (Some 3%nat); Line None; Dialed (Some 4%nat)] _ 4%nat
           ("PING :x" +:+ CRLF) eq_refl eq_refl eq_refl).
Defined.

Lemma step_boundedExpiry (env : Env) (config : Config) (t0 : Z) (e : Event)
    (w w' : World) :
  punctual env ->
  step env config e w = Some w' ->
  t0 <= clock (cache w) /\ boundedExpiry (cache w) ->
  t0 <= clock (cache w') /\ boundedExpiry (cache w').
Proof.
  intros Hpu Hs [Ht Hb].
  destruct (step_cases env config e w w' Hs)
    as [(r & _ & _ & ->)|[(r & c & _ & Hp & ->)
        |[(r & resp & st & effects & p & _ & _ & Hc & ->)|(d & _ & Hd & ->)]]].
  - unfold dialed. destruct r; [|destruct (firstConnection w)]; now split.
  - unfold readLine. destruct r as [message|]; [|now split].
    destruct (ircConn w) as [p|]; [|now split].
    destruct (handleMessage (heap w) message p (Slack_WebhookURL config)); now split.
  - cbn [cache].
    pose proof (createWebhookHandler_refreshes _ _ _ _ _ _ _ _ Hpu Hc) as Hr.
    split; [destruct Hr; lia | exact (refreshes_bounded _ _ Hr Hb)].
  - cbn [cache tick clock]. split; [lia|].
    intros userID entry Hl. specialize (Hb userID entry Hl).
    cbn [clock userCache] in *. lia.
Qed.

(** X14: when no lookup takes a negative time, in every world the process
    reaches the clock is not before the start and every entry of the
    identity cache expires at most one hour from now: no name is served
    from the cache for more than an hour after some Resolve stored it,
    whatever requests and lines came in between. *)
Theorem cache_entries_expire_within_the_hour (env : Env) (config : Config) (t0 : Z)
    (events : list Event) (w : World) :
  punctual env ->
  run env config events (start config t0) = Some w ->
  t0 <= clock (cache w)
  /\ forall userID entry,
       userCache (cache w) !! userID = Some entry ->
       expiration entry <= clock (cache w) + cacheDuration
       /\ forall st', clock st' = clock (cache w) + cacheDuration ->
                      userCache st' = userCache (cache w) ->
                      cached st' userID = None.
Proof.
  intros Hpu Hr.
  destruct (run_invariant env config _
              (fun e w w' Hs => step_boundedExpiry env config t0 e w w' Hpu Hs) _ _ _ Hr)
    as [Ht Hb].
  { split; [cbn; lia | intros userID entry; discriminate]. }
  split; [exact Ht|]. intros userID entry Hl.
  pose proof (Hb userID entry Hl) as Hle. split; [exact Hle|].
  intros st' Hc Hu. unfold cached. rewrite Hu, Hl, Hc.
  destruct (Z.ltb_spec (clock (cache w) + cacheDuration) (expiration entry));
    [lia | reflexivity].
Qed.

Lemma cache_entries_expire_within_the_hour_witness :
  exists w,
    run online sampleConfig
      [Dialed (Some 3%nat); Serve (post (messageEvent "U123" "hello" "" "")); Tick 10]
      (start sampleConfig 0) = Some w
    /\ 0 <= clock (cache w).
Proof.
  eexists. split; [reflexivity|].
  exact (proj1 (cache_entries_expire_within_the_hour online sampleConfig 0
                  [Dialed (Some 3%nat); Serve (post (messageEvent "U123" "hello" "" ""));
                   Tick 10] _ online_punctual eq_refl)).
Defined.

Lemma written_insert_same (ws : list Writer) (i : nat) (w w' : Writer) :
  ws !! i = Some w -> line w' = line w -> pastWrite w' = pastWrite w ->
  List.map line (List.filter pastWrite (<[i := w']> ws))
  = List.map line (List.filter pastWrite ws).
Proof.
  revert i. induction ws as [|x ws IH]; intros i Hl Hline Hpast; [reflexivity|].
  destruct i as [|i]; cbn in Hl |- *.
  - injection Hl as ->. rewrite Hpast.
    destruct (pastWrite w); cbn [List.map]; now rewrite ?Hline.
  - specialize (IH i Hl Hline Hpast).
    destruct (pastWrite x); cbn [List.map]; [f_equal|]; exact IH.
Qed.

Lemma written_insert_new (ws : list Writer) (i : nat) (w w' : Writer) :
  ws !! i = Some w -> line w' = line w -> pastWrite w = false -> pastWrite w' = true ->
  Permutation (List.map line (List.filter pastWrite ws) ++ [line w])
    (List.map line (List.filter pastWrite (<[i := w']> ws))).
Proof.
  revert i. induction ws as [|x ws IH]; intros i Hl Hline Hw Hw'; [discriminate|].
  destruct i as [|i]; cbn in Hl |- *.
  - injection Hl as ->. rewrite Hw, Hw'. cbn [List.map]. rewrite Hline.
    symmetry. apply Permutation_cons_append.
  - specialize (IH i Hl Hline Hw Hw').
    destruct (pastWrite x); cbn [List.map List.app]; [now constructor | exact IH].
Qed.

Lemma move_broken (i : nat) (fail : bool) (s : Session) :
  broken (move i fail s) = false -> broken s = false.
Proof.
  unfold move. destruct (writers s !! i) as [w|]; [|auto].
  destruct (pc w) as [|rest| |]; [destruct (mutex s); auto | | auto | auto].
  destruct (broken s || fail) eqn:Hbf; [discriminate|].
  apply orb_false_elim in Hbf as [Hb _]. now destruct rest.
Qed.

(** One move loses no line and writes none twice. *)
Lemma move_delivered (i : nat) (fail : bool) (s : Session) :
  exclusive s -> delivered s -> delivered (move i fail s).
Proof.
  intros Hex Hd Hb. pose proof (Hd (move_broken _ _ _ Hb)) as Hd'.
  destruct Hd' as (whole & partial & Hwire & Hperm & Hcase).
  revert Hb. unfold move.
  destruct (writers s !! i) as [w|] eqn:Hi; [|intros _; now exists whole, partial].
  destruct (pc w) as [|rest| |] eqn:Hpc.
  - (* Lock *)
    destruct (mutex s) as [holder|] eqn:Hm; [intros _; now exists whole, partial|].
    intros _.
    assert (Hno : forall j x r, writers s !! j = Some x -> pc x <> InWrite r).
    { intros j x r Hj Hx.
      assert (Hc : inCritical x = true) by (unfold inCritical; now rewrite Hx).
      specialize (Hex j x Hj Hc). congruence. }
    assert (Hp : partial = "").
    { destruct Hcase as [(Hp & _)|(j & x & r & Hj & Hx & _)]; [exact Hp|].
      exfalso. exact (Hno j x r Hj Hx). }
    exists whole, "". subst partial. split; [exact Hwire|]. split.
    + unfold writtenLines. cbn [writers].
      rewrite (written_insert_same _ _ w); [exact Hperm | exact Hi | reflexivity|].
      unfold pastWrite. now rewrite Hpc.
    + right. exists i, {| line := line w; pc := InWrite (line w) |}, (line w).
      split; [|split; reflexivity].
      apply list_lookup_insert_eq. eapply lookup_lt_Some. exact Hi.
  - (* inside Fprintf *)
    destruct (broken s || fail) eqn:Hbf; [discriminate|]. intros _.
    assert (Hcw : inCritical w = true) by (unfold inCritical; now rewrite Hpc).
    pose proof (Hex i w Hi Hcw) as Hm.
    assert (Hsame : forall j x r, writers s !! j = Some x -> pc x = InWrite r ->
                                  j = i /\ x = w /\ r = rest).
    { intros j x r Hj Hx.
      assert (Hc : inCritical x = true) by (unfold inCritical; now rewrite Hx).
      specialize (Hex j x Hj Hc). rewrite Hm in Hex. injection Hex as <-.
      rewrite Hi in Hj. injection Hj as <-. rewrite Hpc in Hx. injection Hx as <-.
      auto. }
    destruct Hcase as [(_ & Hno)|(j & x & r & Hj & Hx & Hl)];
      [exfalso; exact (Hno i w rest Hi Hpc)|].
    destruct (Hsame j x r Hj Hx) as (-> & -> & ->).
    destruct rest as [|c rest'].
    + exists (whole ++ [line w]), "". split; [|split].
      * cbn [wire]. rewrite Hwire, flatten_app. cbn [flatten].
        rewrite Hl, !append_empty_r. reflexivity.
      * unfold writtenLines. cbn [writers].
        transitivity (List.map line (List.filter pastWrite (writers s)) ++ [line w]).
        -- apply Permutation_app_tail. exact Hperm.
        -- apply written_insert_new; [exact Hi | reflexivity | | reflexivity].
           unfold pastWrite. now rewrite Hpc.
      * left. split; [reflexivity|]. cbn [writers]. intros j x r Hj' Hx'.
        destruct (lookup_replaced _ _ _ _ _ _ Hi Hj') as [[_ ->]|[Hne Hj'']];
          [discriminate|].
        destruct (Hsame j x r Hj'' Hx') as (-> & _). contradiction.
    + exists whole, (partial +:+ String c ""). split; [|split].
      * cbn [wire]. now rewrite Hwire, append_assoc.
      * unfold writtenLines. cbn [writers].
        rewrite (written_insert_same _ _ w); [exact Hperm | exact Hi | reflexivity|].
        unfold pastWrite. now rewrite Hpc.
      * right. exists i, {| line := line w; pc := InWrite rest' |}, rest'.
        split; [apply list_lookup_insert_eq; eapply lookup_lt_Some; exact Hi|].
        split; [reflexivity|]. cbn [line]. rewrite Hl, append_assoc. reflexivity.
  - (* Unlock *)
    intros _.
    assert (Hcw : inCritical w = true) by (unfold inCritical; now rewrite Hpc).
    pose proof (Hex i w Hi Hcw) as Hm.
    exists whole, partial. split; [exact Hwire|]. split.
    + unfold writtenLines. cbn [writers].
      rewrite (written_insert_same _ _ w); [exact Hperm | exact Hi | reflexivity|].
      unfold pastWrite. now rewrite Hpc.
    + cbn [writers].
      destruct Hcase as [(Hp & Hno)|(j & x & r & Hj & Hx & _)].
      * left. split; [exact Hp|]. intros j x r Hj Hx.
        destruct (lookup_replaced _ _ _ _ _ _ Hi Hj) as [[_ ->]|[_ Hj']]; [discriminate|].
        exact (Hno j x r Hj' Hx).
      * exfalso.
        assert (Hc : inCritical x = true) by (unfold inCritical; now rewrite Hx).
        specialize (Hex j x Hj Hc). rewrite Hm in Hex. injection Hex as <-.
        rewrite Hi in Hj. injection Hj as <-. congruence.
  - intros _. now exists whole, partial.
Qed.

Lemma schedule_delivered (lines : list string) (moves : list (nat * bool)) (s : Session) :
  framed lines s -> delivered s -> delivered (schedule moves s).
Proof.
  revert s. induction moves as [|[i fail] moves IH]; intros s Hf Hd; [exact Hd|].
  cbn [schedule]. apply IH; [now apply move_framed|].
  apply move_delivered; [|exact Hd]. now destruct Hf as (_ & Hex & _).
Qed.

Lemma spawned_at_lock (ircMessages : list string) (i : nat) (w : Writer) :
  List.map spawn ircMessages !! i = Some w -> pc w = AtLock.
Proof.
  revert i. induction ircMessages as [|m ms IH]; intros i Hi; [discriminate|].
  destruct i as [|i]; cbn in Hi; [now injection Hi as <- | exact (IH i Hi)].
Qed.

Lemma session_delivered (ircMessages : list string) : delivered (session ircMessages).
Proof.
  intros _. exists [], "". split; [reflexivity|]. split.
  - unfold writtenLines. cbn [session writers].
    induction ircMessages as [|m ms IH]; [constructor | exact IH].
  - left. split; [reflexivity|]. intros i w rest Hi. cbn [session writers] in Hi.
    rewrite (spawned_at_lock _ _ _ Hi). discriminate.
Qed.

Lemma all_finished_written (ws : list Writer) :
  (forall w, List.In w ws -> pc w = Finished) -> List.filter pastWrite ws = ws.
Proof.
  induction ws as [|x ws IH]; intros H; [reflexivity|]. cbn [List.filter].
  unfold pastWrite at 1. rewrite (H x (or_introl eq_refl)).
  f_equal. apply IH. intros w Hw. apply H. now right.
Qed.

(** X15: however the guarded writes are interleaved, as long as the
    connection has not failed no line is lost and none is written twice:
    the bytes on the connection are the lines of the writers that are past
    their Fprintf, each once, in some order, followed by the part already
    written of the line under way; with the mutex free there is no such
    part, and once every writer has finished the bytes are the lines of
    all the requests. *)
Theorem guarded_writes_lose_nothing (ircMessages : list string)
    (moves : list (nat * bool)) :
  broken (schedule moves (session ircMessages)) = false ->
  exists whole partial,
    wire (schedule moves (session ircMessages)) = flatten whole +:+ partial
    /\ Permutation whole (writtenLines (schedule moves (session ircMessages)))
    /\ (mutex (schedule moves (session ircMessages)) = None -> partial = "")
    /\ ((forall w, List.In w (writers (schedule moves (session ircMessages))) ->
                   pc w = Finished) ->
        partial = "" /\ Permutation whole (List.map Sprintf ircMessages)).
Proof.
  intros Hb.
  pose proof (schedule_framed _ moves _ (session_framed ircMessages)) as Hf.
  destruct (schedule_delivered _ moves _ (session_framed ircMessages)
              (session_delivered ircMessages) Hb)
    as (whole & partial & Hwire & Hperm & Hcase).
  destruct Hf as (Hlines & Hex & _).
  exists whole, partial. split; [exact Hwire|]. split; [exact Hperm|]. split.
  - intros Hm. destruct Hcase as [(Hp & _)|(j & x & r & Hj & Hx & _)]; [exact Hp|].
    assert (Hc : inCritical x = true) by (unfold inCritical; now rewrite Hx).
    specialize (Hex j x Hj Hc). congruence.
  - intros Hall. split.
    + destruct Hcase as [(Hp & _)|(j & x & r & Hj & Hx & _)]; [exact Hp|].
      apply list_elem_of_lookup_2, list_elem_of_In in Hj.
      rewrite (Hall x Hj) in Hx. discriminate.
    + unfold writtenLines in Hperm.
      rewrite (all_finished_written _ Hall), Hlines in Hperm. exact Hperm.
Qed.

Lemma guarded_writes_lose_nothing_witness :
  exists whole partial,
    wire (schedule (List.flat_map (fun _ => [(1%nat, false); (0%nat, false)]) (List.seq 0 13))
            (session ["ab" +:+ CRLF; "cd" +:+ CRLF]))
    = flatten whole +:+ partial
    /\ Permutation whole
         (writtenLines
            (schedule (List.flat_map (fun _ => [(1%nat, false); (0%nat, false)]) (List.seq 0 13))
               (session ["ab" +:+ CRLF; "cd" +:+ CRLF])))
    /\ (mutex (schedule (List.flat_map (fun _ => [(1%nat, false); (0%nat, false)]) (List.seq 0 13))
                 (session ["ab" +:+ CRLF; "cd" +:+ CRLF])) = None -> partial = "")
    /\ ((forall w,
           List.In w (writers
                        (schedule (List.flat_map (fun _ => [(1%nat, false); (0%nat, false)])
                                     (List.seq 0 13))
                           (session ["ab" +:+ CRLF; "cd" +:+ CRLF]))) ->
           pc w = Finished) ->
        partial = "" /\ Permutation whole (List.map Sprintf ["ab" +:+ CRLF; "cd" +:+ CRLF])).
Proof.
  apply (guarded_writes_lose_nothing ["ab" +:+ CRLF; "cd" +:+ CRLF]
           (List.flat_map (fun _ => [(1%nat, false); (0%nat, false)]) (List.seq 0 13))).
  vm_compute. reflexivity.
Defined.

(** X16: at no point of any interleaving are two writers between Lock
    and Unlock: a writer in its critical section is the one that holds the
    mutex, and a writer that waits at Lock while the mutex is held does
    not move. *)
Theorem mutual_exclusion (ircMessages : list string) (moves : list (nat * bool))
    (i j : nat) (wi wj : Writer) :
  writers (schedule moves (session ircMessages)) !! i = Some wi ->
  writers (schedule moves (session ircMessages)) !! j = Some wj ->
  inCritical wi = true ->
  (inCritical wj = true -> i = j)
  /\ (pc wj = AtLock ->
      forall fail, move j fail (schedule moves (session ircMessages))
                   = schedule moves (session ircMessages)).
Proof.
  intros Hi Hj Hci.
  destruct (schedule_framed _ moves _ (session_framed ircMessages)) as (_ & Hex & _).
  pose proof (Hex i wi Hi Hci) as Hm. split.
  - intros Hcj. pose proof (Hex j wj Hj Hcj) as Hm'. congruence.
  - intros Hpc fail. unfold move. now rewrite Hj, Hpc, Hm.
Qed.

Lemma mutual_exclusion_witness :
  move 1 false (schedule [(0%nat, false); (0%nat, false); (1%nat, false)]
                  (session ["ab" +:+ CRLF; "cd" +:+ CRLF]))
  = schedule [(0%nat, false); (0%nat, false); (1%nat, false)]
      (session ["ab" +:+ CRLF; "cd" +:+ CRLF]).
Proof.
  exact (proj2 (mutual_exclusion ["ab" +:+ CRLF; "cd" +:+ CRLF]
                  [(0%nat, false); (0%nat, false); (1%nat, false)] 0%nat 1%nat
                  _ _ eq_refl eq_refl eq_refl) eq_refl false).
Defined.

(** ** Arguments of the background process *)

Lemma withoutDaemonFlag_In (args : list string) (a : string) :
  List.In a (withoutDaemonFlag args) <-> List.In a args /\ a <> "-d".
Proof.
  induction args as [|x args IH]; [cbn; tauto|].
  cbn [withoutDaemonFlag]. destruct (String.eqb_spec x "-d") as [->|Hx]; cbn [negb List.In].
  - rewrite IH. split; [tauto|]. intros [[<-|H] Hne]; [contradiction | tauto].
  - rewrite IH. split.
    + intros [<-|[H Hne]]; [split; [now left | exact Hx] | tauto].
    + intros [[<-|H] Hne]; [now left | tauto].
Qed.

Lemma withoutDaemonFlag_sublist (args : list string) :
  sublist (withoutDaemonFlag args) args.
Proof.
  induction args as [|x args IH]; [constructor|].
  cbn [withoutDaemonFlag]. destruct (negb (String.eqb x "-d")); now constructor.
Qed.

Lemma withoutDaemonFlag_id (args : list string) :
  ~ List.In "-d" args -> withoutDaemonFlag args = args.
Proof.
  induction args as [|x args IH]; intros H; [reflexivity|].
  cbn [withoutDaemonFlag]. destruct (String.eqb_spec x "-d") as [->|Hx]; cbn [negb].
  - exfalso. apply H. now left.
  - f_equal. apply IH. intros Hin. apply H. now right.
Qed.

(** X17: the background process is started with the arguments of the
    foreground one, the program name left out, in their order and without
    any argument that is exactly [-d]: no [-d] is passed on, every other
    argument is, nothing is added, an argument list without [-d] is passed
    as it is, and passing the result through the loop again changes
    nothing. *)
Theorem daemon_child_arguments (executable : string) (args : list string) :
  exists childArgs,
    daemonArgs (executable :: args) = Ret childArgs
    /\ ~ List.In "-d" childArgs
    /\ (forall a, a <> "-d" -> List.In a args -> List.In a childArgs)
    /\ sublist childArgs args
    /\ (~ List.In "-d" args -> childArgs = args)
    /\ daemonArgs (executable :: childArgs) = Ret childArgs.
Proof.
  exists (withoutDaemonFlag args). split; [reflexivity|].
  assert (Hno : ~ List.In "-d" (withoutDaemonFlag args)).
  { intros H. apply withoutDaemonFlag_In in H. now destruct H. }
  split; [exact Hno|]. split.
  - intros a Ha Hin. apply withoutDaemonFlag_In. now split.
  - split; [apply withoutDaemonFlag_sublist|].
    split; [apply withoutDaemonFlag_id|].
    cbn [daemonArgs]. now rewrite (withoutDaemonFlag_id _ Hno).
Qed.

(** ** Lines without a sender, trimmed text, percent signs *)

Lemma TrimRight_trimmed (s : string) : ends_with_eol (TrimRight s CRLF) = false.
Proof.
  induction s as [|c s IH]; [reflexivity|].
  cbn [TrimRight]. destruct (TrimRight s CRLF) as [|d t] eqn:E.
  - destruct (mem_byte c CRLF) eqn:Hc; [reflexivity|]. cbn [ends_with_eol]. exact Hc.
  - exact IH.
Qed.

(** X18: the text extractIRCMessage returns never ends in a carriage
    return or a line feed, whatever line it is given, and the function
    always returns. *)
Theorem extracted_text_is_trimmed (message : string) :
  exists text, extractIRCMessage message = Ret text /\ ends_with_eol text = false.
Proof.
  destruct (extractIRCMessage_total message) as [text Ht].
  exists text. split; [exact Ht|].
  revert Ht. unfold extractIRCMessage.
  destruct (Index message " PRIVMSG " =? -1); [now intros [= <-]|].
  destruct (slice_from message (Index message " PRIVMSG " + len " PRIVMSG "))
    as [rest|]; cbn [bind]; [|discriminate].
  destruct (Index rest " :" =? -1); [now intros [= <-]|].
  destruct (slice_from rest (Index rest " :" + 2)) as [tail|]; cbn [bind]; [|discriminate].
  intros [= <-]. apply TrimRight_trimmed.
Qed.



Lemma Sprintf_after_plain (pre s : string) :
  mem_byte "%" pre = false -> Sprintf (pre +:+ s) = pre +:+ Sprintf s.
Proof.
  induction pre as [|c pre IH]; intros H; [reflexivity|].
  cbn [mem_byte] in H. apply orb_false_elim in H as [Hc Hp].
  cbn [String.append]. rewrite Sprintf_eq.
  rewrite Ascii.eqb_sym in Hc. rewrite Hc, (IH Hp). reflexivity.
Qed.

Lemma Sprintf_percent_percent (s : string) : Sprintf ("%%" +:+ s) = "%" +:+ Sprintf s.
Proof. rewrite Sprintf_eq. reflexivity. Qed.

(** X20: the relayed line is used as a format: in a message event that
    passes the filter, a doubled percent sign in the text reaches IRC as a
    single one (channel, name and the rest of the text holding no percent
    sign, the text no opening angle bracket). *)
Theorem relayed_percent_signs_collapse (env : Env) (h : Heap) (p : Ptr)
    (ic : IRCConnection) (event : SlackEvent) (st : CacheSt) (a b : string) :
  h !! p = Some ic ->
  Type_ event = "event_callback" -> Event_Type event = "message" ->
  shouldProcessMessage event (config ic) = true ->
  Event_Text event = a +:+ "%%" +:+ b ->
  mem_byte "<" (a +:+ b) = false ->
  let '(name, st1, _) := getUserDisplayName env (Event_User event) (config ic) st in
  mem_byte "%" (IRC_Channel (config ic) +:+ name +:+ a +:+ b) = false ->
  exists w effects,
    createWebhookHandler env h p (post event) st = Ret (w, st1, effects)
    /\ writtenTo (conn ic) effects
       = ["PRIVMSG " +:+ IRC_Channel (config ic) +:+ " :<" +:+ name +:+ "> "
            +:+ a +:+ "%" +:+ b +:+ CRLF].
Proof.
  intros Hp Ht Hm Hs Htext Hb.
  pose proof (getUserDisplayName_quiet env (Event_User event) (config ic) st) as Hq.
  unfold createWebhookHandler, post, deref. cbn [Method Body].
  rewrite Ht, Hm, Hp. cbn [String.eqb Ascii.eqb Bool.eqb negb andb bind].
  rewrite Hs. cbn [negb].
  destruct (getUserDisplayName env (Event_User event) (config ic) st) as [[name st1] e1].
  cbn [snd] in Hq. intros Hpc.
  assert (Hplain : forall text st,
             mem_byte "<" text = false ->
             translateMentions env text (config ic) st = (text, st, [])).
  { clear. induction text as [|c text IH]; intros st H; [reflexivity|].
    cbn [mem_byte] in H. apply orb_false_elim in H as [Hc Ht].
    rewrite translateMentions_eq, match_mention_head, (IH _ Ht); [reflexivity|].
    intros ->. discriminate. }
  rewrite mem_byte_append in Hb. apply orb_false_elim in Hb as [Hba Hbb].
  rewrite Hplain.
  2:{ rewrite Htext, !mem_byte_append, Hba, Hbb. reflexivity. }
  rewrite !mem_byte_append in Hpc.
  apply orb_false_elim in Hpc as [Hc Hpc]. apply orb_false_elim in Hpc as [Hn Hpc].
  apply orb_false_elim in Hpc as [Ha Hb'].
  assert (Hline : Sprintf ("PRIVMSG " +:+ IRC_Channel (config ic) +:+ " :<" +:+ name
                             +:+ "> " +:+ Event_Text event +:+ CRLF)
                  = "PRIVMSG " +:+ IRC_Channel (config ic) +:+ " :<" +:+ name +:+ "> "
                      +:+ a +:+ "%" +:+ b +:+ CRLF).
  { rewrite Htext, !append_assoc.
    rewrite (Sprintf_after_plain "PRIVMSG ") by reflexivity.
    rewrite (Sprintf_after_plain (IRC_Channel (config ic))) by exact Hc.
    rewrite (Sprintf_after_plain " :<") by reflexivity.
    rewrite (Sprintf_after_plain name) by exact Hn.
    rewrite (Sprintf_after_plain "> ") by reflexivity.
    rewrite (Sprintf_after_plain a) by exact Ha.
    rewrite Sprintf_percent_percent, Sprintf_plain; [reflexivity|].
    rewrite mem_byte_append, Hb'. reflexivity. }
  rewrite Hline.
  destruct (quiet_silent (conn ic) e1 Hq) as [Hw _].
  destruct (WriteFails env (clock st1) (conn ic)); eexists _, _;
    (split; [reflexivity|]);
    rewrite !writtenTo_app, Hw; cbn [List.app writtenTo];
    rewrite Nat.eqb_refl; reflexivity.
Qed.

Lemma relayed_percent_signs_collapse_witness :
  exists w effects,
    createWebhookHandler offline [{| conn := 7; config := sampleConfig |}] 0
      (post (messageEvent "U123" "100%% sure" "" ""))
      {| clock := 0; userCache := ∅ |}
    = Ret (w, {| clock := 0; userCache := ∅ |}, effects)
    /\ writtenTo 7 effects = ["PRIVMSG #yourchannel :<U123> 100% sure" +:+ CRLF].
Proof.
  exact (relayed_percent_signs_collapse offline [{| conn := 7; config := sampleConfig |}]
           0%nat {| conn := 7; config := sampleConfig |}
           (messageEvent "U123" "100%% sure" "" "")
           {| clock := 0; userCache := ∅ |} "100" " sure"
           eq_refl eq_refl eq_refl eq_refl eq_refl eq_refl eq_refl).
Defined.

(** X21: in every world the process reaches while it reads from a
    connection, a line on which handleMessage panics is printed and ends
    the process: nothing is written or forwarded for it, and from then on
    no dial, no line, no webhook request and no passing of time is taken
    any more. *)
Theorem panic_ends_the_process (env : Env) (config : Config) (t0 : Z)
    (events : list Event) (w : World) (c : Conn) (message : string) :
  run env config events (start config t0) = Some w ->
  phase w = Reading c ->
  (forall p, ircConn w = Some p ->
             handleMessage (heap w) message p (Slack_WebhookURL config) = Panic) ->
  exists w',
    step env config (Line (Some message)) w = Some w'
    /\ phase w' = Crashed
    /\ trace w' = trace w ++ [Print message]
    /\ forall events', events' <> [] -> run env config events' w' = None.
Proof.
  intros Hr Hp Hpanic.
  assert (Hi : readsCurrent w).
  { apply (run_invariant env config _ (step_readsCurrent env config) _ _ _ Hr).
    intros c'. discriminate. }
  destruct (Hi c Hp) as (p & ic & Hc & _ & _).
  unfold step, manageIRCConnection, readLine. rewrite Hp, Hc, (Hpanic p Hc).
  eexists. split; [reflexivity|]. split; [reflexivity|]. split; [reflexivity|].
  intros [|e events'] Hne; [contradiction|].
  cbn [run]. now destruct e.
Qed.

Lemma panic_ends_the_process_witness :
  exists w',
    step online sampleConfig (Line (Some ("!x JOIN #c" +:+ CRLF)))
      (dialed sampleConfig (Some 3%nat) (start sampleConfig 0)) = Some w'
    /\ phase w' = Crashed
    /\ trace w' = trace (dialed sampleConfig (Some 3%nat) (start sampleConfig 0))
                    ++ [Print ("!x JOIN #c" +:+ CRLF)]
    /\ forall events', events' <> [] -> run online sampleConfig events' w' = None.
Proof.
  exact (panic_ends_the_process online sampleConfig 0 [Dialed (Some 3%nat)] _ 3%nat
           ("!x JOIN #c" +:+ CRLF) eq_refl eq_refl (fun p _ => eq_refl)).
Defined.

(** Where the action text starts when the word ACTION starts nowhere
    before, and what extractActionMessage then returns. *)
Lemma extractActionMessage_after (pre rest : string) :
  Contains (pre +:+ "ACTIO") "ACTION" = false ->
  extractActionMessage (pre +:+ "ACTION " +:+ rest)
  = match index_of rest (String SOH "") with
    | Some n => Ret (take n rest)
    | None => Ret (TrimRight rest CRLF)
    end.
Proof.
  intros Hpre. unfold extractActionMessage.
  assert (Hi : Index (pre +:+ "ACTION " +:+ rest) "ACTION" = len pre).
  { unfold Index, Contains, Index in *.
    destruct (index_of (pre +:+ "ACTIO") "ACTION") eqn:E;
      [apply Z.leb_gt in Hpre; lia|].
    change (pre +:+ "ACTION " +:+ rest)
      with (pre +:+ ("ACTIO" +:+ String "N" "") +:+ (" " +:+ rest)).
    change "ACTION" with ("ACTIO" +:+ String "N" "").
    now rewrite (index_of_first pre "ACTIO" _ "N" E). }
  rewrite Hi.
  replace (len pre + len "ACTION ") with (len (pre +:+ "ACTION "))
    by apply len_append.
  replace (pre +:+ "ACTION " +:+ rest) with ((pre +:+ "ACTION ") +:+ rest)
    by apply append_assoc.
  rewrite slice_from_append. cbn [bind]. unfold Index.
  destruct (index_of rest (String SOH "")) as [n|] eqn:E; [|reflexivity].
  destruct (Z.of_nat n =? -1) eqn:En; [apply Z.eqb_eq in En; lia|].
  destruct (index_of_split _ _ _ E) as (a & b & -> & <-).
  rewrite take_append. apply slice_append.
Qed.

(** X22: an action line [:nick!user@host PRIVMSG #chan :] SOH
    [ACTION text] SOH CR LF, in the ACTION category, with the word ACTION
    nowhere before the framed one and no SOH in the text, is printed and
    forwarded once to the Slack webhook URL as [_nick text_]. *)
Theorem action_forwarded (h : Heap) (x : ascii) (nick rest text post : string)
    (p : Ptr) (url : string) :
  x <> "!"%char -> mem_byte "!" nick = false ->
  classify (String x nick +:+ "!" +:+ rest +:+ "ACTION " +:+ text +:+ String SOH post)
  = IsAction ->
  Contains (String x nick +:+ "!" +:+ rest +:+ "ACTIO") "ACTION" = false ->
  mem_byte SOH text = false ->
  handleMessage h
    (String x nick +:+ "!" +:+ rest +:+ "ACTION " +:+ text +:+ String SOH post) p url
  = Ret [Print (String x nick +:+ "!" +:+ rest +:+ "ACTION " +:+ text +:+ String SOH post);
         PostToSlack ("_" +:+ nick +:+ " " +:+ text +:+ "_") url].
Proof.
  intros Hx Hn Hc Hpre Htext.
  rewrite handleMessage_dispatch, Hc, (extractNickname_shape x nick _ Hx Hn). cbn [bind].
  assert (Ha : extractActionMessage
                 (String x nick +:+ "!" +:+ rest +:+ "ACTION " +:+ text +:+ String SOH post)
               = Ret text).
  { replace (String x nick +:+ "!" +:+ rest +:+ "ACTION " +:+ text +:+ String SOH post)
      with ((String x nick +:+ "!" +:+ rest) +:+ "ACTION " +:+ text +:+ String SOH post)
      by now rewrite !append_assoc.
    rewrite extractActionMessage_after by now rewrite !append_assoc.
    change (text +:+ String SOH post) with (text +:+ String SOH "" +:+ post).
    rewrite (index_of_skip text post "" SOH Htext). now rewrite take_append. }
  rewrite Ha. reflexivity.
Qed.

Lemma action_forwarded_witness :
  handleMessage []
    (":alice!al@host PRIVMSG #chan :" +:+ String SOH "ACTION waves" +:+ String SOH CRLF)
    0 "url"
  = Ret [Print (":alice!al@host PRIVMSG #chan :" +:+ String SOH "ACTION waves"
                  +:+ String SOH CRLF);
         PostToSlack "_alice waves_" "url"].
Proof.
  exact (action_forwarded [] ":" "alice" ("al@host PRIVMSG #chan :" +:+ String SOH "")
           "waves" CRLF 0%nat "url" ltac:(discriminate) eq_refl eq_refl eq_refl eq_refl).
Defined.

Lemma Contains_inside (a sep b : string) : Contains (a +:+ sep +:+ b) sep = true.
Proof.
  unfold Contains, Index.
  assert (H : exists n, index_of (a +:+ sep +:+ b) sep = Some n).
  { induction a as [|x a [n IH]]; rewrite index_of_eq.
    - change ("" +:+ sep +:+ b) with (sep +:+ b). rewrite prefix_append. now exists 0%nat.
    - destruct (String.prefix sep (String x a +:+ sep +:+ b)); [now exists 0%nat|].
      cbn [String.append]. rewrite IH. now exists (S n). }
  destruct H as [n ->]. apply Z.leb_le. lia.
Qed.

(** X23: the categories are decided by words found anywhere in the line:
    a line that does not start with PING, has a sender and holds the word
    JOIN anywhere after the sender's exclamation mark, be it in the chat
    text of a PRIVMSG, is forwarded as the announcement that the sender
    has joined, and nothing else of the line is forwarded. *)
Theorem join_word_anywhere (h : Heap) (x : ascii) (nick a b : string) (p : Ptr)
    (url : string) :
  x <> "!"%char -> mem_byte "!" nick = false ->
  HasPrefix (String x nick +:+ "!" +:+ a +:+ "JOIN" +:+ b) "PING" = false ->
  classify (String x nick +:+ "!" +:+ a +:+ "JOIN" +:+ b) = IsJoin
  /\ handleMessage h (String x nick +:+ "!" +:+ a +:+ "JOIN" +:+ b) p url
     = Ret [Print (String x nick +:+ "!" +:+ a +:+ "JOIN" +:+ b);
            PostToSlack ("*" +:+ nick +:+ " has joined the channel*") url].
Proof.
  intros Hx Hn Hping.
  assert (Hc : classify (String x nick +:+ "!" +:+ a +:+ "JOIN" +:+ b) = IsJoin).
  { unfold classify. rewrite Hping.
    replace (String x nick +:+ "!" +:+ a +:+ "JOIN" +:+ b)
      with ((String x nick +:+ "!" +:+ a) +:+ "JOIN" +:+ b)
      by now rewrite !append_assoc.
    now rewrite Contains_inside. }
  split; [exact Hc|].
  rewrite handleMessage_dispatch, Hc, (extractNickname_shape x nick _ Hx Hn). reflexivity.
Qed.

Lemma join_word_anywhere_witness :
  handleMessage [] (":alice!al@host PRIVMSG #chan :please JOIN us" +:+ CRLF) 0 "url"
  = Ret [Print (":alice!al@host PRIVMSG #chan :please JOIN us" +:+ CRLF);
         PostToSlack "*alice has joined the channel*" "url"].
Proof.
  exact (proj2 (join_word_anywhere [] ":" "alice" "al@host PRIVMSG #chan :please "
                  (" us" +:+ CRLF) 0%nat "url" ltac:(discriminate) eq_refl eq_refl)).
Defined.

Lemma createWebhookHandler_returns (env : Env) (h : Heap) (p : Ptr) (ic : IRCConnection)
    (r : Request) (st : CacheSt) :
  h !! p = Some ic ->
  exists w st' effects, createWebhookHandler env h p r st = Ret (w, st', effects).
Proof.
  intros Hp. unfold createWebhookHandler, deref. rewrite Hp. cbn [bind].
  destruct (negb (String.eqb (Method r) "POST")); [eauto|].
  destruct (Body r) as [event|]; [|eauto].
  destruct (String.eqb (Type_ event) "url_verification"); [eauto|].
  destruct (String.eqb (Type_ event) "event_callback"
            && String.eqb (Event_Type event) "message"); [|eauto].
  destruct (negb (shouldProcessMessage event (config ic))); [eauto|].
  destruct (getUserDisplayName env (Event_User event) (config ic) st) as [[name st1] e1].
  destruct (translateMentions env (Event_Text event) (config ic) st1)
    as [[translatedText st2] e2].
  destruct (WriteFails env (clock st2) (conn ic)); eauto.
Qed.

(** X24: once the first connection has been made, every webhook request
    is answered for as long as the process runs, also while the manager
    is dialing again after a lost connection: the handler does not panic
    (the struct it holds is never nil), and serving a request leaves the
    manager's connection, its structs and what it is waiting for as they
    were. *)
Theorem requests_served_while_running (env : Env) (config : Config) (t0 : Z)
    (events : list Event) (w : World) (r : Request) :
  run env config events (start config t0) = Some w ->
  firstConnection w = false ->
  phase w = Dialing \/ (exists c, phase w = Reading c) ->
  exists resp w',
    serve env r w = Some (resp, w')
    /\ step env config (Serve r) w = Some w'
    /\ phase w' = phase w /\ heap w' = heap w /\ ircConn w' = ircConn w
    /\ handler w' = handler w.
Proof.
  intros Hr Hf Hph.
  destruct (run_invariant env config pointers (step_pointers env config) _ _ _ Hr
              (start_pointers config t0))
    as [(Hf' & _)|(_ & Hh & Hd & _)]; [congruence|].
  assert (Hic : exists ic, heap w !! 0%nat = Some ic).
  { destruct (heap w) as [|ic rest]; [contradiction | now exists ic]. }
  destruct Hic as [ic Hic].
  destruct (createWebhookHandler_returns env (heap w) 0%nat ic r (cache w) Hic)
    as (resp & st' & effects & Hc).
  unfold step, serve. rewrite Hd, Hc.
  eexists _, _. split; [reflexivity|]. cbn [option_map snd phase heap ircConn handler].
  split; [|auto].
  destruct Hph as [->|[c ->]]; reflexivity.
Qed.

Lemma requests_served_while_running_witness :
  exists resp w',
    serve online (post (messageEvent "U123" "hello" "" ""))
      (readLine sampleConfig None (dialed sampleConfig (Some 3%nat) (start sampleConfig 0)))
    = Some (resp, w')
    /\ step online sampleConfig (Serve (post (messageEvent "U123" "hello" "" "")))
         (readLine sampleConfig None
            (dialed sampleConfig (Some 3%nat) (start sampleConfig 0)))
       = Some w'
    /\ phase w' = Dialing
    /\ heap w' = [{| conn := 3; config := sampleConfig |}]
    /\ ircConn w' = Some 0%nat
    /\ handler w' = Some 0%nat.
Proof.
  exact (requests_served_while_running online sampleConfig 0
           [Dialed (Some 3%nat); Line None] _ (post (messageEvent "U123" "hello" "" ""))
           eq_refl eq_refl (or_introl eq_refl)).
Defined.
